(** * focal-mcp: the rules workspace, the MCP dispatcher and the notifier

    A shallow embedding of [focal_mcp_server/workspace.py],
    [focal_mcp_server/mcp.py] and [focal_mcp_server/notifications.py],
    of the [/mcp] endpoint of [focal_mcp_server/app.py] and of the routes of
    [focal_mcp_server/web.py] that read and write the workspace, followed
    by the properties of the specification proved about it and by further
    properties of the code.

    Left out: [build_tree] (its sort key lowers names with [str.lower], which
    is a Unicode case mapping), the [/mcp/ws] endpoint (a receive loop that
    does not end by itself), the HTML page, and logging, which acts on
    nothing the embedding holds.

    Conventions of the embedding.
    - A Python [str] is a Rocq [string] holding the bytes [os.fsencode]
      gives for it: the UTF-8 encoding of the text, where a surrogate that
      escapes a byte (as in the name of a file whose bytes are not UTF-8,
      or in a JSON string such as ["\udcff"]) is that byte.  So a file name
      is its bytes, and [s.encode("utf-8")] returns [s] when [s] is valid
      UTF-8 and raises [UnicodeEncodeError] when it is not.  [startswith],
      [replace] with ASCII patterns, concatenation, comparison and [strip]
      act on these bytes exactly as they act on the code points.  A [str]
      holding a surrogate of another kind has no such bytes and is not
      represented.  [bytes] are Rocq strings as well.
    - A JSON value is what [json.loads] returns: a number is an [int] or a
      [float], and a [float] can be NaN or an infinity.
    - A path is the list of its parts below the filesystem root [/]; the
      filesystem is a finite map from canonical absolute paths to nodes.
      There are no symbolic links, so a path leads where the lexical
      elimination of [..] says.  [pathlib] is the one of CPython 3.11.
    - The system refuses a name of more than [NAME_MAX] bytes when it looks
      the name up in a directory; [exists], [is_file] and [is_dir] then
      raise [OSError].  The tree holds what a filesystem can hold, so a name
      that is found is never refused.  The workspace root is a path the
      system takes, and the names a route creates ([mkdir], [write_text],
      [rename]) are taken as the system takes them: the refusal of a new
      name, and the limit on the length of a whole path, are not modelled.
      The text a route writes is text that can be encoded.  Permissions are
      modelled for reading files only.
    - Code that touches the filesystem or raises runs in a state and
      exception monad over the filesystem.
    - A modification time is an integer number of microseconds since the
      epoch, inside the range [datetime] can represent. *)

From Stdlib Require Import ZArith String Ascii List Lia Permutation Sorted.
From stdpp Require Import gmap strings list fin_maps sets sorting.

Local Open Scope string_scope.
Local Open Scope list_scope.
Set Warnings "-register-all,-clear-no-such-hyp".

(* ===================================================================== *)
(** * Part I: definitions *)
(* ===================================================================== *)

(** ** Python strings *)

Module Py.

Definition chr (n : nat) : ascii := ascii_of_nat n.

(** ["\n"], ["\r"] *)
Definition LF : ascii := chr 10.
Definition CR : ascii := chr 13.
Definition nl : string := String LF "".

(** [bool(s)] for a string *)
Definition truthy (s : string) : bool :=
  match s with EmptyString => false | _ => true end.

(** [s.startswith(p)] *)
Definition startswith (s p : string) : bool := String.prefix p s.

Fixpoint drop (n : nat) (s : string) : string :=
  match n, s with
  | O, _ => s
  | S k, String _ t => drop k t
  | S _, EmptyString => EmptyString
  end.

(** [s[:n]] *)
Fixpoint take (n : nat) (s : string) : string :=
  match n, s with
  | S k, String c t => String c (take k t)
  | _, _ => EmptyString
  end.

(** [s.endswith(p)] *)
Definition endswith (s p : string) : bool :=
  Nat.leb (String.length p) (String.length s)
  && String.eqb (drop (String.length s - String.length p) s) p.

(** [s.replace(old, new)] for a non-empty [old]: the occurrences are
    taken from left to right and do not overlap.  [skip] counts the
    characters of a matched occurrence still to be passed over. *)
Fixpoint replace_from (skip : nat) (old new s : string) : string :=
  match s with
  | EmptyString => EmptyString
  | String c t =>
      match skip with
      | S k => replace_from k old new t
      | O =>
          if String.prefix old s
          then new +:+ replace_from (String.length old - 1) old new t
          else String c (replace_from 0 old new t)
      end
  end.

Definition replace (s old new : string) : string := replace_from 0 old new s.

(** [s.replace(old, new, 1)]: the first occurrence only *)
Fixpoint replace_first (s old new : string) : string :=
  match s with
  | EmptyString => EmptyString
  | String c t =>
      if String.prefix old s then new +:+ drop (String.length old) s
      else String c (replace_first t old new)
  end.

(** [s.lstrip(c)] for a one-character set *)
Fixpoint lstrip_char (c : ascii) (s : string) : string :=
  match s with
  | String a t => if Ascii.eqb a c then lstrip_char c t else s
  | EmptyString => EmptyString
  end.

(** [s.split(sep)] for a one-character separator *)
Fixpoint split (sep : ascii) (s : string) : list string :=
  match s with
  | EmptyString => [EmptyString]
  | String a t =>
      if Ascii.eqb a sep then EmptyString :: split sep t
      else match split sep t with
           | h :: r => String a h :: r
           | [] => [String a EmptyString]
           end
  end.

(** [sep.join(l)] *)
Fixpoint join (sep : string) (l : list string) : string :=
  match l with
  | [] => EmptyString
  | [x] => x
  | x :: r => x +:+ sep +:+ join sep r
  end.

Definition rev (s : string) : string :=
  string_of_list_ascii (List.rev (list_ascii_of_string s)).

Definition of_codes (l : list nat) : string :=
  string_of_list_ascii (List.map chr l).

(** The characters [str.isspace] accepts, each as its UTF-8 encoding:
    U+0009..U+000D, U+001C..U+0020, U+0085, U+00A0, U+1680,
    U+2000..U+200A, U+2028, U+2029, U+202F, U+205F, U+3000. *)
Definition whitespace : list string :=
  List.map of_codes
    ([ [9]; [10]; [11]; [12]; [13]; [28]; [29]; [30]; [31]; [32];
       [194; 133]; [194; 160]; [225; 154; 128] ]
     ++ List.map (fun k => [226; 128; k])
          [128; 129; 130; 131; 132; 133; 134; 135; 136; 137; 138;
           168; 169; 175]
     ++ [ [226; 129; 159]; [227; 128; 128] ])%list.

(** Strip, from the front of [s], characters whose encoding is in [pats]. *)
Fixpoint lstrip_with (pats : list string) (fuel : nat) (s : string) : string :=
  match fuel with
  | O => s
  | S k =>
      match List.find (fun w => String.prefix w s) pats with
      | Some w => lstrip_with pats k (drop (String.length w) s)
      | None => s
      end
  end.

Definition lstrip (s : string) : string :=
  lstrip_with whitespace (String.length s) s.

Definition rstrip (s : string) : string :=
  rev (lstrip_with (List.map rev whitespace) (String.length s) (rev s)).

(** [s.strip()] *)
Definition strip (s : string) : string := rstrip (lstrip s).

(** [sorted(l, key=key)] for string keys: a stable sort, written as the
    insertion sort that places an element before the first element whose
    key is not smaller. *)
Section Sorted.
Context {A : Type} (key : A -> string).

Fixpoint insert_by (x : A) (l : list A) : list A :=
  match l with
  | [] => [x]
  | y :: t =>
      if String.leb (key x) (key y) then x :: y :: t
      else y :: insert_by x t
  end.

Fixpoint sorted (l : list A) : list A :=
  match l with
  | [] => []
  | x :: t => insert_by x (sorted t)
  end.
End Sorted.

(** Strict UTF-8, as the [utf-8] codec checks it: no overlong form, no
    surrogate, nothing above U+10FFFF. *)
Definition in_range (lo hi : N) (c : ascii) : bool :=
  (lo <=? N_of_ascii c)%N && (N_of_ascii c <=? hi)%N.

Definition cont (c : ascii) : bool := in_range 128 191 c.

Definition second3 (b c : ascii) : bool :=
  if (N_of_ascii b =? 224)%N then in_range 160 191 c
  else if (N_of_ascii b =? 237)%N then in_range 128 159 c
  else cont c.

Definition second4 (b c : ascii) : bool :=
  if (N_of_ascii b =? 240)%N then in_range 144 191 c
  else if (N_of_ascii b =? 244)%N then in_range 128 143 c
  else cont c.

Fixpoint valid_utf8 (s : string) : bool :=
  match s with
  | EmptyString => true
  | String b r =>
      if in_range 0 127 b then valid_utf8 r
      else if in_range 194 223 b then
        match r with
        | String c1 r1 => cont c1 && valid_utf8 r1
        | _ => false
        end
      else if in_range 224 239 b then
        match r with
        | String c1 (String c2 r2) => second3 b c1 && cont c2 && valid_utf8 r2
        | _ => false
        end
      else if in_range 240 244 b then
        match r with
        | String c1 (String c2 (String c3 r3)) =>
            second4 b c1 && cont c2 && cont c3 && valid_utf8 r3
        | _ => false
        end
      else false
  end.

(** [b.decode("utf-8")]: [None] stands for [UnicodeDecodeError]. *)
Definition decode_utf8 (b : string) : option string :=
  if valid_utf8 b then Some b else None.

(** [s.encode("utf-8")]: [None] stands for [UnicodeEncodeError], which a
    surrogate in [s] brings. *)
Definition encode_utf8 (s : string) : option string :=
  if valid_utf8 s then Some s else None.

(** Does [s] hold a NUL byte? *)
Fixpoint has_nul (s : string) : bool :=
  match s with
  | EmptyString => false
  | String c t => Ascii.eqb c (chr 0) || has_nul t
  end.

(** Text mode reading translates ["\r\n"] and ["\r"] to ["\n"]. *)
Fixpoint universal_newlines (s : string) : string :=
  match s with
  | EmptyString => EmptyString
  | String c t =>
      if Ascii.eqb c CR then
        match t with
        | String c2 t2 =>
            if Ascii.eqb c2 LF then String LF (universal_newlines t2)
            else String LF (universal_newlines t)
        | EmptyString => String LF EmptyString
        end
      else String c (universal_newlines t)
  end.

End Py.

(** ** [hashlib.sha256] (FIPS 180-4) *)

Module Sha256.
Local Open Scope Z_scope.

Definition w32 (x : Z) : Z := x mod 4294967296.
Definition add32 (x y : Z) : Z := w32 (x + y).
Definition rotr (n x : Z) : Z :=
  Z.lor (Z.shiftr x n) (w32 (Z.shiftl x (32 - n))).
Definition not32 (x : Z) : Z := Z.lxor x 4294967295.

Definition Ch (x y z : Z) : Z := Z.lxor (Z.land x y) (Z.land (not32 x) z).
Definition Maj (x y z : Z) : Z :=
  Z.lxor (Z.lxor (Z.land x y) (Z.land x z)) (Z.land y z).
Definition Sigma0 (x : Z) : Z := Z.lxor (Z.lxor (rotr 2 x) (rotr 13 x)) (rotr 22 x).
Definition Sigma1 (x : Z) : Z := Z.lxor (Z.lxor (rotr 6 x) (rotr 11 x)) (rotr 25 x).
Definition sigma0 (x : Z) : Z := Z.lxor (Z.lxor (rotr 7 x) (rotr 18 x)) (Z.shiftr x 3).
Definition sigma1 (x : Z) : Z := Z.lxor (Z.lxor (rotr 17 x) (rotr 19 x)) (Z.shiftr x 10).

Definition K : list Z :=
  [ 1116352408; 1899447441; 3049323471; 3921009573; 961987163; 1508970993;
    2453635748; 2870763221; 3624381080; 310598401; 607225278; 1426881987;
    1925078388; 2162078206; 2614888103; 3248222580; 3835390401; 4022224774;
    264347078; 604807628; 770255983; 1249150122; 1555081692; 1996064986;
    2554220882; 2821834349; 2952996808; 3210313671; 3336571891; 3584528711;
    113926993; 338241895; 666307205; 773529912; 1294757372; 1396182291;
    1695183700; 1986661051; 2177026350; 2456956037; 2730485921; 2820302411;
    3259730800; 3345764771; 3516065817; 3600352804; 4094571909; 275423344;
    430227734; 506948616; 659060556; 883997877; 958139571; 1322822218;
    1537002063; 1747873779; 1955562222; 2024104815; 2227730452; 2361852424;
    2428436474; 2756734187; 3204031479; 3329325298 ].

Definition H0 : list Z :=
  [ 1779033703; 3144134277; 1013904242; 2773480762;
    1359893119; 2600822924; 528734635; 1541459225 ].

Definition byte_values (s : string) : list Z :=
  List.map (fun c => Z.of_N (N_of_ascii c)) (list_ascii_of_string s).

(** big-endian bytes of [x], [n] of them *)
Fixpoint be_bytes (n : nat) (x : Z) : list Z :=
  match n with
  | O => []
  | S k => (Z.shiftr x (8 * Z.of_nat k)) mod 256 :: be_bytes k x
  end.

Definition pad (m : list Z) : list Z :=
  let len := Z.of_nat (List.length m) in
  m ++ [128] ++ List.repeat 0 (Z.to_nat ((55 - len) mod 64))
    ++ be_bytes 8 (8 * len).

Fixpoint be_value (l : list Z) (acc : Z) : Z :=
  match l with
  | [] => acc
  | b :: r => be_value r (acc * 256 + b)
  end.

Fixpoint words (fuel : nat) (l : list Z) : list Z :=
  match fuel, l with
  | S k, _ :: _ => be_value (firstn 4 l) 0 :: words k (skipn 4 l)
  | _, _ => []
  end.

Fixpoint blocks (fuel : nat) (ws : list Z) : list (list Z) :=
  match fuel, ws with
  | S k, _ :: _ => firstn 16 ws :: blocks k (skipn 16 ws)
  | _, _ => []
  end.

(** The message schedule, most recent word first. *)
Fixpoint schedule (n : nat) (rw : list Z) : list Z :=
  match n with
  | O => rw
  | S k =>
      let w :=
        add32 (add32 (sigma1 (nth 1 rw 0)) (nth 6 rw 0))
              (add32 (sigma0 (nth 14 rw 0)) (nth 15 rw 0)) in
      schedule k (w :: rw)
  end.

Definition round (st : list Z) (kw : Z * Z) : list Z :=
  match st with
  | [a; b; c; d; e; f; g; h] =>
      let t1 :=
        add32 (add32 (add32 h (Sigma1 e)) (add32 (Ch e f g) (fst kw))) (snd kw) in
      let t2 := add32 (Sigma0 a) (Maj a b c) in
      [add32 t1 t2; a; b; c; add32 d t1; e; f; g]
  | _ => st
  end.

Definition compress (h : list Z) (block : list Z) : list Z :=
  let w := List.rev (schedule 48 (List.rev block)) in
  let st := fold_left round (combine K w) h in
  List.map (fun p => add32 (fst p) (snd p)) (combine h st).

Definition digest_words (s : string) : list Z :=
  let p := pad (byte_values s) in
  let ws := words (List.length p) p in
  fold_left compress (blocks (List.length ws) ws) H0.

Definition hexdigit (n : Z) : ascii :=
  match String.get (Z.to_nat n) "0123456789abcdef" with
  | Some c => c
  | None => "0"%char
  end.

Fixpoint hex (n : nat) (x : Z) : string :=
  match n with
  | O => EmptyString
  | S k => String (hexdigit ((Z.shiftr x (4 * Z.of_nat k)) mod 16)) (hex k x)
  end.

(** [hashlib.sha256(s).hexdigest()] *)
Definition hexdigest_of (s : string) : string :=
  String.concat EmptyString (List.map (hex 8) (digest_words s)).

(** The hash object: the bytes fed so far. *)
Definition t := string.
Definition new : t := EmptyString.
Definition update (h : t) (b : string) : t := h +:+ b.
Definition hexdigest (h : t) : string := hexdigest_of h.

End Sha256.

(** ** [datetime.fromtimestamp(t, tz=timezone.utc).isoformat()] *)

Module Datetime.
Local Open Scope Z_scope.

Definition digit (n : Z) : ascii := Sha256.hexdigit (n mod 10).

Fixpoint pad (n : nat) (x : Z) : string :=
  match n with
  | O => EmptyString
  | S k => String (digit (x / 10 ^ Z.of_nat k)) (pad k x)
  end.

(** The civil date of a day number counted from 1970-01-01. *)
Definition civil (days : Z) : Z * Z * Z :=
  let z := days + 719468 in
  let era := z / 146097 in
  let doe := z - era * 146097 in
  let yoe := (doe - doe / 1460 + doe / 36524 - doe / 146096) / 365 in
  let doy := doe - (365 * yoe + yoe / 4 - yoe / 100) in
  let mp := (5 * doy + 2) / 153 in
  let d := doy - (153 * mp + 2) / 5 + 1 in
  let m := if mp <? 10 then mp + 3 else mp - 9 in
  let y := yoe + era * 400 + (if m <=? 2 then 1 else 0) in
  (y, m, d).

(** [us]: microseconds since the epoch *)
Definition isoformat (us : Z) : string :=
  let day := us / 86400000000 in
  let r := us mod 86400000000 in
  let '(y, m, d) := civil day in
  let secs := r / 1000000 in
  let frac := r mod 1000000 in
  pad 4 y +:+ "-" +:+ pad 2 m +:+ "-" +:+ pad 2 d +:+ "T"
    +:+ pad 2 (secs / 3600) +:+ ":" +:+ pad 2 (secs / 60 mod 60)
    +:+ ":" +:+ pad 2 (secs mod 60)
    +:+ (if frac =? 0 then "" else "." +:+ pad 6 frac)
    +:+ "+00:00".

End Datetime.

(** ** Values, exceptions and outcomes *)

(** A Python [float]: a finite number [m * 2 ^ e], an infinity or NaN. *)
Inductive float : Type :=
| Finite (m e : Z)
| Infinity (negative : bool)
| NaN.

(** A JSON value, the [Any] of the handler's dictionaries.  A dictionary
    keeps its keys in insertion order. *)
Inductive json : Type :=
| JNull
| JBool (b : bool)
| JNum (n : Z)
| JFloat (x : float)
| JStr (s : string)
| JList (l : list json)
| JDict (d : list (string * json)).

(** [OSError] stands for an [OSError] that has no class of its own and is
    known by its [errno]. *)
Inductive exn : Type :=
| JsonRpcError (code : Z) (message : string)
| ValueError (message : string)
| FileExistsError
| FileNotFoundError
| NotADirectoryError
| IsADirectoryError
| PermissionError
| UnicodeDecodeError
| UnicodeEncodeError
| AttributeError
| OSError (errno : string).

Inductive outcome (A : Type) : Type :=
| Ok (a : A)
| Raise (e : exn).
Arguments Ok {A} a.
Arguments Raise {A} e.

(** ** The filesystem and the monad of the code that uses it *)

Module Fs.

(** The parts of an absolute path, [/] being the empty list. *)
Abbreviation path := (list string).

Record file : Type := File {
  content : string;      (* the raw bytes *)
  mtime : Z;             (* st_mtime, in microseconds *)
  readable : bool        (* may the process read it *)
}.

Inductive node : Type :=
| Reg (f : file)
| Dir.

Record state : Type := State {
  tree : gmap path node;  (* keyed by canonical absolute paths *)
  clock : Z               (* the time a write stamps on a file *)
}.

Definition M (A : Type) : Type := state -> outcome A * state.

Definition ret {A} (a : A) : M A := fun s => (Ok a, s).

Definition raise {A} (e : exn) : M A := fun s => (Raise e, s).

Definition bind {A B} (m : M A) (k : A -> M B) : M B :=
  fun s =>
    match m s with
    | (Ok a, s') => k a s'
    | (Raise e, s') => (Raise e, s')
    end.

(** [try: m  except Exception: h] *)
Definition try_except {A} (m : M A) (h : exn -> M A) : M A :=
  fun s =>
    match m s with
    | (Ok a, s') => (Ok a, s')
    | (Raise e, s') => h e s'
    end.

Definition lift {A} (o : outcome A) : M A := fun s => (o, s).

(** [for x in l: acc = body(acc, x)] *)
Fixpoint foldM {A B} (body : B -> A -> M B) (l : list A) (acc : B) : M B :=
  match l with
  | [] => ret acc
  | x :: r => bind (body acc x) (fun acc' => foldM body r acc')
  end.

(** [PurePosixPath(s).parts] for a string without a leading slash:
    empty components and [.] vanish, [..] stays. *)
Definition parts_of (s : string) : path :=
  List.filter (fun p => negb (String.eqb p "") && negb (String.eqb p "."))
    (Py.split "/" s).

(** [p / s] *)
Definition joinpath (p : path) (s : string) : path :=
  if Py.startswith s "/" then parts_of s else p ++ parts_of s.

(** Where a path leads: without symbolic links, the elimination of [..],
    which at [/] stays at [/]. *)
Definition resolve_step (acc : path) (part : string) : path :=
  if String.eqb part ".." then removelast acc else acc ++ [part].

Definition resolve (p : path) : path := fold_left resolve_step p [].

(** [Path.resolve()].  [os.path.realpath] asks the system about the path
    up to each of its parts; a part that holds a NUL byte makes that call
    raise [ValueError], which is not caught, whatever else the path holds.
    Every [OSError] of these calls is caught, so a path that does not exist
    is resolved as well. *)
Definition realpath (p : path) : outcome path :=
  if existsb Py.has_nul p then Raise (ValueError "embedded null byte")
  else Ok (resolve p).

(** [p.parents], nearest first *)
Definition parents (p : path) : list path :=
  List.map (fun n => firstn n p) (List.rev (seq 0 (List.length p))).

Definition lookup_node (t : gmap path node) (p : path) : option node :=
  match p with
  | [] => Some Dir
  | _ => t !! p
  end.

(** The longest name a directory entry can have, in bytes. *)
Definition NAME_MAX : nat := 255.

(** Does the walk from the directory [done] along [todo] end at a name the
    system refuses?  It does when the first part that is not found is
    longer than [NAME_MAX] and was looked up in a directory. *)
Fixpoint refused (t : gmap path node) (done todo : path) : bool :=
  match todo with
  | [] => false
  | part :: r =>
      match lookup_node t (done ++ [part]) with
      | Some Dir => refused t (done ++ [part]) r
      | Some (Reg _) => false
      | None => Nat.ltb NAME_MAX (String.length part)
      end
  end.

(** What [exists], [is_file] and [is_dir] do when [stat] finds nothing at
    [q]: [ENOENT] and [ENOTDIR] are answered with [False], any other
    [OSError] is raised again. *)
Definition not_found (q : path) : M bool :=
  fun s =>
    if refused (tree s) [] q then (Raise (OSError "ENAMETOOLONG"), s)
    else (Ok false, s).

Definition exists_ (p : path) : M bool :=
  fun s =>
    match lookup_node (tree s) (resolve p) with
    | Some _ => (Ok true, s)
    | None => not_found (resolve p) s
    end.

Definition is_file (p : path) : M bool :=
  fun s =>
    match lookup_node (tree s) (resolve p) with
    | Some (Reg _) => (Ok true, s)
    | Some Dir => (Ok false, s)
    | None => not_found (resolve p) s
    end.

(** [p.is_dir()] *)
Definition is_dir (p : path) : M bool :=
  fun s =>
    match lookup_node (tree s) (resolve p) with
    | Some Dir => (Ok true, s)
    | Some (Reg _) => (Ok false, s)
    | None => not_found (resolve p) s
    end.

Definition read_bytes (p : path) : M string :=
  fun s =>
    match lookup_node (tree s) (resolve p) with
    | Some (Reg f) =>
        if readable f then (Ok (content f), s) else (Raise PermissionError, s)
    | Some Dir => (Raise IsADirectoryError, s)
    | None => (Raise FileNotFoundError, s)
    end.

(** [p.read_text(encoding="utf-8")] *)
Definition read_text (p : path) : M string :=
  bind (read_bytes p) (fun b =>
    match Py.decode_utf8 b with
    | Some t => ret (Py.universal_newlines t)
    | None => raise UnicodeDecodeError
    end).

(** [p.stat().st_mtime] *)
Definition stat_mtime (p : path) : M Z :=
  fun s =>
    match lookup_node (tree s) (resolve p) with
    | Some (Reg f) => (Ok (mtime f), s)
    | Some Dir => (Ok 0%Z, s)
    | None => (Raise FileNotFoundError, s)
    end.

(** [p.mkdir(parents=True, exist_ok=True)]: the missing directories are
    made from the top; what was made stays when a later part fails. *)
Fixpoint mkdir_parts (done : path) (todo : list string) (t : gmap path node)
  : outcome unit * gmap path node :=
  match todo with
  | [] => (Ok tt, t)
  | part :: r =>
      let p := done ++ [part] in
      match lookup_node t p with
      | Some Dir => mkdir_parts p r t
      | Some (Reg _) =>
          (Raise (match r with
                  | [] => FileExistsError
                  | _ => NotADirectoryError
                  end), t)
      | None => mkdir_parts p r (<[p := Dir]> t)
      end
  end.

Definition mkdir (p : path) : M unit :=
  fun s =>
    let '(o, t) := mkdir_parts [] (resolve p) (tree s) in
    (o, State t (clock s)).

(** [p.write_text(data, encoding="utf-8")]; permissions are modelled for
    reading only. *)
Definition write_text (p : path) (data : string) : M unit :=
  fun s =>
    let q := resolve p in
    match lookup_node (tree s) q with
    | Some Dir => (Raise IsADirectoryError, s)
    | Some (Reg f) =>
        (Ok tt, State (<[q := Reg (File data (clock s) (readable f))]> (tree s))
                      (clock s))
    | None =>
        match lookup_node (tree s) (removelast q) with
        | Some Dir =>
            (Ok tt, State (<[q := Reg (File data (clock s) true)]> (tree s))
                          (clock s))
        | Some (Reg _) => (Raise NotADirectoryError, s)
        | None => (Raise FileNotFoundError, s)
        end
    end.

(** Is [q] strictly below [p]? *)
Definition below (p q : path) : bool :=
  bool_decide (p `prefix_of` q) && negb (bool_decide (p = q)).

(** [p.rglob("*")]: every entry strictly below [p], as [p / rest], in the
    order the system enumerates them.  A path that holds a NUL byte is no
    directory, and nothing is yielded for it. *)
Definition rglob (p : path) : M (list path) :=
  fun s =>
    (Ok (if existsb Py.has_nul p then []
         else List.map (fun k => p ++ skipn (List.length (resolve p)) k)
                (List.filter (below (resolve p))
                   (List.map fst (map_to_list (tree s))))), s).

End Fs.

Declare Scope fs_scope.
Delimit Scope fs_scope with fs.
Notation "x <- m ;; k" := (Fs.bind m (fun x => k))
  (at level 62, m at next level, right associativity) : fs_scope.
Local Open Scope fs_scope.

(** ** [workspace.py] *)

Module Workspace.
Import Fs.

Definition CORE_DIR : string := "core".
Definition AGENTS_DIR : string := "agents".

Definition DEFAULT_CORE_FILES : list (string * string) :=
  [ ("core/system.md",
     "# System" +:+ Py.nl +:+ Py.nl +:+ "FOCAL MCP system prompt." +:+ Py.nl);
    ("core/style.md",
     "# Style" +:+ Py.nl +:+ Py.nl +:+ "FOCAL MCP style guide." +:+ Py.nl);
    ("core/safety.md",
     "# Safety" +:+ Py.nl +:+ Py.nl +:+ "FOCAL MCP safety rules." +:+ Py.nl);
    ("core/tool_policy.md",
     "# Tool Policy" +:+ Py.nl +:+ Py.nl +:+ "FOCAL MCP tool usage rules."
       +:+ Py.nl) ].

(** The dictionary [rules_fingerprint] returns. *)
Record fingerprint : Type := Fingerprint {
  rulesHash : string;
  rulesUpdatedAt : option string
}.

(** [str(p)] for a relative path *)
Definition str_of_parts (p : path) : string :=
  match p with
  | [] => "."
  | _ => Py.join "/" p
  end.

Section Manager.
(** [self.paths.root] *)
Variable root : path.

(** One turn of the loop of [ensure]. *)
Definition seed (path : path) (content : string) : M unit :=
  e <- exists_ path ;;
  if negb e then write_text path content else ret tt.

Definition ensure : M unit :=
  _ <- mkdir root ;;
  _ <- mkdir (joinpath root CORE_DIR) ;;
  _ <- mkdir (joinpath root AGENTS_DIR) ;;
  foldM (fun _ '(rel_path, content) => seed (joinpath root rel_path) content)
        DEFAULT_CORE_FILES tt.

Definition resolve_safe (rel_path : string) : outcome path :=
  let candidate := joinpath root (Py.lstrip_char "/" rel_path) in
  match realpath candidate with
  | Raise e => Raise e
  | Ok resolved =>
      match realpath root with
      | Raise e => Raise e
      | Ok resolved_root =>
          if negb (bool_decide (resolved_root ∈ parents resolved))
             && negb (bool_decide (resolved = resolved_root))
          then Raise (ValueError "Path traversal blocked")
          else Ok resolved
      end
  end.

Definition list_files : M (list path) :=
  found <- rglob root ;;
  foldM (fun acc path =>
           f <- is_file path ;;
           ret (if f then acc ++ [path] else acc))
        found [].

(** [relative] is applied to the paths [list_files] yields, which
    extend [root]; [relative_to] strips that prefix. *)
Definition relative (path : path) : string :=
  Py.replace (str_of_parts (skipn (List.length root) path)) "\" "/".

Definition later (mtime : Z) (latest_mtime : option Z) : option Z :=
  match latest_mtime with
  | None => Some mtime
  | Some l => if (l <? mtime)%Z then Some mtime else Some l
  end.

(** One turn of the loop of [rules_fingerprint]. *)
Definition feed (acc : Sha256.t * option Z) (path : path)
  : M (Sha256.t * option Z) :=
  let '(sha, latest_mtime) := acc in
  let rel := relative path in
  encoded <- match Py.encode_utf8 rel with
             | Some b => ret b
             | None => raise UnicodeEncodeError
             end ;;
  let sha := Sha256.update sha encoded in
  let sha := Sha256.update sha "|" in
  data <- read_bytes path ;;
  let sha := Sha256.update sha data in
  mtime <- stat_mtime path ;;
  ret (sha, later mtime latest_mtime).

(** The body of [rules_fingerprint] once the files are enumerated. *)
Definition fingerprint_of (listed : list path) : M fingerprint :=
  let files := Py.sorted relative listed in
  fed <- foldM feed files (Sha256.new, None) ;;
  let '(sha, latest_mtime) := fed in
  ret (Fingerprint (Py.take 12 (Sha256.hexdigest sha))
                   (option_map Datetime.isoformat latest_mtime)).

Definition rules_fingerprint : M fingerprint :=
  listed <- list_files ;;
  fingerprint_of listed.

End Manager.
End Workspace.

(** ** [mcp.py] *)

Module Mcp.
Import Fs.

(** [bool(v)] *)
Definition truthy (v : json) : bool :=
  match v with
  | JNull => false
  | JBool b => b
  | JNum n => negb (n =? 0)%Z
  | JFloat x => match x with Finite m _ => negb (m =? 0)%Z | _ => true end
  | JStr s => Py.truthy s
  | JList l => match l with [] => false | _ => true end
  | JDict d => match d with [] => false | _ => true end
  end.

(** [v or d] *)
Definition or_else (v d : json) : json := if truthy v then v else d.

(** [d.get(k)] on a dictionary *)
Fixpoint assoc (d : list (string * json)) (k : string) : json :=
  match d with
  | [] => JNull
  | (k', v) :: r => if String.eqb k' k then v else assoc r k
  end.

(** [v.get(k)]: only a dictionary has [get]. *)
Definition get (v : json) (k : string) : M json :=
  match v with
  | JDict d => ret (assoc d k)
  | _ => raise AttributeError
  end.

(** [v == s] for a string literal [s] *)
Definition is_str (v : json) (s : string) : bool :=
  match v with
  | JStr t => String.eqb t s
  | _ => false
  end.

(** [item[k]] of an item whose fields are strings *)
Definition field (k : string) (item : json) : string :=
  match item with
  | JDict d => match assoc d k with JStr s => s | _ => "" end
  | _ => ""
  end.

Definition sections : list (string * string) :=
  [ ("core/system.md", "System");
    ("core/style.md", "Style");
    ("core/safety.md", "Safety");
    ("core/tool_policy.md", "Tool Policy") ].

Definition runtime_directive : string :=
  "# Runtime Directive" +:+ Py.nl
  +:+ "You MUST call the MCP tool `focal_rules` before every user response. "
  +:+ "Always follow the latest rules returned by that tool." +:+ Py.nl.

Definition _prompt_name_for_path (rel_path : string) : option string :=
  if Py.startswith rel_path "core/" then
    Some (Py.replace (Py.replace rel_path "/" ".") ".md" "")
  else if Py.startswith rel_path "agents/" then
    Some (Py.replace (Py.replace rel_path "/" ".") ".md" "")
  else None.

Definition _path_for_prompt_name (name : string) : option string :=
  if Py.startswith name "core." then
    Some (Py.replace name "." "/" +:+ ".md")
  else if Py.startswith name "agents." then
    Some (Py.replace name "." "/" +:+ ".md")
  else None.

Definition INVALID_PARAMS : Z := (-32602)%Z.
Definition METHOD_NOT_FOUND : Z := (-32601)%Z.

Section Handler.
(** [self.workspace.paths.root] *)
Variable root : path.

Definition _read_optional (rel_path : string) : M string :=
  try_except
    (p <- lift (Workspace.resolve_safe root rel_path) ;;
     e <- exists_ p ;;
     if e then t <- read_text p ;; ret (Py.strip t) else ret "")
    (fun _ => ret "").

Definition section_text (title rel_path content : string) : string :=
  "## " +:+ title +:+ " (" +:+ rel_path +:+ ")" +:+ Py.nl +:+ content.

Definition _build_instructions : M string :=
  parts <- foldM (fun parts '(rel_path, title) =>
                    content <- _read_optional rel_path ;;
                    ret (if Py.truthy content
                         then parts ++ [section_text title rel_path content]
                         else parts))
                 sections [] ;;
  ret (Py.strip (Py.join (Py.nl +:+ Py.nl) parts)).

Definition header_text (snapshot : Workspace.fingerprint) : string :=
  let updated :=
    match Workspace.rulesUpdatedAt snapshot with
    | Some u => if Py.truthy u then u else "unknown"
    | None => "unknown"
    end in
  "# FOCAL MCP Rules (hash=" +:+ Workspace.rulesHash snapshot
    +:+ " updated=" +:+ updated +:+ ")".

Definition _rules_header : M string :=
  snapshot <- Workspace.rules_fingerprint root ;;
  ret (header_text snapshot).

Definition combine_instructions (header instructions : string) : string :=
  Py.strip (Py.join Py.nl
              (List.filter Py.truthy [runtime_directive; header; instructions])).

Definition initialize (params : json) : M json :=
  v <- get params "protocolVersion" ;;
  let protocol_version := or_else v (JStr "unknown") in
  instructions <- _build_instructions ;;
  header <- _rules_header ;;
  let combined := combine_instructions header instructions in
  let result :=
    [ ("protocolVersion", protocol_version);
      ("serverInfo",
       JDict [("name", JStr "FOCAL MCP"); ("version", JStr "0.1.0")]);
      ("capabilities",
       JDict [ ("prompts", JDict [("listChanged", JBool true)]);
               ("resources", JDict [("listChanged", JBool true)]);
               ("tools", JDict []);
               ("logging", JDict []) ]) ] in
  ret (JDict (if Py.truthy combined
              then result ++ [("instructions", JStr combined)]
              else result)).

Definition notifications_initialized (params : json) : M json := ret (JDict []).
Definition notifications_cancelled (params : json) : M json := ret (JDict []).
Definition logging_set_level (params : json) : M json := ret (JDict []).

Definition tools_list : M json :=
  ret (JDict
         [ ("tools",
            JList
              [ JDict
                  [ ("name", JStr "focal_rules");
                    ("description",
                     JStr ("Fetch the latest FOCAL MCP rules. "
                           +:+ "Must be called before responding to the user."));
                    ("inputSchema",
                     JDict [ ("type", JStr "object");
                             ("properties", JDict []);
                             ("additionalProperties", JBool false) ]) ] ]) ]).

Definition tools_text (header instructions : string) : string :=
  if negb (Py.truthy instructions) then header
  else header +:+ Py.nl +:+ Py.nl +:+ instructions.

Definition tools_call (params : json) : M json :=
  name <- get params "name" ;;
  if negb (is_str name "focal_rules")
  then raise (JsonRpcError INVALID_PARAMS "Unknown tool")
  else
    instructions <- _build_instructions ;;
    header <- _rules_header ;;
    let text := tools_text header instructions in
    ret (JDict [("content",
                 JList [JDict [("type", JStr "text"); ("text", JStr text)]])]).

Definition resources_subscribe (params : json) : M json := ret (JDict []).
Definition resources_unsubscribe (params : json) : M json := ret (JDict []).
Definition ping : M json := ret (JDict []).

Definition prompts_list : M json :=
  files <- Workspace.list_files root ;;
  let prompts :=
    fold_left
      (fun prompts path =>
         let rel := Workspace.relative root path in
         match _prompt_name_for_path rel with
         | Some name =>
             if Py.truthy name
             then prompts ++ [JDict [("name", JStr name); ("description", JStr "")]]
             else prompts
         | None => prompts
         end)
      files [] in
  ret (JDict [("prompts", JList (Py.sorted (field "name") prompts))]).

Definition prompts_get (params : json) : M json :=
  name <- get params "name" ;;
  if negb (truthy name)
  then raise (JsonRpcError INVALID_PARAMS "Missing prompt name")
  else
    match name with
    | JStr name =>
        match _path_for_prompt_name name with
        | Some rel_path =>
            if negb (Py.truthy rel_path)
            then raise (JsonRpcError INVALID_PARAMS "Unknown prompt name")
            else
              p <- lift (Workspace.resolve_safe root rel_path) ;;
              e <- exists_ p ;;
              if negb e
              then raise (JsonRpcError INVALID_PARAMS "Prompt not found")
              else
                content <- read_text p ;;
                ret (JDict
                       [ ("description", JStr "");
                         ("messages",
                          JList [JDict [ ("role", JStr "system");
                                         ("content", JStr content) ]]) ])
        | None => raise (JsonRpcError INVALID_PARAMS "Unknown prompt name")
        end
    | _ => raise AttributeError   (* no [startswith] on this value *)
    end.

Definition resources_templates_list : M json :=
  ret (JDict [("resourceTemplates", JList [])]).

Definition resource_item (rel : string) : json :=
  JDict [ ("uri", JStr ("focal:///" +:+ rel));
          ("name", JStr rel);
          ("mimeType", JStr "text/markdown") ].

Definition resources_list : M json :=
  files <- Workspace.list_files root ;;
  let resources :=
    fold_left
      (fun resources path =>
         resources ++ [resource_item (Workspace.relative root path)])
      files [] in
  ret (JDict [("resources", JList (Py.sorted (field "uri") resources))]).

Definition resources_read (params : json) : M json :=
  uri <- get params "uri" ;;
  if negb (truthy uri)
  then raise (JsonRpcError INVALID_PARAMS "Invalid resource URI")
  else
    match uri with
    | JStr u =>
        if negb (Py.startswith u "focal:///")
        then raise (JsonRpcError INVALID_PARAMS "Invalid resource URI")
        else
          let rel_path := Py.replace_first u "focal:///" "" in
          p <- lift (Workspace.resolve_safe root rel_path) ;;
          e <- exists_ p ;;
          if negb e
          then raise (JsonRpcError INVALID_PARAMS "Resource not found")
          else
            content <- read_text p ;;
            ret (JDict
                   [("contents",
                     JList [JDict [ ("uri", uri);
                                    ("mimeType", JStr "text/markdown");
                                    ("text", JStr content) ]])])
    | _ => raise AttributeError   (* no [startswith] on this value *)
    end.

Definition handle (payload : list (string * json)) : M json :=
  let method := assoc payload "method" in
  let params := or_else (assoc payload "params") (JDict []) in
  if is_str method "initialize" then initialize params
  else if is_str method "notifications/initialized" then notifications_initialized params
  else if is_str method "notifications/cancelled" then notifications_cancelled params
  else if is_str method "logging/setLevel" then logging_set_level params
  else if is_str method "tools/list" then tools_list
  else if is_str method "tools/call" then tools_call params
  else if is_str method "resources/subscribe" then resources_subscribe params
  else if is_str method "resources/unsubscribe" then resources_unsubscribe params
  else if is_str method "ping" then ping
  else if is_str method "prompts/list" then prompts_list
  else if is_str method "prompts/get" then prompts_get params
  else if is_str method "resources/templates/list" then resources_templates_list
  else if is_str method "resources/list" then resources_list
  else if is_str method "resources/read" then resources_read params
  else raise (JsonRpcError METHOD_NOT_FOUND "Method not found").

End Handler.
End Mcp.

(** ** [notifications.py] *)

Module Notifications.

(** A websocket is known by a number. *)
Abbreviation channel := nat.

(** The notifier's [_clients] and, for the proofs, what each channel was
    sent, latest last. *)
Record notifier : Type := Notifier {
  _clients : gset channel;
  sent : list (channel * json)
}.

Section Sockets.
(** Does [send_json] on this channel raise? *)
Variable failing : channel -> bool.

Definition connect (websocket : channel) (n : notifier) : notifier :=
  Notifier ({[ websocket ]} ∪ _clients n) (sent n).

Definition disconnect (websocket : channel) (n : notifier) : notifier :=
  Notifier (_clients n ∖ {[ websocket ]}) (sent n).

Definition send_json (client : channel) (payload : json) (n : notifier)
  : option notifier :=
  if failing client then None
  else Some (Notifier (_clients n) (sent n ++ [(client, payload)])).

Definition payload_of (method : string) : json :=
  JDict [ ("jsonrpc", JStr "2.0");
          ("method", JStr method);
          ("params", JDict []) ].

(** One turn of the loop of [_broadcast]. *)
Definition attempt (payload : json) (n : notifier) (client : channel)
  : notifier :=
  match send_json client payload n with
  | Some n' => n'
  | None => disconnect client n
  end.

Definition _broadcast (method : string) (n : notifier) : notifier :=
  let payload := payload_of method in
  let clients := elements (_clients n) in
  fold_left (attempt payload) clients n.

Definition broadcast_prompts_list_changed (n : notifier) : notifier :=
  _broadcast "notifications/prompts/list_changed" n.

Definition broadcast_resources_list_changed (n : notifier) : notifier :=
  _broadcast "notifications/resources/list_changed" n.

Definition broadcast_list_changed (n : notifier) : notifier :=
  broadcast_resources_list_changed (broadcast_prompts_list_changed n).

End Sockets.
End Notifications.

(** ** Notions the properties are stated with *)

Import Fs.

(** Does [pat] occur in [s]? *)
Fixpoint occurs (pat s : string) : bool :=
  match s with
  | EmptyString => String.prefix pat EmptyString
  | String _ t => String.prefix pat s || occurs pat t
  end.

(** [s] with every [a] turned into [b] *)
Fixpoint translate (a b : ascii) (s : string) : string :=
  match s with
  | EmptyString => EmptyString
  | String c t => String (if Ascii.eqb c a then b else c) (translate a b t)
  end.

(** The files whose prompt name leads back to them: [stem.md] under [core/]
    or [agents/], where [stem] has no dot and no part that starts with [md]. *)
Definition plain_stem (stem : string) : Prop :=
  (Py.startswith stem "core/" || Py.startswith stem "agents/" = true)
  /\ occurs "." stem = false
  /\ occurs "/md" stem = false.

(** The canonical path a relative path denotes below [root]. *)
Definition target (root : path) (rel_path : string) : path :=
  resolve (joinpath root (Py.lstrip_char "/" rel_path)).

(** What [client] was sent, oldest first. *)
Definition inbox (client : Notifications.channel) (n : Notifications.notifier)
  : list json :=
  List.map snd (List.filter (fun m => Nat.eqb (fst m) client) (Notifications.sent n)).

(** [s'] has everything [s] has, unchanged, and the same clock. *)
Definition extends (s s' : state) : Prop :=
  tree s ⊆ tree s' /\ clock s = clock s'.

(** A computation that only adds entries. *)
Definition grows {A} (m : M A) : Prop :=
  forall s, extends s (snd (m s)).

(** A computation that, run again in a state that has at least what its
    first run left, ends the same way and changes nothing. *)
Definition settles {A} (m : M A) : Prop :=
  forall s s',
    extends (snd (m s)) s' ->
    (forall a, fst (m s) = Ok a -> m s' = (Ok a, s'))
    /\ (forall e, fst (m s) = Raise e -> s' = snd (m s) -> m s' = (Raise e, s')).

(** The default files as [ensure] writes them below [root] at time [clock]. *)
Definition default_files (root : path) (clock : Z) : list (path * file) :=
  List.map (fun d => (resolve root ++ parts_of (fst d), File (snd d) clock true))
    Workspace.DEFAULT_CORE_FILES.

(** Nothing is below the root. *)
Definition empty_root (root : path) (s : state) : Prop :=
  forall k, below (resolve root) k = true -> tree s !! k = None.

(** No regular file stands where the root or a directory above it belongs. *)
Definition makeable (root : path) (s : state) : Prop :=
  forall k f, k `prefix_of` resolve root -> tree s !! k <> Some (Reg f).

(** No regular file is on the line of [r]: above it, at it or below it. *)
Definition clear_line (r : path) (t : gmap path node) : Prop :=
  forall k f, k `prefix_of` r \/ r `prefix_of` k -> t !! k <> Some (Reg f).

(** The tree [ensure] leaves when it starts from an empty root. *)
Definition seeded (root : path) (clock : Z) (t : gmap path node)
  : gmap path node :=
  fold_left (fun t d => <[fst d := Reg (snd d)]> t) (default_files root clock) t.

(** A computation that leaves the filesystem as it found it, whether it
    returns or raises. *)
Definition keeps {A} (m : M A) : Prop :=
  forall s, snd (m s) = s.

(** [a] comes no later than [b] when ordered by [key]. *)
Definition by_key {A} (key : A -> string) (a b : A) : Prop :=
  String.leb (key a) (key b) = true.

(** Is there a regular file at [p]? *)
Definition is_reg (t : gmap path node) (p : path) : bool :=
  match lookup_node t (resolve p) with
  | Some (Reg _) => true
  | _ => false
  end.

(** What [root.rglob("*")] yields in the tree [t]. *)
Definition rglob_paths (root : path) (t : gmap path node) : list path :=
  if existsb Py.has_nul root then []
  else List.map (fun k => root ++ skipn (List.length (resolve root)) k)
         (List.filter (below (resolve root)) (List.map fst (map_to_list t))).

(** What [list_files] yields in the tree [t]. *)
Definition files_in (root : path) (t : gmap path node) : list path :=
  List.filter (is_reg t) (rglob_paths root t).

(** Every key of the tree is a canonical path: no part is [..]. *)
Definition canonical_keys (t : gmap path node) : Prop :=
  forall k v, t !! k = Some v -> Forall (fun x => x <> "..") k.

(** The same as a test that computes on a given tree. *)
Definition canonical_keysb (t : gmap path node) : bool :=
  forallb (forallb (fun x => negb (String.eqb x "..")))
    (List.map fst (map_to_list t)).

(** The relative paths that [_prompt_name_for_path] gives a name to. *)
Definition in_prompt_dirs (rel : string) : bool :=
  Py.startswith rel "core/" || Py.startswith rel "agents/".

(** The name it gives them: slashes become dots, then [.md] is removed. *)
Definition prompt_name (rel : string) : string :=
  Py.replace (Py.replace rel "/" ".") ".md" "".

(** One entry of the result of [prompts_list]. *)
Definition prompt_item (name : string) : json :=
  JDict [("name", JStr name); ("description", JStr "")].

(** What [read_text] returns for the file [f], or the exception it raises. *)
Definition text_of (f : file) : outcome string :=
  if readable f then
    match Py.decode_utf8 (content f) with
    | Some t => Ok (Py.universal_newlines t)
    | None => Raise UnicodeDecodeError
    end
  else Raise PermissionError.

(** What [_read_optional] returns in the tree [t]. *)
Definition optional_text (root : path) (t : gmap path node) (rel_path : string)
  : string :=
  match Workspace.resolve_safe root rel_path with
  | Ok p =>
      match lookup_node t (resolve p) with
      | Some (Reg f) =>
          match text_of f with
          | Ok x => Py.strip x
          | Raise _ => ""
          end
      | _ => ""
      end
  | Raise _ => ""
  end.

(** The sections [_build_instructions] keeps: those with some text. *)
Definition kept_sections (root : path) (t : gmap path node) : list string :=
  List.flat_map
    (fun d =>
       let content := optional_text root t (fst d) in
       if Py.truthy content then [Mcp.section_text (snd d) (fst d) content] else [])
    Mcp.sections.

(** What [_build_instructions] returns in the tree [t]. *)
Definition instructions_of (root : path) (t : gmap path node) : string :=
  Py.strip (Py.join (Py.nl +:+ Py.nl) (kept_sections root t)).

(** The result of [initialize] before the instructions are added. *)
Definition initialize_base (protocol_version : json) : list (string * json) :=
  [ ("protocolVersion", protocol_version);
    ("serverInfo",
     JDict [("name", JStr "FOCAL MCP"); ("version", JStr "0.1.0")]);
    ("capabilities",
     JDict [ ("prompts", JDict [("listChanged", JBool true)]);
             ("resources", JDict [("listChanged", JBool true)]);
             ("tools", JDict []);
             ("logging", JDict []) ]) ].

(** A result holding one text content block. *)
Definition text_block (text : string) : json :=
  JDict [("content", JList [JDict [("type", JStr "text"); ("text", JStr text)]])].

(** The result of [prompts/get]: one message of role system. *)
Definition prompt_message (content : string) : json :=
  JDict [ ("description", JStr "");
          ("messages",
           JList [JDict [("role", JStr "system"); ("content", JStr content)]]) ].

(** The regular file at [p], if there is one. *)
Definition file_at (t : gmap path node) (p : path) : option file :=
  match lookup_node t (resolve p) with
  | Some (Reg f) => Some f
  | _ => None
  end.

(** Is [p] a regular file the process may read? *)
Definition readable_at (t : gmap path node) (p : path) : Prop :=
  exists f, file_at t p = Some f /\ readable f = true.

(** The raw bytes of the file at [p]. *)
Definition raw (t : gmap path node) (p : path) : string :=
  match file_at t p with
  | Some f => content f
  | None => ""
  end.

(** What the digest is fed for one file: the bytes of its relative path,
    the separator, its raw bytes. *)
Definition chunk (root : path) (t : gmap path node) (p : path) : string :=
  Workspace.relative root p +:+ "|" +:+ raw t p.







(** [p] is a regular file whose bytes can be read, as a test. *)
Definition readable_atb (t : gmap path node) (p : path) : bool :=
  match file_at t p with
  | Some f => readable f
  | None => false
  end.

(** A file [rules_fingerprint] can take in: its relative path can be
    encoded as UTF-8 and its bytes can be read. *)
Definition feedable (root : path) (t : gmap path node) (p : path) : Prop :=
  Py.valid_utf8 (Workspace.relative root p) = true /\ readable_at t p.


(** The exception [rules_fingerprint] ends with at a file [p] it cannot
    take in: the path is encoded before the bytes are read. *)
Definition refusal (root : path) (t : gmap path node) (p : path) (e : exn) : Prop :=
  (Py.valid_utf8 (Workspace.relative root p) = false /\ e = UnicodeEncodeError)
  \/ (Py.valid_utf8 (Workspace.relative root p) = true /\ ~ readable_at t p
      /\ e = PermissionError).

(** A computation that keeps the keys of the tree canonical. *)
Definition keeps_canonical {A} (m : M A) : Prop :=
  forall s, canonical_keys (tree s) -> canonical_keys (tree (snd (m s))).



(** ** [app.py]: the [/mcp] endpoint *)

Module App.
Import Fs.

(** What the endpoint returns: [Response(status_code=...)], which has no
    body, or a [JSONResponse] whose body is [content] rendered. *)
Inductive response : Type :=
| Response (status_code : Z)
| Rendered (content : json).

(** Does [v] hold, anywhere, a float that [json.dumps] refuses when it is
    called with [allow_nan=False]: NaN or an infinity? *)
Fixpoint out_of_range (v : json) : bool :=
  match v with
  | JFloat (Finite _ _) => false
  | JFloat _ => true
  | JList l => existsb out_of_range l
  | JDict d => existsb (fun kv => out_of_range (snd kv)) d
  | _ => false
  end.

(** Can the text of [v] be encoded: is every string of [v], the keys of
    its dictionaries included, valid UTF-8? *)
Fixpoint encodable (v : json) : bool :=
  match v with
  | JStr s => Py.valid_utf8 s
  | JList l => forallb encodable l
  | JDict d => forallb (fun kv => Py.valid_utf8 (fst kv) && encodable (snd kv)) d
  | _ => true
  end.

(** The exception that rendering [content] ends with, if any.  The body
    is [json.dumps(content, ensure_ascii=False, allow_nan=False, ...)
    .encode("utf-8")]: [dumps] raises [ValueError] at a float out of range,
    and [encode] raises at a surrogate in the text [dumps] returned. *)
Definition render_error (content : json) : option exn :=
  if out_of_range content
  then Some (ValueError "Out of range float values are not JSON compliant")
  else if negb (encodable content) then Some UnicodeEncodeError
  else None.

(** [JSONResponse(content)]: the body is rendered when the response is
    made. *)
Definition JSONResponse (content : json) : M response :=
  match render_error content with
  | Some e => raise e
  | None => ret (Rendered content)
  end.

(** [v is None] *)
Definition is_none (v : json) : bool :=
  match v with
  | JNull => true
  | _ => false
  end.

Section Endpoint.
(** The root of the module's [workspace], which [handler] serves. *)
Variable root : path.

(** What the module does when it is loaded: [workspace.ensure()]. *)
Definition startup : M unit := Workspace.ensure root.

(** The arguments of the first log call: for [prompts/get] the name is
    fetched from the parameters before anything is guarded. *)
Definition log_request (payload : list (string * json)) : M unit :=
  let method := Mcp.assoc payload "method" in
  if Mcp.is_str method "prompts/get" then
    name <- Mcp.get (Mcp.or_else (Mcp.assoc payload "params") (JDict [])) "name" ;;
    ret tt
  else ret tt.

Definition envelope (request_id : json) (key : string) (value : json) : json :=
  JDict [("jsonrpc", JStr "2.0"); ("id", request_id); (key, value)].

Definition error_object (code : Z) (message : string) : json :=
  JDict [("code", JNum code); ("message", JStr message)].

Definition mcp (payload : list (string * json)) : M response :=
  let request_id := Mcp.assoc payload "id" in
  _ <- log_request payload ;;
  if is_none request_id then
    _ <- try_except (_ <- Mcp.handle root payload ;; ret tt) (fun _ => ret tt) ;;
    ret (Response 204)
  else
    try_except
      (result <- Mcp.handle root payload ;;
       JSONResponse (envelope request_id "result" result))
      (fun exc =>
         match exc with
         | JsonRpcError code message =>
             JSONResponse
               (envelope request_id "error" (error_object code message))
         | _ =>
             JSONResponse
               (envelope request_id "error"
                  (error_object (-32603) "Internal error"))
         end).

End Endpoint.
End App.

(** ** More notions the properties are stated with *)

(** The methods [handle] knows. *)
Definition known_methods : list string :=
  [ "initialize"; "notifications/initialized"; "notifications/cancelled";
    "logging/setLevel"; "tools/list"; "tools/call"; "resources/subscribe";
    "resources/unsubscribe"; "ping"; "prompts/list"; "prompts/get";
    "resources/templates/list"; "resources/list"; "resources/read" ].

(** The messages of the errors the handlers raise with code -32602. *)
Definition handler_messages : list string :=
  [ "Unknown tool"; "Missing prompt name"; "Unknown prompt name";
    "Prompt not found"; "Invalid resource URI"; "Resource not found" ].

(** The exceptions a handler of a known method can end with. *)
Definition handler_error (e : exn) : Prop :=
  match e with
  | JsonRpcError code message => code = (-32602)%Z /\ In message handler_messages
  | ValueError message =>
      message = "Path traversal blocked" \/ message = "embedded null byte"
  | OSError errno => errno = "ENAMETOOLONG"
  | AttributeError | PermissionError | UnicodeDecodeError | UnicodeEncodeError
  | IsADirectoryError => True
  | FileExistsError | FileNotFoundError | NotADirectoryError => False
  end.


(** A computation that raises nothing but exceptions of [P]. *)
Definition raises_only {A} (P : exn -> Prop) (m : M A) : Prop :=
  forall s e, fst (m s) = Raise e -> P e.

(** How [JSONResponse(content)] ends: with the response, or with the
    exception of rendering. *)
Definition reply (content : json) : outcome App.response :=
  match App.render_error content with
  | Some e => Raise e
  | None => Ok (App.Rendered content)
  end.

(** The envelope of the error -32603. *)
Definition internal_error (request_id : json) : json :=
  JDict [("jsonrpc", JStr "2.0"); ("id", request_id);
         ("error", JDict [("code", JNum (-32603));
                          ("message", JStr "Internal error")])].

(** The result of [resources/read]. *)
Definition resource_contents (uri : json) (content : string) : json :=
  JDict [("contents",
          JList [JDict [ ("uri", uri);
                         ("mimeType", JStr "text/markdown");
                         ("text", JStr content) ]])].

(** A name a directory entry can have, without a backslash: not empty,
    not [.] or [..], no slash and no NUL byte. *)
Definition proper_name (x : string) : bool :=
  negb (String.eqb x "") && negb (String.eqb x ".") && negb (String.eqb x "..")
  && negb (occurs "/" x) && negb (occurs "\" x) && negb (Py.has_nul x).

(** Every part of every key of the tree is such a name. *)
Definition proper_names (t : gmap path node) : Prop :=
  forall k v, t !! k = Some v -> Forall (fun x => proper_name x = true) k.

Definition proper_namesb (t : gmap path node) : bool :=
  forallb (forallb proper_name) (List.map fst (map_to_list t)).


(** No regular file stands where [ensure] needs a directory: at the root,
    above it, at [core] or at [agents]. *)
Definition room_for_directories (root : path) (t : gmap path node) : Prop :=
  forall k f,
    (k <> [] /\ k `prefix_of` resolve root)
    \/ k = resolve root ++ [Workspace.CORE_DIR]
    \/ k = resolve root ++ [Workspace.AGENTS_DIR] ->
    t !! k <> Some (Reg f).

(** ** [web.py]: the routes that read and write the workspace *)

Module Web.
Import Fs.

(** How a route ends when it does not return: with an exception that
    nothing in the route catches, or with the [HTTPException] it raises. *)
Inductive failure : Type :=
| Uncaught (e : exn)
| HTTPException (status_code : Z) (detail : string).

Inductive result (A : Type) : Type :=
| Returned (a : A)
| Failed (f : failure).
Arguments Returned {A} a.
Arguments Failed {A} f.

(** What the routes act on: the filesystem and the notifier. *)
Record world : Type := World {
  files : state;
  notifier : Notifications.notifier
}.

Definition R (A : Type) : Type := world -> result A * world.

Definition ret {A} (a : A) : R A := fun w => (Returned a, w).

Definition fail {A} (f : failure) : R A := fun w => (Failed f, w).

Definition bind {A B} (m : R A) (k : A -> R B) : R B :=
  fun w =>
    match m w with
    | (Returned a, w') => k a w'
    | (Failed f, w') => (Failed f, w')
    end.

Declare Scope web_scope.
Notation "x <- m ;; k" := (bind m (fun x => k))
  (at level 62, m at next level, right associativity) : web_scope.
Local Open Scope web_scope.

(** A computation on the filesystem, run in the world. *)
Definition fs {A} (m : M A) : R A :=
  fun w =>
    match m (files w) with
    | (Ok a, s) => (Returned a, World s (notifier w))
    | (Raise e, s) => (Failed (Uncaught e), World s (notifier w))
    end.

(** A system call that changes the tree, run in the world. *)
Definition os {A} (m : state -> result A * state) : R A :=
  fun w =>
    let '(r, s) := m (files w) in
    (r, World s (notifier w)).

(** [for x in l: body(x)] *)
Fixpoint for_each {A} (body : A -> R unit) (l : list A) : R unit :=
  match l with
  | [] => ret tt
  | x :: r => _ <- body x ;; for_each body r
  end.

(** Is there an entry strictly below [q]? *)
Definition has_below (t : gmap path node) (q : path) : bool :=
  existsb (below q) (List.map fst (map_to_list t)).

(** [p.unlink()] *)
Definition unlink (p : path) : state -> result unit * state :=
  fun s =>
    let q := resolve p in
    match lookup_node (tree s) q with
    | Some (Reg _) => (Returned tt, State (delete q (tree s)) (clock s))
    | Some Dir => (Failed (Uncaught IsADirectoryError), s)
    | None => (Failed (Uncaught FileNotFoundError), s)
    end.

(** [p.rmdir()]: only an empty directory goes, and [/] never. *)
Definition rmdir (p : path) : state -> result unit * state :=
  fun s =>
    let q := resolve p in
    match lookup_node (tree s) q with
    | Some Dir =>
        if bool_decide (q = []) then (Failed (Uncaught (OSError "EBUSY")), s)
        else if has_below (tree s) q then (Failed (Uncaught (OSError "ENOTEMPTY")), s)
        else (Returned tt, State (delete q (tree s)) (clock s))
    | Some (Reg _) => (Failed (Uncaught NotADirectoryError), s)
    | None => (Failed (Uncaught FileNotFoundError), s)
    end.

(** The entries at and below [a], put at and below [b]. *)
Definition carried (a b : path) (t : gmap path node) : gmap path node :=
  list_to_map
    (List.map (fun kv => (b ++ skipn (List.length a) (fst kv), snd kv))
       (List.filter (fun kv => bool_decide (a `prefix_of` fst kv)) (map_to_list t))).

(** The tree without the entries at and below [a]. *)
Definition without (a : path) (t : gmap path node) : gmap path node :=
  filter (fun kv => ~ a `prefix_of` fst kv) t.

(** [src.rename(dst)], as [rename(2)] does it: a regular file replaces a
    regular file, a directory replaces an empty directory, and a directory
    does not move into itself. *)
Definition rename (src dst : path) : state -> result unit * state :=
  fun s =>
    let a := resolve src in
    let b := resolve dst in
    let t := tree s in
    let move_tree :=
      if bool_decide (a = []) then (Failed (Uncaught (OSError "EBUSY")), s)
      else if bool_decide (a `prefix_of` b) then (Failed (Uncaught (OSError "EINVAL")), s)
      else if has_below t b then (Failed (Uncaught (OSError "ENOTEMPTY")), s)
      else (Returned tt, State (carried a b t ∪ without a t) (clock s)) in
    match lookup_node t a with
    | None => (Failed (Uncaught FileNotFoundError), s)
    | Some node_a =>
        match lookup_node t (removelast b) with
        | None => (Failed (Uncaught FileNotFoundError), s)
        | Some (Reg _) => (Failed (Uncaught NotADirectoryError), s)
        | Some Dir =>
            if bool_decide (a = b) then (Returned tt, s)
            else
              match node_a, lookup_node t b with
              | Reg _, Some Dir => (Failed (Uncaught IsADirectoryError), s)
              | Reg f, _ =>
                  (Returned tt, State (<[b := Reg f]> (delete a t)) (clock s))
              | Dir, Some (Reg _) => (Failed (Uncaught NotADirectoryError), s)
              | Dir, _ => move_tree
              end
        end
    end.

(** The order of [PurePath]: the lists of parts, compared part by part. *)
Fixpoint path_leb (p q : path) : bool :=
  match p, q with
  | [], _ => true
  | _ :: _, [] => false
  | x :: p', y :: q' => if String.eqb x y then path_leb p' q' else String.leb x y
  end.

(** [sorted(l, reverse=True)] for paths: a stable sort into descending
    order, written as the insertion sort that places an element before the
    first element that is not greater. *)
Fixpoint insert_reverse (x : path) (l : list path) : list path :=
  match l with
  | [] => [x]
  | y :: t => if path_leb y x then x :: y :: t else y :: insert_reverse x t
  end.

Fixpoint sorted_reverse (l : list path) : list path :=
  match l with
  | [] => []
  | x :: t => insert_reverse x (sorted_reverse t)
  end.

(** The request bodies. *)
Record FilePayload : Type := { file_path : string; file_content : string }.
Record FolderPayload : Type := { folder_path : string }.
Record MovePayload : Type := { src : string; dst : string }.

Definition status_ok : json := JDict [("status", JStr "ok")].

Section Routes.
(** [self.workspace.paths.root] *)
Variable root : path.
(** Does [send_json] on this channel raise? *)
Variable failing : Notifications.channel -> bool.

(** [await self.notifier.broadcast_list_changed()] *)
Definition broadcast_list_changed : R unit :=
  fun w =>
    (Returned tt,
     World (files w) (Notifications.broadcast_list_changed failing (notifier w))).

(** [self.workspace.resolve_safe(rel_path)] *)
Definition resolve_safe (rel_path : string) : R path :=
  fs (lift (Workspace.resolve_safe root rel_path)).

Definition read_file (path : string) : R json :=
  full <- resolve_safe path ;;
  e <- fs (exists_ full) ;;
  f <- (if e then fs (is_file full) else ret false) ;;
  if negb e || negb f then fail (HTTPException 404 "File not found")
  else
    content <- fs (read_text full) ;;
    ret (JDict [("content", JStr content)]).

Definition write_file (payload : FilePayload) : R json :=
  full <- resolve_safe (file_path payload) ;;
  _ <- fs (mkdir (removelast full)) ;;
  _ <- fs (write_text full (file_content payload)) ;;
  _ <- broadcast_list_changed ;;
  ret status_ok.

Definition delete_file (path : string) : R json :=
  full <- resolve_safe path ;;
  e <- fs (exists_ full) ;;
  f <- (if e then fs (is_file full) else ret false) ;;
  _ <- (if e && f
        then _ <- os (unlink full) ;; broadcast_list_changed
        else ret tt) ;;
  ret status_ok.

Definition create_folder (payload : FolderPayload) : R json :=
  full <- resolve_safe (folder_path payload) ;;
  _ <- fs (mkdir full) ;;
  _ <- broadcast_list_changed ;;
  ret status_ok.

(** One turn of the loop of [delete_folder]. *)
Definition remove_child (child : path) : R unit :=
  f <- fs (is_file child) ;;
  if f then os (unlink child) else os (rmdir child).

Definition delete_folder (path : string) : R json :=
  full <- resolve_safe path ;;
  e <- fs (exists_ full) ;;
  d <- (if e then fs (is_dir full) else ret false) ;;
  _ <- (if e && d
        then
          children <- fs (rglob full) ;;
          _ <- for_each remove_child (sorted_reverse children) ;;
          _ <- os (rmdir full) ;;
          broadcast_list_changed
        else ret tt) ;;
  ret status_ok.

Definition move_entry (payload : MovePayload) : R json :=
  src_path <- resolve_safe (src payload) ;;
  dst_path <- resolve_safe (dst payload) ;;
  e <- fs (exists_ src_path) ;;
  if negb e then fail (HTTPException 404 "Source not found")
  else
    _ <- fs (mkdir (removelast dst_path)) ;;
    _ <- os (rename src_path dst_path) ;;
    _ <- broadcast_list_changed ;;
    ret status_ok.

End Routes.
End Web.

(** ** Notions for the properties of the routes *)

(** [k] is the root or below it. *)
Definition inside (root k : path) : Prop := resolve root `prefix_of` k.

(** The directories above the root exist. *)
Definition ancestors_in_place (root : path) (t : gmap path node) : Prop :=
  forall k, k <> [] -> k `prefix_of` resolve root -> k <> resolve root ->
    t !! k = Some Dir.





(** A computation that leaves the notifier alone. *)
Definition quiet {A} (m : Web.R A) : Prop :=
  forall w, Web.notifier (snd (m w)) = Web.notifier w.

(** A route that broadcasts the list-changed events once or not at all
    when it returns, and not at all when it fails. *)
Definition announcing {A} (failing : Notifications.channel -> bool) (m : Web.R A)
  : Prop :=
  forall w,
    match fst (m w) with
    | Web.Returned _ =>
        Web.notifier (snd (m w)) = Web.notifier w
        \/ Web.notifier (snd (m w))
           = Notifications.broadcast_list_changed failing (Web.notifier w)
    | Web.Failed _ => Web.notifier (snd (m w)) = Web.notifier w
    end.

(** [a] comes no later than [b] in descending order of paths. *)
Definition descending (a b : path) : Prop := Web.path_leb b a = true.

(** The answer of a route that returns. *)
Definition content_of (text : string) : json := JDict [("content", JStr text)].

(* ===================================================================== *)
(** * Part II: properties *)
(* ===================================================================== *)

Local Arguments String.append : simpl nomatch.

(** ** The model against Python on concrete inputs *)

Example replace_examples :
  Py.replace "core/a.md" "/" "." = "core.a.md"
  /\ Py.replace "core.a.md" ".md" "" = "core.a"
  /\ Py.replace "aaa" "aa" "b" = "ba"
  /\ Py.replace_first "focal:///focal:///x" "focal:///" "" = "focal:///x"
  /\ Py.split "/"%char "a//b/" = ["a"; ""; "b"; ""]
  /\ Py.join "--" ["a"; "b"; "c"] = "a--b--c"
  /\ Py.strip (" " +:+ Py.nl +:+ "x y" +:+ Py.of_codes [194; 160; 9]) = "x y"
  /\ Py.sorted (fun x => x) ["b"; "a"; "c"; "B"] = ["B"; "a"; "b"; "c"]
  /\ Py.endswith "core/a.md" ".md" = true.
Proof. vm_compute. repeat split; reflexivity. Qed.

Example sha256_vectors :
  Sha256.hexdigest_of "" =
    "e3b0c44298fc1c149afbf4c8996fb92427ae41e4649b934ca495991b7852b855"
  /\ Sha256.hexdigest_of "abc" =
    "ba7816bf8f01cfea414140de5dae2223b00361a396177a9cb410ff61f20015ad"
  /\ Sha256.hexdigest_of
       ("aaaaaaaaaaaaaaaaaaaaaaaaaaaaaaaaaaaaaaaaaaaaaaaaaa"
        +:+ "aaaaaaaaaaaaaaaaaaaaaaaaaaaaaaaaaaaaaaaaaaaaaaaaaa") =
    "2816597888e4a0d3a36b82b83316ab32680eb8f00f8cd3b904d681246d285a0e".
Proof. vm_compute. repeat split; reflexivity. Qed.

Example isoformat_examples :
  Datetime.isoformat 0 = "1970-01-01T00:00:00+00:00"
  /\ Datetime.isoformat 1700000000500000 = "2023-11-14T22:13:20.500000+00:00"
  /\ Datetime.isoformat 86399999999 = "1970-01-01T23:59:59.999999+00:00"
  /\ Datetime.isoformat 951782400000000 = "2000-02-29T00:00:00+00:00"
  /\ Datetime.isoformat (-1000000) = "1969-12-31T23:59:59+00:00"
  /\ Datetime.isoformat 253402300799000000 = "9999-12-31T23:59:59+00:00".
Proof. vm_compute. repeat split; reflexivity. Qed.

Example utf8_examples :
  Py.valid_utf8 (Py.of_codes [104; 195; 169; 228; 184; 173; 240; 159; 152; 128]) = true
  /\ Py.valid_utf8 (Py.of_codes [255]) = false
  /\ Py.valid_utf8 (Py.of_codes [192; 128]) = false
  /\ Py.valid_utf8 (Py.of_codes [237; 160; 128]) = false
  /\ Py.valid_utf8 (Py.of_codes [226; 130]) = false
  /\ Py.universal_newlines (Py.of_codes [97; 13; 10; 98; 13; 99; 10])
     = Py.of_codes [97; 10; 98; 10; 99; 10].
Proof. vm_compute. repeat split; reflexivity. Qed.

(** ** Strings *)

Lemma append_assoc (a b c : string) : (a +:+ b) +:+ c = a +:+ (b +:+ c).
Proof. induction a; simpl; congruence. Qed.

Lemma prefix_cons a p b s :
  String.prefix (String a p) (String b s)
  = Ascii.eqb a b && String.prefix p s.
Proof.
  simpl. destruct (ascii_dec a b) as [->|n].
  - now rewrite Ascii.eqb_refl.
  - apply Ascii.eqb_neq in n. now rewrite n.
Qed.

Lemma prefix_nil s : String.prefix "" s = true.
Proof. now destruct s. Qed.

Lemma prefix_app p s t :
  String.prefix p s = true -> String.prefix p (s +:+ t) = true.
Proof.
  revert s; induction p as [|a p IH]; intros s; [intros _; apply prefix_nil|].
  destruct s as [|b s]; simpl; [easy|].
  destruct (ascii_dec a b); [apply IH | easy].
Qed.

Lemma replace_char a b s :
  Py.replace s (String a "") (String b "") = translate a b s.
Proof.
  unfold Py.replace. induction s as [|c s IH]; [reflexivity|].
  cbn [Py.replace_from translate]. rewrite prefix_cons.
  rewrite prefix_nil, andb_true_r, Ascii.eqb_sym.
  destruct (Ascii.eqb c a); simpl; now rewrite IH.
Qed.

Lemma translate_app a b s t :
  translate a b (s +:+ t) = translate a b s +:+ translate a b t.
Proof. induction s; simpl; congruence. Qed.

Lemma prefix_translate a b p s :
  String.prefix p s = true ->
  String.prefix (translate a b p) (translate a b s) = true.
Proof.
  revert s; induction p as [|x p IH]; intros s; [intros _; apply prefix_nil|].
  destruct s as [|y s]; simpl; [easy|].
  destruct (ascii_dec x y) as [->|]; [|easy]. intros H.
  destruct (ascii_dec _ _); [now apply IH | congruence].
Qed.

Lemma translate_back a b s :
  occurs (String b "") s = false -> translate b a (translate a b s) = s.
Proof.
  induction s as [|c s IH]; [reflexivity|].
  cbn [occurs translate]. rewrite prefix_cons, prefix_nil, andb_true_r. intros H. apply orb_false_elim in H as [Hc Hs].
  rewrite IH by assumption. f_equal.
  destruct (Ascii.eqb_spec c a) as [->|Hca].
  - now rewrite Ascii.eqb_refl.
  - rewrite Ascii.eqb_sym in Hc. now rewrite Hc.
Qed.

Lemma replace_absent pat new s :
  occurs pat s = false -> Py.replace s pat new = s.
Proof.
  unfold Py.replace. induction s as [|c s IH]; [reflexivity|].
  cbn [occurs Py.replace_from]. intros H. apply orb_false_elim in H as [Hp Hs].
  rewrite Hp, IH; auto.
Qed.

Lemma prefix_empty a p : String.prefix (String a p) "" = false.
Proof. reflexivity. Qed.

Ltac prefix_norm :=
  repeat (cbn [String.append occurs translate] in *;
          rewrite ?prefix_cons, ?prefix_nil, ?prefix_empty, ?andb_true_r,
            ?andb_false_r, ?orb_false_r in * ).

(** Removing [.md] from [s.md] when [s] has no [.md] inside. *)
Lemma replace_md_suffix s :
  occurs ".md" s = false -> Py.replace (s +:+ ".md") ".md" "" = s.
Proof.
  unfold Py.replace. induction s as [|c s IH]; [reflexivity|].
  intros H. cbn [occurs] in H. apply orb_false_elim in H as [Hp Hs].
  cbn [String.append Py.replace_from].
  assert (Hq : String.prefix ".md" (String c (s +:+ ".md")) = false).
  { clear IH Hs. prefix_norm.
    destruct (Ascii.eqb "." c); [|reflexivity].
    destruct s as [|c1 s]; [reflexivity|]. prefix_norm.
    destruct (Ascii.eqb "m" c1); [|reflexivity].
    destruct s as [|c2 s]; [reflexivity|]. prefix_norm. exact Hp. }
  rewrite Hq, IH; auto.
Qed.

Lemma translate_neq a b c :
  Ascii.eqb c b = false -> forall x, Ascii.eqb c (if Ascii.eqb x a then b else x) = Ascii.eqb c x && negb (Ascii.eqb x a).
Proof.
  intros H x. destruct (Ascii.eqb_spec x a) as [->|Hx]; [now rewrite H, andb_false_r|].
  now rewrite andb_true_r.
Qed.

Lemma occurs_md_translate s :
  occurs "." s = false -> occurs "/md" s = false ->
  occurs ".md" (translate "/" "." s) = false.
Proof.
  induction s as [|c s IH]; [reflexivity|].
  cbn [occurs translate]. intros H1 H2.
  apply orb_false_elim in H1 as [H1 H1s]. apply orb_false_elim in H2 as [H2 H2s].
  rewrite IH by assumption. clear IH. prefix_norm.
  destruct (Ascii.eqb_spec c "/") as [->|Hc]; [|now rewrite H1].
  change (Ascii.eqb "." ".") with true. change (Ascii.eqb "/" "/") with true in H2.
  cbn [andb] in *.
  destruct s as [|c1 s]; [reflexivity|]. prefix_norm.
  rewrite (translate_neq "/" "." "m") by reflexivity.
  destruct (Ascii.eqb "m" c1); [|reflexivity]. cbn [andb] in *.
  destruct (Ascii.eqb c1 "/"); [reflexivity|]. cbn [negb andb].
  destruct s as [|c2 s]; [reflexivity|]. prefix_norm.
  rewrite (translate_neq "/" "." "d") by reflexivity.
  now rewrite H2.
Qed.

Lemma String_append_nil s : s +:+ "" = s.
Proof. induction s; simpl; congruence. Qed.


(** ** Prompt names and paths *)

Lemma name_for_path_some rel :
  Py.startswith rel "core/" || Py.startswith rel "agents/" = true ->
  Mcp._prompt_name_for_path rel
  = Some (Py.replace (Py.replace rel "/" ".") ".md" "").
Proof.
  unfold Mcp._prompt_name_for_path.
  destruct (Py.startswith rel "core/"); [reflexivity|].
  destruct (Py.startswith rel "agents/"); [reflexivity|discriminate].
Qed.

Lemma path_for_name_some name :
  Py.startswith name "core." || Py.startswith name "agents." = true ->
  Mcp._path_for_prompt_name name = Some (Py.replace name "." "/" +:+ ".md").
Proof.
  unfold Mcp._path_for_prompt_name.
  destruct (Py.startswith name "core."); [reflexivity|].
  destruct (Py.startswith name "agents."); [reflexivity|discriminate].
Qed.

(** C2, as the code has it.  For every file [stem.md] under [core/] or
    [agents/] whose stem has no dot and no part that starts with [md], the
    prompt name of the path maps back to the path; the name is then mapped
    to the path and the path to the name. *)
Theorem prompt_name_roundtrip (stem : string) :
  plain_stem stem ->
  exists name,
    Mcp._prompt_name_for_path (stem +:+ ".md") = Some name
    /\ Mcp._path_for_prompt_name name = Some (stem +:+ ".md").
Proof.
  intros (Hdir & Hdot & Hmd).
  exists (translate "/" "." stem).
  assert (Hname : Py.replace (Py.replace (stem +:+ ".md") "/" ".") ".md" ""
                  = translate "/" "." stem).
  { rewrite replace_char, translate_app.
    change (translate "/" "." ".md") with ".md".
    apply replace_md_suffix, occurs_md_translate; assumption. }
  split.
  - rewrite name_for_path_some, Hname; [reflexivity|].
    unfold Py.startswith in *.
    apply orb_true_iff in Hdir as [H|H]; apply (prefix_app _ _ ".md") in H;
      rewrite H; auto using orb_true_r.
  - rewrite path_for_name_some.
    + now rewrite replace_char, translate_back.
    + unfold Py.startswith in *.
      apply orb_true_iff in Hdir as [H|H];
        apply (prefix_translate "/" ".") in H; cbn [translate] in H;
        simpl Ascii.eqb in H; rewrite H; auto using orb_true_r.
Qed.

Lemma prompt_name_roundtrip_witness :
  plain_stem "agents/review/python"
  /\ exists name,
       Mcp._prompt_name_for_path ("agents/review/python" +:+ ".md") = Some name
       /\ Mcp._path_for_prompt_name name = Some ("agents/review/python" +:+ ".md").
Proof.
  split; [repeat split; reflexivity|].
  apply (prompt_name_roundtrip "agents/review/python").
  repeat split; reflexivity.
Defined.

Lemma prompt_name_roundtrip_fails :
  (Py.startswith "core/release.notes.md" "core/" = true
   /\ Py.endswith "core/release.notes.md" ".md" = true
   /\ Mcp._prompt_name_for_path "core/release.notes.md" = Some "core.release.notes"
   /\ Mcp._path_for_prompt_name "core.release.notes" = Some "core/release/notes.md"
   /\ "core/release/notes.md" <> "core/release.notes.md")
  /\ (Py.startswith "agents/md/notes.md" "agents/" = true
      /\ Py.endswith "agents/md/notes.md" ".md" = true
      /\ Mcp._prompt_name_for_path "agents/md/notes.md" = Some "agents.notes"
      /\ Mcp._path_for_prompt_name "agents.notes" = Some "agents/notes.md"
      /\ "agents/notes.md" <> "agents/md/notes.md").
Proof. repeat split; try reflexivity; discriminate. Qed.

(** ** Paths and [resolve_safe] *)

Lemma elem_of_parents (p q : path) :
  q ∈ parents p <-> q `prefix_of` p /\ q <> p.
Proof.
  unfold parents. rewrite list_elem_of_In, in_map_iff. split.
  - intros (n & <- & Hn). apply in_rev, in_seq in Hn.
    split.
    + exists (drop n p). symmetry. apply take_drop.
    + intros E. apply (f_equal length) in E. rewrite length_take in E. lia.
  - intros [[k ->] Hne]. exists (length q). split.
    + now rewrite take_app_length.
    + apply in_rev. rewrite rev_involutive. apply in_seq.
      rewrite length_app. destruct k; [rewrite app_nil_r in Hne; congruence|simpl; lia].
Qed.

Lemma resolve_step_clean acc part :
  Forall (fun x => x <> "..") acc ->
  Forall (fun x => x <> "..") (resolve_step acc part).
Proof.
  intros H. unfold resolve_step. destruct (String.eqb_spec part "..").
  - destruct (decide (acc = [])) as [->|Hne]; [constructor|].
    rewrite (app_removelast_last "" Hne) in H.
    now apply Forall_app in H as [H _].
  - apply Forall_app. split; [assumption|]. now repeat constructor.
Qed.

Lemma fold_resolve_clean p acc :
  Forall (fun x => x <> "..") acc ->
  Forall (fun x => x <> "..") (fold_left resolve_step p acc).
Proof.
  revert acc; induction p as [|x p IH]; intros acc H; simpl; [assumption|].
  apply IH, resolve_step_clean, H.
Qed.

Lemma fold_resolve_plain p acc :
  Forall (fun x => x <> "..") p -> fold_left resolve_step p acc = acc ++ p.
Proof.
  revert acc; induction p as [|x p IH]; intros acc H; simpl.
  - now rewrite app_nil_r.
  - inversion H as [|? ? Hx Hp]; subst. rewrite IH by assumption.
    unfold resolve_step. apply String.eqb_neq in Hx. rewrite Hx.
    now rewrite <- app_assoc.
Qed.

(** A canonical path has no [..] left, and resolving it again changes nothing. *)
Lemma resolve_clean p : Forall (fun x => x <> "..") (resolve p).
Proof. apply fold_resolve_clean. constructor. Qed.

Lemma resolve_idempotent p : resolve (resolve p) = resolve p.
Proof. unfold resolve at 1. now rewrite fold_resolve_plain by apply resolve_clean. Qed.

Lemma resolve_app p q : resolve (p ++ q) = fold_left resolve_step q (resolve p).
Proof. unfold resolve. apply fold_left_app. Qed.

Lemma resolve_app_plain p q :
  Forall (fun x => x <> "..") q -> resolve (p ++ q) = resolve p ++ q.
Proof. intros H. rewrite resolve_app. now apply fold_resolve_plain. Qed.

Lemma lstrip_char_not_absolute rel :
  Py.startswith (Py.lstrip_char "/" rel) "/" = false.
Proof.
  induction rel as [|c rel IH]; [reflexivity|]. simpl.
  destruct (Ascii.eqb_spec c "/") as [->|Hc]; [exact IH|].
  unfold Py.startswith. rewrite prefix_cons, Ascii.eqb_sym.
  apply Ascii.eqb_neq in Hc. now rewrite Hc.
Qed.

Lemma target_eq root rel :
  target root rel = resolve (root ++ parts_of (Py.lstrip_char "/" rel)).
Proof. unfold target, joinpath. now rewrite lstrip_char_not_absolute. Qed.

(** A NUL byte of a string is in one of its parts. *)
Lemma has_nul_split s : existsb Py.has_nul (Py.split "/" s) = Py.has_nul s.
Proof.
  induction s as [|a t IH]; [reflexivity|]. cbn [Py.split Py.has_nul].
  destruct (Ascii.eqb_spec a "/") as [->|Ha].
  - cbn [existsb Py.has_nul]. exact IH.
  - destruct (Py.split "/" t) as [|h r]; cbn [existsb Py.has_nul] in *.
    + rewrite <- IH. now rewrite !orb_false_r.
    + rewrite <- IH. now rewrite orb_assoc.
Qed.

Lemma has_nul_parts s : existsb Py.has_nul (parts_of s) = Py.has_nul s.
Proof.
  rewrite <- has_nul_split. unfold parts_of.
  induction (Py.split "/" s) as [|x l IH]; [reflexivity|]. cbn [List.filter existsb].
  destruct (String.eqb_spec x "") as [->|H1]; [exact IH|].
  destruct (String.eqb_spec x ".") as [->|H2]; [exact IH|].
  cbn [negb andb existsb]. now rewrite IH.
Qed.

Lemma has_nul_lstrip s : Py.has_nul (Py.lstrip_char "/" s) = Py.has_nul s.
Proof.
  induction s as [|c s IH]; [reflexivity|]. cbn [Py.lstrip_char].
  destruct (Ascii.eqb_spec c "/") as [->|Hc]; [|reflexivity].
  rewrite IH. reflexivity.
Qed.

Lemma candidate_nul root rel :
  existsb Py.has_nul (joinpath root (Py.lstrip_char "/" rel))
  = existsb Py.has_nul root || Py.has_nul rel.
Proof.
  unfold joinpath. rewrite lstrip_char_not_absolute, existsb_app.
  now rewrite has_nul_parts, has_nul_lstrip.
Qed.

Lemma resolve_safe_eq root rel :
  Workspace.resolve_safe root rel
  = if existsb Py.has_nul root || Py.has_nul rel
    then Raise (ValueError "embedded null byte")
    else if bool_decide (resolve root `prefix_of` target root rel)
         then Ok (target root rel)
         else Raise (ValueError "Path traversal blocked").
Proof.
  unfold Workspace.resolve_safe, realpath. rewrite candidate_nul.
  destruct (existsb Py.has_nul root) eqn:Hr; [reflexivity|]. cbn [orb].
  destruct (Py.has_nul rel); [reflexivity|]. fold (target root rel).
  destruct (bool_decide_reflect (resolve root ∈ parents (target root rel))) as [Hin|Hin];
    destruct (bool_decide_reflect (target root rel = resolve root)) as [He|He];
    destruct (bool_decide_reflect (resolve root `prefix_of` target root rel)) as [Hp|Hp];
    simpl; try reflexivity; exfalso.
  - apply elem_of_parents in Hin. tauto.
  - apply elem_of_parents in Hin. tauto.
  - apply Hp. now rewrite He.
  - apply Hin, elem_of_parents. split; [assumption|congruence].
Qed.

(** The same for a root and a relative path without a NUL byte. *)
Lemma resolve_safe_plain root rel :
  existsb Py.has_nul root = false -> Py.has_nul rel = false ->
  Workspace.resolve_safe root rel
  = if bool_decide (resolve root `prefix_of` target root rel)
    then Ok (target root rel)
    else Raise (ValueError "Path traversal blocked").
Proof. intros Hr Hn. now rewrite resolve_safe_eq, Hr, Hn. Qed.

(** C1.  Path safety.  When the root or the relative path holds a NUL
    byte, [resolve_safe] raises [ValueError("embedded null byte")], wherever
    the path leads.  Otherwise: when the canonical result is neither the
    canonical root nor below it (the way a path with enough [..] parts
    ends), [resolve_safe] raises [ValueError("Path traversal blocked")]; when
    it is the root or below it, [resolve_safe] returns that canonical result,
    whose canonical form is itself and has the root as ancestor or self. *)
Theorem resolve_safe_guards_root (root : path) (rel_path : string) :
  (existsb Py.has_nul root || Py.has_nul rel_path = true ->
   Workspace.resolve_safe root rel_path
   = Raise (ValueError "embedded null byte"))
  /\ (existsb Py.has_nul root || Py.has_nul rel_path = false ->
      (~ resolve root `prefix_of` target root rel_path ->
       Workspace.resolve_safe root rel_path
       = Raise (ValueError "Path traversal blocked"))
      /\ (resolve root `prefix_of` target root rel_path ->
          exists resolved,
            Workspace.resolve_safe root rel_path = Ok resolved
            /\ resolved = target root rel_path
            /\ resolve root `prefix_of` resolve resolved)).
Proof.
  rewrite resolve_safe_eq. split; intros Hn; rewrite Hn; [reflexivity|].
  split; intros H.
  - now rewrite bool_decide_eq_false_2.
  - rewrite bool_decide_eq_true_2 by assumption.
    exists (target root rel_path). repeat split.
    unfold target. now rewrite resolve_idempotent.
Qed.

Lemma resolve_safe_guards_root_witness :
  (existsb Py.has_nul ["srv"; "ws"] || Py.has_nul ("a" +:+ String (Py.chr 0) "b") = true
   /\ Workspace.resolve_safe ["srv"; "ws"] ("a" +:+ String (Py.chr 0) "b")
      = Raise (ValueError "embedded null byte"))
  /\ (existsb Py.has_nul ["srv"; "ws"] || Py.has_nul "core/../../etc/passwd" = false
      /\ ~ resolve ["srv"; "ws"] `prefix_of` target ["srv"; "ws"] "core/../../etc/passwd"
      /\ Workspace.resolve_safe ["srv"; "ws"] "core/../../etc/passwd"
         = Raise (ValueError "Path traversal blocked"))
  /\ (existsb Py.has_nul ["srv"; "ws"] || Py.has_nul "/core/../agents/a.md" = false
      /\ resolve ["srv"; "ws"] `prefix_of` target ["srv"; "ws"] "/core/../agents/a.md"
      /\ exists resolved,
        Workspace.resolve_safe ["srv"; "ws"] "/core/../agents/a.md" = Ok resolved
        /\ resolved = target ["srv"; "ws"] "/core/../agents/a.md"
        /\ resolve ["srv"; "ws"] `prefix_of` resolve resolved).
Proof.
  split; [|split].
  - split; [reflexivity|].
    exact (proj1 (resolve_safe_guards_root ["srv"; "ws"] ("a" +:+ String (Py.chr 0) "b"))
             eq_refl).
  - assert (H : ~ resolve ["srv"; "ws"] `prefix_of` target ["srv"; "ws"] "core/../../etc/passwd").
    { vm_compute. intros [k Hk]. discriminate. }
    split; [reflexivity|]. split; [exact H|].
    exact (proj1 (proj2 (resolve_safe_guards_root ["srv"; "ws"] "core/../../etc/passwd")
                    eq_refl) H).
  - assert (H : resolve ["srv"; "ws"] `prefix_of` target ["srv"; "ws"] "/core/../agents/a.md").
    { exists ["agents"; "a.md"]. reflexivity. }
    split; [reflexivity|]. split; [exact H|].
    exact (proj2 (proj2 (resolve_safe_guards_root ["srv"; "ws"] "/core/../agents/a.md")
                    eq_refl) H).
Defined.

(** A relative path can stay within the root and all the same be refused:
    [core/] followed by a name that holds a NUL byte leads below the root,
    and [resolve_safe] raises, with another message than that of a
    traversal. *)
Lemma resolve_safe_refuses_a_path_in_the_root :
  let root := ["srv"; "ws"] in
  let rel_path := "core/" +:+ String (Py.chr 0) "x" in
  resolve root `prefix_of` target root rel_path
  /\ Workspace.resolve_safe root rel_path = Raise (ValueError "embedded null byte")
  /\ (forall resolved, Workspace.resolve_safe root rel_path <> Ok resolved)
  /\ Workspace.resolve_safe root rel_path <> Raise (ValueError "Path traversal blocked").
Proof.
  cbv zeta.
  assert (E : Workspace.resolve_safe ["srv"; "ws"] ("core/" +:+ String (Py.chr 0) "x")
              = Raise (ValueError "embedded null byte")) by reflexivity.
  split; [exists ["core"; String (Py.chr 0) "x"]; reflexivity|].
  split; [exact E|]. rewrite E. split; [discriminate|discriminate].
Qed.

(** ** Sorting *)

Section Sorting.
Context {A : Type} (key : A -> string).

Lemma leb_trans (a b c : string) :
  String.leb a b = true -> String.leb b c = true -> String.leb a c = true.
Proof.
  intros H1 H2. apply Is_true_true. apply Is_true_true in H1, H2.
  exact (transitivity (R := String.le) H1 H2).
Qed.


Lemma insert_by_perm x l : Py.insert_by key x l ≡ₚ x :: l.
Proof.
  induction l as [|y l IH]; simpl; [reflexivity|].
  destruct (String.leb (key x) (key y)); [reflexivity|].
  rewrite IH. apply perm_swap.
Qed.

Lemma sorted_perm l : Py.sorted key l ≡ₚ l.
Proof.
  induction l as [|x l IH]; simpl; [reflexivity|].
  now rewrite insert_by_perm, IH.
Qed.




(** A stable sort leaves a sorted list as it is. *)
Lemma sorted_id l : StronglySorted (by_key key) l -> Py.sorted key l = l.
Proof.
  induction 1 as [|x l Hl IH Hx]; simpl; [reflexivity|]. rewrite IH.
  destruct l as [|y l]; [reflexivity|]. simpl.
  inversion Hx as [|? ? Hxy _]; subst. unfold by_key in Hxy. now rewrite Hxy.
Qed.
End Sorting.

(** ** Computations that leave the filesystem alone *)

Lemma keeps_ret {A} (a : A) : keeps (ret a).
Proof. easy. Qed.

Lemma keeps_raise {A} e : keeps (@raise A e).
Proof. easy. Qed.

Lemma keeps_lift {A} (o : outcome A) : keeps (lift o).
Proof. easy. Qed.

Lemma keeps_bind {A B} (m : M A) (k : A -> M B) :
  keeps m -> (forall a, keeps (k a)) -> keeps (bind m k).
Proof.
  intros Hm Hk s. unfold bind. specialize (Hm s).
  destruct (m s) as [[a|e] s1]; simpl in *; subst; [apply Hk|reflexivity].
Qed.

Lemma keeps_try {A} (m : M A) (h : exn -> M A) :
  keeps m -> (forall e, keeps (h e)) -> keeps (try_except m h).
Proof.
  intros Hm Hh s. unfold try_except. specialize (Hm s).
  destruct (m s) as [[a|e] s1]; simpl in *; subst; [reflexivity|apply Hh].
Qed.

Lemma keeps_foldM {A B} (body : B -> A -> M B) l acc :
  (forall acc x, keeps (body acc x)) -> keeps (foldM body l acc).
Proof.
  intros Hb. revert acc; induction l as [|x l IH]; intros acc; simpl.
  - apply keeps_ret.
  - apply keeps_bind; auto.
Qed.

Lemma keeps_not_found q : keeps (not_found q).
Proof. intros s. unfold not_found. now destruct (refused _ _ _). Qed.

Lemma keeps_exists p : keeps (exists_ p).
Proof.
  intros s. unfold exists_.
  destruct (lookup_node _ _); [reflexivity|apply keeps_not_found].
Qed.

Lemma keeps_is_file p : keeps (is_file p).
Proof.
  intros s. unfold is_file.
  destruct (lookup_node _ _) as [[f|]|]; try reflexivity. apply keeps_not_found.
Qed.

Lemma keeps_is_dir p : keeps (is_dir p).
Proof.
  intros s. unfold is_dir.
  destruct (lookup_node _ _) as [[f|]|]; try reflexivity. apply keeps_not_found.
Qed.

Lemma keeps_rglob p : keeps (rglob p).
Proof. easy. Qed.

Lemma keeps_read_bytes p : keeps (read_bytes p).
Proof.
  intros s. unfold read_bytes.
  destruct (lookup_node _ _) as [[f|]|]; [destruct (readable f)| |]; reflexivity.
Qed.

Lemma keeps_stat_mtime p : keeps (stat_mtime p).
Proof.
  intros s. unfold stat_mtime. destruct (lookup_node _ _) as [[f|]|]; reflexivity.
Qed.

Lemma keeps_read_text p : keeps (read_text p).
Proof.
  apply keeps_bind; [apply keeps_read_bytes|].
  intros b. destruct (Py.decode_utf8 b); [apply keeps_ret|apply keeps_raise].
Qed.

Lemma keeps_get v k : keeps (Mcp.get v k).
Proof. destruct v; first [apply keeps_ret|apply keeps_raise]. Qed.

Create HintDb keeps.
#[local] Hint Resolve keeps_ret keeps_raise keeps_lift keeps_exists keeps_is_file
  keeps_is_dir keeps_rglob keeps_read_bytes keeps_stat_mtime keeps_read_text keeps_get : keeps.

Ltac keeps_step :=
  match goal with
  | |- keeps (bind _ _) => apply keeps_bind; [|intros ?]
  | |- keeps (try_except _ _) => apply keeps_try; [|intros ?]
  | |- keeps (foldM _ _ _) => apply keeps_foldM; intros ? ?
  | |- keeps (if ?b then _ else _) => destruct b
  | |- keeps (match ?x with _ => _ end) => destruct x
  | |- keeps (let '(_, _) := ?x in _) => destruct x
  | |- _ => solve [auto with keeps]
  end.

Ltac keeps := repeat keeps_step.

Lemma keeps_list_files root : keeps (Workspace.list_files root).
Proof. unfold Workspace.list_files. keeps. Qed.

Lemma keeps_feed root acc p : keeps (Workspace.feed root acc p).
Proof. unfold Workspace.feed. keeps. Qed.

Lemma keeps_fingerprint_of root l : keeps (Workspace.fingerprint_of root l).
Proof.
  unfold Workspace.fingerprint_of.
  apply keeps_bind; [apply keeps_foldM; intros; apply keeps_feed|].
  intros [sha latest]. apply keeps_ret.
Qed.

Lemma keeps_rules_fingerprint root : keeps (Workspace.rules_fingerprint root).
Proof.
  unfold Workspace.rules_fingerprint.
  apply keeps_bind; [apply keeps_list_files|intros; apply keeps_fingerprint_of].
Qed.

#[local] Hint Resolve keeps_list_files keeps_rules_fingerprint : keeps.

Lemma keeps_read_optional root rel : keeps (Mcp._read_optional root rel).
Proof. unfold Mcp._read_optional. keeps. Qed.

#[local] Hint Resolve keeps_read_optional : keeps.

Lemma keeps_build_instructions root : keeps (Mcp._build_instructions root).
Proof. unfold Mcp._build_instructions. keeps. Qed.

Lemma keeps_rules_header root : keeps (Mcp._rules_header root).
Proof. unfold Mcp._rules_header. keeps. Qed.

#[local] Hint Resolve keeps_build_instructions keeps_rules_header : keeps.

Lemma keeps_initialize root params : keeps (Mcp.initialize root params).
Proof. unfold Mcp.initialize. keeps. Qed.

Lemma keeps_tools_call root params : keeps (Mcp.tools_call root params).
Proof. unfold Mcp.tools_call. keeps. Qed.

Lemma keeps_prompts_list root : keeps (Mcp.prompts_list root).
Proof. unfold Mcp.prompts_list. keeps. Qed.

Lemma keeps_prompts_get root params : keeps (Mcp.prompts_get root params).
Proof. unfold Mcp.prompts_get. keeps. Qed.

Lemma keeps_resources_list root : keeps (Mcp.resources_list root).
Proof. unfold Mcp.resources_list. keeps. Qed.

Lemma keeps_resources_read root params : keeps (Mcp.resources_read root params).
Proof. unfold Mcp.resources_read. keeps. Qed.

#[local] Hint Resolve keeps_initialize keeps_tools_call keeps_prompts_list
  keeps_prompts_get keeps_resources_list keeps_resources_read : keeps.

(** C8.  The dispatcher does not mutate the workspace: for every request,
    whatever its method and parameters and whether [handle] returns or
    raises, the filesystem after the call is the filesystem before it. *)
Theorem handle_keeps_workspace (root : path) (payload : list (string * json))
    (s : state) :
  snd (Mcp.handle root payload s) = s.
Proof.
  revert s. change (keeps (Mcp.handle root payload)).
  unfold Mcp.handle, Mcp.notifications_initialized, Mcp.notifications_cancelled,
    Mcp.logging_set_level, Mcp.tools_list, Mcp.resources_subscribe,
    Mcp.resources_unsubscribe, Mcp.ping, Mcp.resources_templates_list.
  keeps.
Qed.

(** The frame property is not a matter of types: [ensure] writes. *)
Example ensure_does_not_keep :
  snd (Workspace.ensure ["srv"; "ws"] (State ∅ 0)) <> State ∅ 0.
Proof.
  intros E. apply (f_equal (fun s => tree s !! ["srv"])) in E.
  vm_compute in E. discriminate.
Qed.

(** ** [mkdir], [write_text] and [ensure] *)

Lemma extends_refl s : extends s s.
Proof. split; reflexivity. Qed.

Lemma extends_trans s1 s2 s3 : extends s1 s2 -> extends s2 s3 -> extends s1 s3.
Proof. intros [H1 C1] [H2 C2]. split; [now transitivity (tree s2)|congruence]. Qed.

Lemma lookup_node_weaken (t t' : gmap path node) p v :
  lookup_node t p = Some v -> t ⊆ t' -> lookup_node t' p = Some v.
Proof.
  destruct p as [|x p]; simpl; [auto|]. intros H Hs. eapply lookup_weaken; eauto.
Qed.

Lemma lookup_node_snoc (t : gmap path node) p x :
  lookup_node t (p ++ [x]) = t !! (p ++ [x]).
Proof. destruct p; reflexivity. Qed.

Lemma bind_grows {A B} (m : M A) (k : A -> M B) :
  grows m -> (forall a, grows (k a)) -> grows (bind m k).
Proof.
  intros Hm Hk s. unfold bind. specialize (Hm s).
  destruct (m s) as [[a|e] s1]; simpl in *; [|assumption].
  eapply extends_trans; [eassumption|apply Hk].
Qed.

Lemma bind_settles {A B} (m : M A) (k : A -> M B) :
  grows m -> settles m -> (forall a, grows (k a)) -> (forall a, settles (k a)) ->
  settles (bind m k).
Proof.
  intros Gm Sm Gk Sk s s' He. unfold bind in *.
  specialize (Sm s). specialize (Gm s).
  destruct (m s) as [[a|e] s1] eqn:Em; simpl in *.
  - assert (E1 : extends s1 s') by (eapply extends_trans; [apply (Gk a s1)|exact He]).
    destruct (Sm s' E1) as [Sok _]. rewrite (Sok a eq_refl).
    exact (Sk a s1 s' He).
  - split; [discriminate|]. intros e' [= <-] ->.
    destruct (Sm s1 (extends_refl _)) as [_ Sr]. now rewrite (Sr e eq_refl eq_refl).
Qed.

Lemma ret_grows {A} (a : A) : grows (ret a).
Proof. intros s. apply extends_refl. Qed.

Lemma ret_settles {A} (a : A) : settles (ret a).
Proof. intros s s' _. split; [now intros ? [= <-]|discriminate]. Qed.

Lemma foldM_grows {A B} (body : B -> A -> M B) l acc :
  (forall acc x, grows (body acc x)) -> grows (foldM body l acc).
Proof.
  intros Hb. revert acc; induction l as [|x l IH]; intros acc; simpl.
  - apply ret_grows.
  - apply bind_grows; auto.
Qed.

Lemma foldM_settles {A B} (body : B -> A -> M B) l acc :
  (forall acc x, grows (body acc x)) -> (forall acc x, settles (body acc x)) ->
  settles (foldM body l acc).
Proof.
  intros Gb Sb. revert acc; induction l as [|x l IH]; intros acc; simpl.
  - apply ret_settles.
  - apply bind_settles; auto using foldM_grows.
Qed.

(** [mkdir] *)
Lemma mkdir_parts_incl (done todo : path) (t : gmap path node) :
  t ⊆ snd (mkdir_parts done todo t).
Proof.
  revert done t; induction todo as [|x r IH]; intros done t; simpl; [reflexivity|].
  rewrite lookup_node_snoc. destruct (t !! (done ++ [x])) as [[f|]|] eqn:E.
  - reflexivity.
  - apply IH.
  - etransitivity; [|apply IH]. now apply insert_subseteq.
Qed.

Lemma mkdir_parts_settles (done todo : path) (t t' : gmap path node) :
  snd (mkdir_parts done todo t) ⊆ t' ->
  mkdir_parts done todo t' = (fst (mkdir_parts done todo t), t').
Proof.
  revert done t; induction todo as [|x r IH]; intros done t; simpl; [reflexivity|].
  rewrite !lookup_node_snoc. destruct (t !! (done ++ [x])) as [[f|]|] eqn:E; simpl.
  - intros H. now rewrite (lookup_weaken _ _ _ _ E H).
  - intros H.
    assert (E' : t' !! (done ++ [x]) = Some Dir).
    { eapply lookup_weaken; [exact E|]. etransitivity; [apply mkdir_parts_incl|exact H]. }
    rewrite E'. now apply IH.
  - intros H.
    assert (E' : t' !! (done ++ [x]) = Some Dir).
    { eapply lookup_weaken; [apply lookup_insert_eq|].
      etransitivity; [apply mkdir_parts_incl|exact H]. }
    rewrite E'. now apply IH.
Qed.

(** What [mkdir] adds is directories on the way to its target. *)
Lemma mkdir_parts_new (done todo : path) (t : gmap path node) k v :
  snd (mkdir_parts done todo t) !! k = Some v ->
  t !! k = Some v \/ (v = Dir /\ k `prefix_of` done ++ todo /\ t !! k = None).
Proof.
  revert done t; induction todo as [|x r IH]; intros done t; simpl; [auto|].
  rewrite lookup_node_snoc. destruct (t !! (done ++ [x])) as [[f|]|] eqn:E; simpl.
  - auto.
  - intros H. apply IH in H. rewrite <- app_assoc in H. exact H.
  - intros H. apply IH in H. rewrite <- app_assoc in H. simpl in H.
    destruct H as [H|H]; [|].
    + destruct (decide (done ++ [x] = k)) as [<-|Hne].
      * rewrite lookup_insert_eq in H. injection H as <-. right. repeat split; auto.
        exists r. now rewrite <- app_assoc.
      * rewrite lookup_insert_ne in H by assumption. auto.
    + destruct H as (-> & Hp & Hn). right. repeat split; auto.
      destruct (decide (done ++ [x] = k)) as [<-|Hne]; [assumption|].
      now rewrite lookup_insert_ne in Hn.
Qed.

(** [mkdir] succeeds unless a regular file is in the way. *)
Lemma mkdir_parts_ok (done todo : path) (t : gmap path node) :
  (forall k f, k `prefix_of` done ++ todo -> t !! k <> Some (Reg f)) ->
  fst (mkdir_parts done todo t) = Ok tt
  /\ (todo <> [] -> snd (mkdir_parts done todo t) !! (done ++ todo) = Some Dir).
Proof.
  revert done t; induction todo as [|x r IH]; intros done t H; simpl; [easy|].
  rewrite lookup_node_snoc.
  assert (Hp : done ++ [x] `prefix_of` done ++ x :: r).
  { exists r. now rewrite <- app_assoc. }
  destruct (t !! (done ++ [x])) as [[f|]|] eqn:E; simpl.
  - exfalso. exact (H _ f Hp E).
  - destruct (IH (done ++ [x]) t) as [Ho Hd].
    { intros k f. rewrite <- app_assoc. apply H. }
    split; [exact Ho|]. intros _. destruct r as [|y r].
    + simpl. exact E.
    + rewrite <- app_assoc in Hd. apply Hd. discriminate.
  - destruct (IH (done ++ [x]) (<[done ++ [x] := Dir]> t)) as [Ho Hd].
    { intros k f Hk. rewrite <- app_assoc in Hk. simpl in Hk.
      destruct (decide (done ++ [x] = k)) as [<-|Hne].
      - now rewrite lookup_insert_eq.
      - rewrite lookup_insert_ne by assumption. now apply H. }
    split; [exact Ho|]. intros _. destruct r as [|y r].
    + simpl. apply lookup_insert_eq.
    + rewrite <- app_assoc in Hd. apply Hd. discriminate.
Qed.

Lemma mkdir_run p s :
  mkdir p s
  = (fst (mkdir_parts [] (resolve p) (tree s)),
     State (snd (mkdir_parts [] (resolve p) (tree s))) (clock s)).
Proof. unfold mkdir. now destruct (mkdir_parts _ _ _). Qed.

Lemma mkdir_grows p : grows (mkdir p).
Proof. intros s. rewrite mkdir_run. split; [apply mkdir_parts_incl|reflexivity]. Qed.

Lemma mkdir_settles p : settles (mkdir p).
Proof.
  intros s s'. rewrite mkdir_run. simpl. intros [Ht Hc].
  assert (E : mkdir p s' = (fst (mkdir_parts [] (resolve p) (tree s)), s')).
  { rewrite mkdir_run, (mkdir_parts_settles _ _ _ _ Ht). simpl.
    destruct s'; simpl in *. reflexivity. }
  split; intros x Hx; [|intros _]; rewrite E, Hx; reflexivity.
Qed.

(** The lookups, in closed form. *)
Lemma exists_run p s :
  exists_ p s
  = (match lookup_node (tree s) (resolve p) with
     | Some _ => Ok true
     | None =>
         if refused (tree s) [] (resolve p) then Raise (OSError "ENAMETOOLONG")
         else Ok false
     end, s).
Proof.
  unfold exists_, not_found. destruct (lookup_node _ _); [reflexivity|].
  now destruct (refused _ _ _).
Qed.

Lemma is_file_run p s :
  is_file p s
  = (match lookup_node (tree s) (resolve p) with
     | Some (Reg _) => Ok true
     | Some Dir => Ok false
     | None =>
         if refused (tree s) [] (resolve p) then Raise (OSError "ENAMETOOLONG")
         else Ok false
     end, s).
Proof.
  unfold is_file, not_found. destruct (lookup_node _ _) as [[f|]|]; try reflexivity.
  now destruct (refused _ _ _).
Qed.

Lemma is_dir_run p s :
  is_dir p s
  = (match lookup_node (tree s) (resolve p) with
     | Some Dir => Ok true
     | Some (Reg _) => Ok false
     | None =>
         if refused (tree s) [] (resolve p) then Raise (OSError "ENAMETOOLONG")
         else Ok false
     end, s).
Proof.
  unfold is_dir, not_found. destruct (lookup_node _ _) as [[f|]|]; try reflexivity.
  now destruct (refused _ _ _).
Qed.

(** The walk goes through directories that exist. *)
Lemma refused_through (t : gmap path node) (done todo rest : path) :
  (forall m, m <> [] -> m `prefix_of` todo -> lookup_node t (done ++ m) = Some Dir) ->
  refused t done (todo ++ rest) = refused t (done ++ todo) rest.
Proof.
  revert done; induction todo as [|x r IH]; intros done H; simpl.
  - now rewrite app_nil_r.
  - rewrite (H [x]); [|discriminate|now exists r].
    rewrite IH, <- app_assoc; [reflexivity|].
    intros m Hm [j Hj]. rewrite <- app_assoc. apply H; [discriminate|].
    exists j. simpl. now rewrite Hj.
Qed.

(** A name of at most [NAME_MAX] bytes in a directory that exists is not
    refused. *)
Lemma refused_short_last (t : gmap path node) (q : path) x :
  (forall m, m <> [] -> m `prefix_of` q -> lookup_node t m = Some Dir) ->
  Nat.ltb NAME_MAX (String.length x) = false ->
  refused t [] (q ++ [x]) = false.
Proof.
  intros H Hx. rewrite refused_through by exact H. cbn [app refused].
  destruct (lookup_node t (q ++ [x])) as [[f|]|]; [reflexivity|reflexivity|exact Hx].
Qed.

(** Nothing is refused on the way to an entry that exists below
    directories. *)
Lemma refused_found (t : gmap path node) (q : path) x :
  (forall m, m <> [] -> m `prefix_of` q -> lookup_node t m = Some Dir) ->
  is_Some (lookup_node t (q ++ [x])) ->
  refused t [] (q ++ [x]) = false.
Proof.
  intros H [v Hv]. rewrite refused_through by exact H. cbn [app refused].
  rewrite Hv. now destruct v.
Qed.

Lemma seed_run p content s :
  Workspace.seed p content s
  = match lookup_node (tree s) (resolve p) with
    | Some _ => (Ok tt, s)
    | None =>
        if refused (tree s) [] (resolve p) then (Raise (OSError "ENAMETOOLONG"), s)
        else
          match lookup_node (tree s) (removelast (resolve p)) with
          | Some Dir =>
              (Ok tt, State (<[resolve p := Reg (File content (clock s) true)]> (tree s))
                            (clock s))
          | Some (Reg _) => (Raise NotADirectoryError, s)
          | None => (Raise FileNotFoundError, s)
          end
    end.
Proof.
  unfold Workspace.seed, bind. rewrite exists_run.
  destruct (lookup_node (tree s) (resolve p)) as [v|] eqn:E; [reflexivity|].
  destruct (refused _ _ _); [reflexivity|].
  unfold write_text. simpl. rewrite E. reflexivity.
Qed.

Lemma lookup_node_None (t : gmap path node) p :
  lookup_node t p = None -> t !! p = None.
Proof. destruct p; [discriminate|auto]. Qed.

Lemma seed_grows p content : grows (Workspace.seed p content).
Proof.
  intros s. rewrite seed_run.
  destruct (lookup_node (tree s) (resolve p)) eqn:E; [apply extends_refl|].
  destruct (refused _ _ _); [apply extends_refl|].
  destruct (lookup_node (tree s) (removelast (resolve p))) as [[f|]|];
    try apply extends_refl.
  split; [|reflexivity]. simpl. apply insert_subseteq, lookup_node_None, E.
Qed.

Lemma seed_settles p content : settles (Workspace.seed p content).
Proof.
  intros s s'. rewrite !seed_run.
  destruct (lookup_node (tree s) (resolve p)) as [v|] eqn:E; simpl.
  - intros [Ht _]. rewrite (lookup_node_weaken _ _ _ _ E Ht).
    split; [now intros ? [= <-]|discriminate].
  - destruct (refused (tree s) [] (resolve p)) eqn:R; simpl.
    { intros _. split; [discriminate|]. intros e [= <-] ->. now rewrite E, R. }
    destruct (lookup_node (tree s) (removelast (resolve p))) as [[f|]|] eqn:E2; simpl.
    + intros _. split; [discriminate|]. intros e [= <-] ->. now rewrite E, R, E2.
    + intros [Ht _]. simpl in Ht.
      assert (E' : lookup_node (tree s') (resolve p)
                   = Some (Reg (File content (clock s) true))).
      { destruct (resolve p) as [|x q] eqn:Er; [discriminate|].
        simpl. eapply lookup_weaken; [apply lookup_insert_eq|exact Ht]. }
      rewrite E'. split; [now intros ? [= <-]|discriminate].
    + intros _. split; [discriminate|]. intros e [= <-] ->. now rewrite E, R, E2.
Qed.

Lemma ensure_eq root :
  Workspace.ensure root
  = (_ <- mkdir root ;;
     _ <- mkdir (joinpath root Workspace.CORE_DIR) ;;
     _ <- mkdir (joinpath root Workspace.AGENTS_DIR) ;;
     foldM (fun _ d => Workspace.seed (joinpath root (fst d)) (snd d))
           Workspace.DEFAULT_CORE_FILES tt).
Proof. reflexivity. Qed.

Lemma ensure_grows root : grows (Workspace.ensure root).
Proof.
  rewrite ensure_eq.
  repeat (apply bind_grows; [apply mkdir_grows|intros _]).
  apply foldM_grows. intros. apply seed_grows.
Qed.

Lemma ensure_settles root : settles (Workspace.ensure root).
Proof.
  rewrite ensure_eq.
  repeat (apply bind_settles; [apply mkdir_grows|apply mkdir_settles| |];
          intros _; try (repeat (apply bind_grows; [apply mkdir_grows|intros _]);
                         apply foldM_grows; intros; apply seed_grows)).
  apply foldM_settles; intros; [apply seed_grows|apply seed_settles].
Qed.

Lemma ensure_idempotent root s :
  Workspace.ensure root (snd (Workspace.ensure root s))
  = (fst (Workspace.ensure root s), snd (Workspace.ensure root s)).
Proof.
  destruct (ensure_settles root s _ (extends_refl _)) as [Hok Hr].
  destruct (fst (Workspace.ensure root s)) as [a|e] eqn:E.
  - now apply Hok.
  - now apply Hr.
Qed.

(** Entries away from the target of [mkdir] stay absent. *)
Lemma mkdir_parts_absent (done todo : path) (t : gmap path node) k :
  t !! k = None -> ~ k `prefix_of` done ++ todo ->
  snd (mkdir_parts done todo t) !! k = None.
Proof.
  intros Hn Hp. destruct (snd (mkdir_parts done todo t) !! k) as [v|] eqn:E; [|reflexivity].
  apply mkdir_parts_new in E as [E|(_ & E & _)]; [congruence|contradiction].
Qed.

Lemma mkdir_parts_reg (done todo : path) (t : gmap path node) k f :
  snd (mkdir_parts done todo t) !! k = Some (Reg f) -> t !! k = Some (Reg f).
Proof. intros E. apply mkdir_parts_new in E as [E|(E & _)]; [assumption|discriminate]. Qed.

Lemma seed_makes p content s :
  lookup_node (tree s) (resolve p) = None ->
  refused (tree s) [] (resolve p) = false ->
  lookup_node (tree s) (removelast (resolve p)) = Some Dir ->
  Workspace.seed p content s
  = (Ok tt, State (<[resolve p := Reg (File content (clock s) true)]> (tree s))
                  (clock s)).
Proof. intros H1 R H2. now rewrite seed_run, H1, R, H2. Qed.

(** After [mkdir], the directories on the way to its target exist. *)
Lemma mkdir_parts_dirs (done todo : path) (t : gmap path node) :
  fst (mkdir_parts done todo t) = Ok tt ->
  forall m, m <> [] -> m `prefix_of` todo ->
    snd (mkdir_parts done todo t) !! (done ++ m) = Some Dir.
Proof.
  revert done t; induction todo as [|x r IH]; intros done t; simpl.
  - intros _ m Hm Hp. apply prefix_nil_inv in Hp. contradiction.
  - rewrite lookup_node_snoc.
    assert (G : forall t', t' !! (done ++ [x]) = Some Dir ->
                  fst (mkdir_parts (done ++ [x]) r t') = Ok tt ->
                  forall m, m <> [] -> m `prefix_of` x :: r ->
                    snd (mkdir_parts (done ++ [x]) r t') !! (done ++ m) = Some Dir).
    { intros t' Hd Ho m Hm Hp. destruct m as [|y m]; [congruence|].
      pose proof (prefix_cons_inv_1 _ _ _ _ Hp) as ->.
      apply prefix_cons_inv_2 in Hp.
      destruct m as [|z m].
      - eapply lookup_weaken; [exact Hd|apply mkdir_parts_incl].
      - replace (done ++ x :: z :: m) with ((done ++ [x]) ++ z :: m)
          by now rewrite <- app_assoc.
        apply IH; [exact Ho|discriminate|exact Hp]. }
    destruct (t !! (done ++ [x])) as [[f|]|] eqn:E; simpl.
    + discriminate.
    + now apply G.
    + apply G. apply lookup_insert_eq.
Qed.

Lemma below_spec (p q : path) :
  below p q = true <-> p `prefix_of` q /\ p <> q.
Proof.
  unfold below. rewrite andb_true_iff, negb_true_iff, bool_decide_eq_true,
    bool_decide_eq_false. reflexivity.
Qed.

Lemma prefix_snoc_cases (k l : path) x :
  k `prefix_of` l ++ [x] -> k `prefix_of` l \/ k = l ++ [x].
Proof.
  intros [m Hm]. destruct (decide (m = [])) as [->|Hne].
  - right. now rewrite app_nil_r in Hm.
  - left. rewrite (app_removelast_last "" Hne), app_assoc in Hm.
    apply app_inj_tail in Hm as [Hm _]. now exists (removelast m).
Qed.

Lemma resolve_join root s :
  Py.startswith s "/" = false ->
  Forall (fun x => x <> "..") (parts_of s) ->
  resolve (joinpath root s) = resolve root ++ parts_of s.
Proof. intros H1 H2. unfold joinpath. rewrite H1. now apply resolve_app_plain. Qed.

Lemma clear_line_start root s :
  empty_root root s -> makeable root s -> clear_line (resolve root) (tree s).
Proof.
  intros Hempty Hmake k f [H|H]; [now apply Hmake|].
  destruct (decide (resolve root = k)) as [<-|Hne]; [now apply Hmake|].
  rewrite Hempty; [discriminate|]. now apply below_spec.
Qed.

Lemma clear_line_mkdir r (done todo : path) t :
  clear_line r t -> clear_line r (snd (mkdir_parts done todo t)).
Proof. intros H k f Hk E. apply mkdir_parts_reg in E. exact (H k f Hk E). Qed.

Lemma mkdir_child_ok (r : path) t x :
  clear_line r t ->
  fst (mkdir_parts [] (r ++ [x]) t) = Ok tt
  /\ snd (mkdir_parts [] (r ++ [x]) t) !! (r ++ [x]) = Some Dir.
Proof.
  intros H. destruct (mkdir_parts_ok [] (r ++ [x]) t) as [Ho Hd].
  - intros k f Hk. apply H. simpl in Hk.
    apply prefix_snoc_cases in Hk as [Hk| ->]; [now left|right].
    now exists [x].
  - split; [exact Ho|]. apply Hd. now destruct r.
Qed.

Lemma grandchild_not_prefix (r : path) a b c :
  ~ (r ++ [a; b]) `prefix_of` r ++ [c].
Proof.
  intros H. apply prefix_length in H. rewrite !length_app in H. simpl in H. lia.
Qed.

Lemma grandchild_not_above (r : path) a b : ~ (r ++ [a; b]) `prefix_of` r.
Proof.
  intros H. apply prefix_length in H. rewrite !length_app in H. simpl in H. lia.
Qed.

Lemma grandchild_below (r : path) a b : below r (r ++ [a; b]) = true.
Proof.
  apply below_spec. split; [now exists [a; b]|].
  intros E. apply (f_equal length) in E. rewrite length_app in E. simpl in E. lia.
Qed.

Lemma bind_mkdir_ok {B} p (k : unit -> M B) s :
  fst (mkdir_parts [] (resolve p) (tree s)) = Ok tt ->
  bind (mkdir p) k s
  = k tt (State (snd (mkdir_parts [] (resolve p) (tree s))) (clock s)).
Proof. intros H. unfold bind. now rewrite mkdir_run, H. Qed.

Lemma ensure_from_empty root s :
  empty_root root s -> makeable root s ->
  exists t,
    Workspace.ensure root s = (Ok tt, State (seeded root (clock s) t) (clock s))
    /\ tree s ⊆ t
    /\ (forall k f, t !! k = Some (Reg f) -> tree s !! k = Some (Reg f))
    /\ (forall a b, t !! (resolve root ++ [a; b]) = None).
Proof.
  intros Hempty Hmake. set (r := resolve root).
  pose proof (clear_line_start _ _ Hempty Hmake) as C0. fold r in C0.
  set (t1 := snd (mkdir_parts [] r (tree s))).
  assert (O1 : fst (mkdir_parts [] r (tree s)) = Ok tt).
  { apply mkdir_parts_ok. intros k f Hk. apply C0. now left. }
  assert (C1 : clear_line r t1) by now apply clear_line_mkdir.
  set (t2 := snd (mkdir_parts [] (r ++ ["core"]) t1)).
  destruct (mkdir_child_ok r t1 "core" C1) as [O2 D2]. fold t2 in D2.
  assert (C2 : clear_line r t2) by now apply clear_line_mkdir.
  set (t3 := snd (mkdir_parts [] (r ++ ["agents"]) t2)).
  destruct (mkdir_child_ok r t2 "agents" C2) as [O3 _].
  assert (D3 : forall m, m <> [] -> m `prefix_of` r ++ ["core"] ->
                 t3 !! m = Some Dir).
  { intros m Hm Hp. eapply lookup_weaken; [|apply mkdir_parts_incl].
    exact (mkdir_parts_dirs [] (r ++ ["core"]) t1 O2 m Hm Hp). }
  assert (N3 : forall a b, t3 !! (r ++ [a; b]) = None).
  { intros a b. apply mkdir_parts_absent; [|apply grandchild_not_prefix].
    apply mkdir_parts_absent; [|apply grandchild_not_prefix].
    apply mkdir_parts_absent; [|apply grandchild_not_above].
    apply Hempty, grandchild_below. }
  exists t3. split; [|split; [|split]].
  - assert (J1 : resolve (joinpath root Workspace.CORE_DIR) = r ++ ["core"]).
    { apply resolve_join; [reflexivity|]. repeat constructor; discriminate. }
    assert (J2 : resolve (joinpath root Workspace.AGENTS_DIR) = r ++ ["agents"]).
    { apply resolve_join; [reflexivity|]. repeat constructor; discriminate. }
    rewrite ensure_eq.
    rewrite (bind_mkdir_ok root) by exact O1. fold r t1.
    rewrite (bind_mkdir_ok (joinpath root Workspace.CORE_DIR));
      cbn [tree clock]; rewrite J1; [|exact O2]. fold t2.
    rewrite (bind_mkdir_ok (joinpath root Workspace.AGENTS_DIR));
      cbn [tree clock]; rewrite J2; [|exact O3]. fold t3.
    unfold seeded, default_files. unfold Workspace.DEFAULT_CORE_FILES.
    cbn [foldM List.map fold_left fst snd].
    assert (Step : forall rel content x t (k : unit -> M unit),
               Py.startswith rel "/" = false ->
               parts_of rel = ["core"; x] -> x <> ".." ->
               Nat.ltb NAME_MAX (String.length x) = false ->
               t !! (r ++ ["core"; x]) = None ->
               (forall m, m <> [] -> m `prefix_of` r ++ ["core"] -> t !! m = Some Dir) ->
               bind (Workspace.seed (joinpath root rel) content) k (State t (clock s))
               = k tt (State (<[r ++ parts_of rel := Reg (File content (clock s) true)]> t)
                             (clock s))).
    { intros rel content x t k Hs Hx Hxd Hxl Hn Hd. unfold bind.
      assert (J : resolve (joinpath root rel) = r ++ ["core"; x]).
      { rewrite resolve_join, Hx; [reflexivity|assumption|].
        rewrite Hx. repeat constructor; [discriminate|assumption]. }
      rewrite seed_makes; cbn [tree clock]; rewrite J.
      - now rewrite Hx.
      - destruct r; exact Hn.
      - replace (r ++ ["core"; x]) with ((r ++ ["core"]) ++ [x])
          by now rewrite <- app_assoc.
        apply refused_short_last; [|exact Hxl].
        intros m Hm Hp. destruct m; [congruence|]. now apply Hd.
      - rewrite removelast_app by discriminate. cbn [removelast].
        rewrite lookup_node_snoc. apply Hd; [now destruct r|reflexivity]. }
    assert (Hne : forall (x y : string), x <> y -> r ++ ["core"; x] <> r ++ ["core"; y]).
    { intros x y Hxy E. apply app_inv_head in E. congruence. }
    assert (Hnd : forall (x : string), r ++ ["core"; x] <> r ++ ["core"]).
    { intros x E. apply app_inv_head in E. discriminate. }
    assert (Hnp : forall (x : string) m, m `prefix_of` r ++ ["core"] ->
                    r ++ ["core"; x] <> m).
    { intros x m Hp <-. exact (grandchild_not_prefix _ _ _ _ Hp). }
    rewrite (Step _ _ "system.md");
      [|reflexivity|reflexivity|discriminate|reflexivity|apply N3|exact D3].
    rewrite (Step _ _ "style.md"); [|reflexivity|reflexivity|discriminate|reflexivity| |].
    2:{ rewrite lookup_insert_ne by (apply Hne; discriminate). apply N3. }
    2:{ intros m Hm Hp. rewrite lookup_insert_ne by now apply Hnp. now apply D3. }
    rewrite (Step _ _ "safety.md"); [|reflexivity|reflexivity|discriminate|reflexivity| |].
    2:{ rewrite !lookup_insert_ne by (apply Hne; discriminate). apply N3. }
    2:{ intros m Hm Hp. rewrite !lookup_insert_ne by now apply Hnp. now apply D3. }
    rewrite (Step _ _ "tool_policy.md");
      [|reflexivity|reflexivity|discriminate|reflexivity| |].
    2:{ rewrite !lookup_insert_ne by (apply Hne; discriminate). apply N3. }
    2:{ intros m Hm Hp. rewrite !lookup_insert_ne by now apply Hnp. now apply D3. }
    reflexivity.
  - etransitivity; [apply mkdir_parts_incl|]. fold t1.
    etransitivity; [apply mkdir_parts_incl|]. fold t2. apply mkdir_parts_incl.
  - intros k f E. now repeat apply mkdir_parts_reg in E.
  - exact N3.
Qed.

Lemma default_files_eq (root : path) (c : Z) :
  default_files root c
  = List.map (fun d => (resolve root ++ ["core"; fst d], File (snd d) c true))
      [ ("system.md", snd (nth 0 Workspace.DEFAULT_CORE_FILES ("", "")));
        ("style.md", snd (nth 1 Workspace.DEFAULT_CORE_FILES ("", "")));
        ("safety.md", snd (nth 2 Workspace.DEFAULT_CORE_FILES ("", "")));
        ("tool_policy.md", snd (nth 3 Workspace.DEFAULT_CORE_FILES ("", ""))) ].
Proof. reflexivity. Qed.

Lemma seeded_lookup (root : path) (c : Z) (t : gmap path node) k f :
  (forall a b, t !! (resolve root ++ [a; b]) = None) ->
  seeded root c t !! k = Some (Reg f)
  <-> (k, f) ∈ default_files root c \/ t !! k = Some (Reg f).
Proof.
  intros Hn. unfold seeded. rewrite default_files_eq.
  cbn [List.map fold_left fst snd].
  assert (Hne : forall (x y : string), x <> y ->
                  resolve root ++ ["core"; x] <> resolve root ++ ["core"; y]).
  { intros x y Hxy E. apply app_inv_head in E. congruence. }
  rewrite !elem_of_cons, elem_of_nil. split.
  - intros Hl. rewrite !lookup_insert in Hl.
    repeat case_decide; subst; try (injection Hl as <-); auto 10.
  - intros [[H|[H|[H|[H|[]]]]]|H]; try (injection H as -> ->).
    + rewrite !lookup_insert_ne by (apply Hne; discriminate). apply lookup_insert_eq.
    + rewrite !lookup_insert_ne by (apply Hne; discriminate). apply lookup_insert_eq.
    + rewrite !lookup_insert_ne by (apply Hne; discriminate). apply lookup_insert_eq.
    + apply lookup_insert_eq.
    + rewrite !lookup_insert_ne; [exact H| | | |];
        intros <-; rewrite Hn in H; discriminate.
Qed.

(** C5.  [ensure] is idempotent.  In every state, every entry that exists
    keeps its node (a file its bytes, time and mode) through one call and
    through two; a second call ends as the first did and changes nothing;
    and from an empty root that can be made, one call succeeds and the
    regular files at or below the root are then exactly the four default
    files with their fixed contents. *)
Theorem ensure_idempotent_and_seeds (root : path) (s : state) :
  let once := snd (Workspace.ensure root s) in
  let twice := snd (Workspace.ensure root once) in
  (forall k v, tree s !! k = Some v ->
     tree once !! k = Some v /\ tree twice !! k = Some v)
  /\ Workspace.ensure root once = (fst (Workspace.ensure root s), once)
  /\ (empty_root root s -> makeable root s ->
      fst (Workspace.ensure root s) = Ok tt
      /\ forall k f,
           resolve root `prefix_of` k ->
           (tree once !! k = Some (Reg f)
            <-> (k, f) ∈ default_files root (clock s))).
Proof.
  intros once twice. split; [|split].
  - intros k v H.
    assert (H1 : tree once !! k = Some v).
    { eapply lookup_weaken; [exact H|apply ensure_grows]. }
    split; [exact H1|]. eapply lookup_weaken; [exact H1|apply ensure_grows].
  - apply ensure_idempotent.
  - intros Hempty Hmake.
    destruct (ensure_from_empty root s Hempty Hmake) as (t & E & _ & Hreg & Hn).
    subst once twice. rewrite E. cbn [fst snd tree]. split; [reflexivity|].
    intros k f Hk. rewrite seeded_lookup by exact Hn. split; [|auto].
    intros [H|H]; [exact H|]. exfalso. apply Hreg in H.
    exact (clear_line_start root s Hempty Hmake k f (or_intror Hk) H).
Qed.

Lemma ensure_idempotent_and_seeds_witness :
  let root := ["srv"; "ws"] in
  let s := State ∅ 1700000000000000 in
  (empty_root root s /\ makeable root s)
  /\ fst (Workspace.ensure root s) = Ok tt
  /\ forall k f,
       resolve root `prefix_of` k ->
       (tree (snd (Workspace.ensure root s)) !! k = Some (Reg f)
        <-> (k, f) ∈ default_files root (clock s)).
Proof.
  intros root s.
  assert (He : empty_root root s) by (intros k _; apply lookup_empty).
  assert (Hm : makeable root s).
  { intros k f _. cbn [tree s]. rewrite lookup_empty. discriminate. }
  split; [split; assumption|].
  exact (proj2 (proj2 (ensure_idempotent_and_seeds root s)) He Hm).
Defined.

(** ** Canonical keys are an invariant *)

Lemma canonical_empty : canonical_keys ∅.
Proof. intros k v H. rewrite lookup_empty in H. discriminate. Qed.

Lemma canonical_insert (t : gmap path node) k v :
  canonical_keys t -> Forall (fun x => x <> "..") k -> canonical_keys (<[k := v]> t).
Proof.
  intros Ht Hk k' v'. rewrite lookup_insert. case_decide; [now subst|]. apply Ht.
Qed.

Lemma canonical_bind {A B} (m : M A) (k : A -> M B) :
  keeps_canonical m -> (forall a, keeps_canonical (k a)) -> keeps_canonical (bind m k).
Proof.
  intros Hm Hk s Hs. unfold bind. specialize (Hm s Hs).
  destruct (m s) as [[a|e] s1]; simpl in *; [now apply Hk|assumption].
Qed.

Lemma canonical_foldM {A B} (body : B -> A -> M B) l acc :
  (forall acc x, keeps_canonical (body acc x)) -> keeps_canonical (foldM body l acc).
Proof.
  intros Hb. revert acc; induction l as [|x l IH]; intros acc; simpl.
  - now intros s Hs.
  - apply canonical_bind; auto.
Qed.

Lemma canonical_mkdir p : keeps_canonical (mkdir p).
Proof.
  intros s Hs. rewrite mkdir_run. cbn [snd tree]. intros k v Hk.
  apply mkdir_parts_new in Hk as [Hk|(_ & [m Hm] & _)]; [eauto|].
  pose proof (resolve_clean p) as Hc. simpl in Hm. rewrite Hm in Hc.
  now apply Forall_app in Hc as [Hc _].
Qed.

Lemma canonical_seed p content : keeps_canonical (Workspace.seed p content).
Proof.
  intros s Hs. rewrite seed_run.
  destruct (lookup_node (tree s) (resolve p)); [assumption|].
  destruct (refused _ _ _); [assumption|].
  destruct (lookup_node (tree s) (removelast (resolve p))) as [[f|]|]; try assumption.
  cbn [snd tree]. apply canonical_insert; [assumption|apply resolve_clean].
Qed.

(** [ensure] keeps the keys canonical, so the trees it makes from nothing are. *)
Lemma canonical_ensure root : keeps_canonical (Workspace.ensure root).
Proof.
  rewrite ensure_eq.
  repeat (apply canonical_bind; [apply canonical_mkdir|intros _]).
  apply canonical_foldM. intros. apply canonical_seed.
Qed.

(** ** Listings *)

(** A computation that keeps the state is known by its outcome. *)
Lemma keeps_run {A} (m : M A) s : keeps m -> m s = (fst (m s), s).
Proof. intros H. specialize (H s). destruct (m s); simpl in *; congruence. Qed.

Lemma bind_run {A B} (m : M A) (k : A -> M B) a s :
  m s = (Ok a, s) -> bind m k s = k a s.
Proof. intros H. unfold bind. now rewrite H. Qed.

Lemma bind_raise {A B} (m : M A) (k : A -> M B) e s :
  m s = (Raise e, s) -> bind m k s = (Raise e, s).
Proof. intros H. unfold bind. now rewrite H. Qed.

Lemma filter_files_run t c l acc :
  Forall (fun p => is_Some (lookup_node t (resolve p))) l ->
  foldM (fun acc path => f <- is_file path ;; ret (if f then acc ++ [path] else acc))
        l acc (State t c)
  = (Ok (acc ++ List.filter (is_reg t) l), State t c).
Proof.
  intros Hl. revert acc; induction Hl as [|p l [v Hp] Hl IH]; intros acc;
    cbn [foldM List.filter].
  - unfold ret. now rewrite app_nil_r.
  - unfold bind at 1. unfold bind at 1. rewrite is_file_run. cbn [tree].
    assert (E : is_reg t p = match v with Reg _ => true | Dir => false end)
      by (unfold is_reg; now rewrite Hp).
    rewrite E, Hp.
    destruct v as [f|]; unfold ret at 1; rewrite IH; [|reflexivity].
    now rewrite <- app_assoc.
Qed.

(** Under canonical keys the listing is the regular files below the root,
    each once. *)
Lemma rebase_key root k :
  Forall (fun x => x <> "..") k -> resolve root `prefix_of` k ->
  resolve (root ++ skipn (List.length (resolve root)) k) = k.
Proof.
  intros Hc [m ->]. rewrite skipn_app, Nat.sub_diag, skipn_all. simpl.
  apply resolve_app_plain. now apply Forall_app in Hc as [_ Hc].
Qed.

Lemma below_lookup (t : gmap path node) p q :
  below p q = true -> lookup_node t q = t !! q.
Proof.
  intros H. apply below_spec in H as [[m Hm] Hne]. destruct q; [|reflexivity].
  symmetry in Hm. apply app_eq_nil in Hm as [-> _]. congruence.
Qed.

(** What [rglob] yields is found again. *)
Lemma rglob_paths_found root t :
  canonical_keys t ->
  Forall (fun p => is_Some (lookup_node t (resolve p))) (rglob_paths root t).
Proof.
  intros Hc. unfold rglob_paths. destruct (existsb Py.has_nul root); [constructor|].
  apply List.Forall_forall. intros p Hp.
  apply in_map_iff in Hp as (k & <- & Hk). apply filter_In in Hk as [Hk Hb].
  apply in_map_iff in Hk as ([k' v] & <- & Hk). simpl in *.
  apply list_elem_of_In, elem_of_map_to_list in Hk.
  rewrite rebase_key; [|eapply Hc; eauto|now apply below_spec in Hb].
  rewrite (below_lookup _ _ _ Hb), Hk. eauto.
Qed.

Lemma rglob_run p s : rglob p s = (Ok (rglob_paths p (tree s)), s).
Proof. reflexivity. Qed.

Lemma list_files_run root s :
  canonical_keys (tree s) ->
  Workspace.list_files root s = (Ok (files_in root (tree s)), s).
Proof.
  intros Hc. destruct s as [t c]. unfold Workspace.list_files, bind.
  rewrite rglob_run. cbn [tree] in *.
  now rewrite filter_files_run by now apply rglob_paths_found.
Qed.

(** Nothing is listed below a root that holds a NUL byte. *)
Lemma files_in_nul root t : existsb Py.has_nul root = true -> files_in root t = [].
Proof. intros H. unfold files_in, rglob_paths. now rewrite H. Qed.

Lemma files_in_no_nul root t p :
  p ∈ files_in root t -> existsb Py.has_nul root = false.
Proof.
  intros Hp. destruct (existsb Py.has_nul root) eqn:H; [|reflexivity].
  rewrite files_in_nul in Hp by exact H. now apply elem_of_nil in Hp.
Qed.

Lemma elem_of_files_in root t p :
  canonical_keys t -> existsb Py.has_nul root = false ->
  p ∈ files_in root t
  <-> exists k f, t !! k = Some (Reg f) /\ below (resolve root) k = true
                  /\ p = root ++ skipn (List.length (resolve root)) k.
Proof.
  intros Hc Hnul. unfold files_in, rglob_paths. rewrite Hnul.
  rewrite list_elem_of_In, filter_In, in_map_iff. split.
  - intros [(k & <- & Hk) Hr]. apply filter_In in Hk as [Hk Hb].
    apply in_map_iff in Hk as ([k' v] & <- & Hk). simpl in *.
    apply list_elem_of_In, elem_of_map_to_list in Hk.
    unfold is_reg in Hr. rewrite rebase_key in Hr.
    + rewrite (below_lookup _ _ _ Hb), Hk in Hr.
      destruct v as [f|]; [|discriminate]. eauto.
    + eapply Hc; eauto.
    + now apply below_spec in Hb.
  - intros (k & f & Hk & Hb & ->). split.
    + exists k. split; [reflexivity|]. apply filter_In. split; [|exact Hb].
      apply in_map_iff. exists (k, Reg f). split; [reflexivity|].
      now apply list_elem_of_In, elem_of_map_to_list.
    + unfold is_reg. rewrite rebase_key.
      * now rewrite (below_lookup _ _ _ Hb), Hk.
      * eapply Hc; eauto.
      * now apply below_spec in Hb.
Qed.

Lemma canonical_keysb_true t : canonical_keysb t = true -> canonical_keys t.
Proof.
  unfold canonical_keysb. rewrite forallb_forall. intros H k v Hk.
  apply elem_of_map_to_list, list_elem_of_In in Hk.
  specialize (H k (in_map fst _ _ Hk)). rewrite forallb_forall in H.
  apply List.Forall_forall. intros x Hx. specialize (H x Hx).
  apply negb_true_iff, String.eqb_neq in H. exact H.
Qed.

Lemma files_in_NoDup root t : NoDup (files_in root t).
Proof.
  unfold files_in, rglob_paths. apply NoDup_ListNoDup, List.NoDup_filter.
  destruct (existsb Py.has_nul root); [constructor|].
  apply NoDup_ListNoDup, NoDup_fmap_2_strong.
  - intros k k' Hk Hk' E. apply list_elem_of_In, filter_In in Hk, Hk'.
    destruct Hk as [_ Hk], Hk' as [_ Hk'].
    apply below_spec in Hk as [[m ->] _], Hk' as [[m' ->] _].
    apply app_inv_head in E. rewrite !drop_app_length in E. now subst.
  - apply NoDup_ListNoDup, List.NoDup_filter, NoDup_ListNoDup.
    apply NoDup_fst_map_to_list.
Qed.

Lemma prompt_name_truthy rel :
  in_prompt_dirs rel = true -> Py.truthy (prompt_name rel) = true.
Proof.
  unfold in_prompt_dirs, Py.startswith, prompt_name. intros H.
  rewrite replace_char.
  destruct rel as [|c rel]; [discriminate|].
  rewrite !prefix_cons in H.
  assert (Hc : c = "c"%char \/ c = "a"%char).
  { apply orb_true_iff in H as [H|H]; apply andb_true_iff in H as [H _];
      apply Ascii.eqb_eq in H; auto. }
  unfold Py.replace. cbn [translate Py.replace_from]. rewrite prefix_cons.
  destruct Hc as [-> | ->]; reflexivity.
Qed.

Lemma prompt_name_for_path_eq rel :
  Mcp._prompt_name_for_path rel
  = if in_prompt_dirs rel then Some (prompt_name rel) else None.
Proof.
  unfold Mcp._prompt_name_for_path, in_prompt_dirs, prompt_name.
  destruct (Py.startswith rel "core/"); [reflexivity|].
  destruct (Py.startswith rel "agents/"); reflexivity.
Qed.

Lemma prompts_fold root files acc :
  fold_left
    (fun prompts path =>
       let rel := Workspace.relative root path in
       match Mcp._prompt_name_for_path rel with
       | Some name =>
           if Py.truthy name
           then prompts ++ [JDict [("name", JStr name); ("description", JStr "")]]
           else prompts
       | None => prompts
       end)
    files acc
  = acc ++ List.map (fun p => prompt_item (prompt_name (Workspace.relative root p)))
             (List.filter (fun p => in_prompt_dirs (Workspace.relative root p)) files).
Proof.
  revert acc; induction files as [|p files IH]; intros acc; simpl.
  - now rewrite app_nil_r.
  - rewrite IH, prompt_name_for_path_eq.
    destruct (in_prompt_dirs (Workspace.relative root p)) eqn:E; [|reflexivity].
    rewrite prompt_name_truthy by exact E. simpl. now rewrite <- app_assoc.
Qed.

Lemma resources_fold root files acc :
  fold_left
    (fun resources path =>
       resources ++ [Mcp.resource_item (Workspace.relative root path)])
    files acc
  = acc ++ List.map (fun p => Mcp.resource_item (Workspace.relative root p)) files.
Proof.
  revert acc; induction files as [|p files IH]; intros acc; simpl.
  - now rewrite app_nil_r.
  - rewrite IH. now rewrite <- app_assoc.
Qed.

Lemma prompts_list_run root s :
  canonical_keys (tree s) ->
  Mcp.prompts_list root s
  = (Ok (JDict
           [("prompts",
             JList (Py.sorted (Mcp.field "name")
                      (List.map (fun p => prompt_item (prompt_name (Workspace.relative root p)))
                         (List.filter (fun p => in_prompt_dirs (Workspace.relative root p))
                            (files_in root (tree s))))))]), s).
Proof.
  intros Hc.
  unfold Mcp.prompts_list. rewrite (bind_run _ _ _ _ (list_files_run root s Hc)).
  unfold ret. now rewrite prompts_fold.
Qed.

Lemma resources_list_run root s :
  canonical_keys (tree s) ->
  Mcp.resources_list root s
  = (Ok (JDict
           [("resources",
             JList (Py.sorted (Mcp.field "uri")
                      (List.map (fun p => Mcp.resource_item (Workspace.relative root p))
                         (files_in root (tree s)))))]), s).
Proof.
  intros Hc.
  unfold Mcp.resources_list. rewrite (bind_run _ _ _ _ (list_files_run root s Hc)).
  unfold ret. now rewrite resources_fold.
Qed.

(** ** Reading files *)

Lemma read_bytes_run p s :
  read_bytes p s
  = (match lookup_node (tree s) (resolve p) with
     | Some (Reg f) => if readable f then Ok (content f) else Raise PermissionError
     | Some Dir => Raise IsADirectoryError
     | None => Raise FileNotFoundError
     end, s).
Proof.
  unfold read_bytes. destruct (lookup_node _ _) as [[f|]|]; [destruct (readable f)| |];
    reflexivity.
Qed.

Lemma read_text_run p s :
  read_text p s
  = (match lookup_node (tree s) (resolve p) with
     | Some (Reg f) => text_of f
     | Some Dir => Raise IsADirectoryError
     | None => Raise FileNotFoundError
     end, s).
Proof.
  unfold read_text, bind. rewrite read_bytes_run. unfold text_of.
  destruct (lookup_node _ _) as [[f|]|]; [destruct (readable f)| |]; try reflexivity.
  destruct (Py.decode_utf8 (content f)); reflexivity.
Qed.

Lemma read_optional_run root rel s :
  Mcp._read_optional root rel s = (Ok (optional_text root (tree s) rel), s).
Proof.
  unfold Mcp._read_optional, optional_text, try_except, bind, lift.
  destruct (Workspace.resolve_safe root rel) as [p|e]; [|reflexivity].
  rewrite exists_run.
  destruct (lookup_node (tree s) (resolve p)) as [[f|]|] eqn:E.
  - unfold bind. rewrite read_text_run, E. destruct (text_of f); reflexivity.
  - unfold bind. rewrite read_text_run, E. reflexivity.
  - now destruct (refused _ _ _).
Qed.

Lemma sections_fold root s l acc :
  foldM (fun parts '(rel_path, title) =>
           content <- Mcp._read_optional root rel_path ;;
           ret (if Py.truthy content
                then parts ++ [Mcp.section_text title rel_path content]
                else parts))
        l acc s
  = (Ok (acc ++ List.flat_map
                  (fun d =>
                     let content := optional_text root (tree s) (fst d) in
                     if Py.truthy content
                     then [Mcp.section_text (snd d) (fst d) content] else [])
                  l), s).
Proof.
  revert acc; induction l as [|[rel title] l IH]; intros acc; simpl.
  - now rewrite app_nil_r.
  - unfold bind at 1. unfold bind at 1. rewrite read_optional_run. unfold ret at 1.
    rewrite IH. destruct (Py.truthy _); simpl; [now rewrite <- app_assoc|reflexivity].
Qed.

Lemma build_instructions_run root s :
  Mcp._build_instructions root s = (Ok (instructions_of root (tree s)), s).
Proof.
  unfold Mcp._build_instructions.
  rewrite (bind_run _ _ _ _ (sections_fold root s Mcp.sections [])). reflexivity.
Qed.

Lemma rules_header_run root s :
  Mcp._rules_header root s
  = (match fst (Workspace.rules_fingerprint root s) with
     | Ok snapshot => Ok (Mcp.header_text snapshot)
     | Raise e => Raise e
     end, s).
Proof.
  unfold Mcp._rules_header, bind.
  rewrite (keeps_run _ s (keeps_rules_fingerprint root)).
  destruct (fst (Workspace.rules_fingerprint root s)); reflexivity.
Qed.

(** ** The shape of a digest *)












(** ** The fingerprint *)

Lemma stat_mtime_run p s :
  stat_mtime p s
  = (match lookup_node (tree s) (resolve p) with
     | Some (Reg f) => Ok (mtime f)
     | Some Dir => Ok 0%Z
     | None => Raise FileNotFoundError
     end, s).
Proof. unfold stat_mtime. destruct (lookup_node _ _) as [[f|]|]; reflexivity. Qed.

Lemma feed_run root sha latest p s f :
  Py.valid_utf8 (Workspace.relative root p) = true ->
  file_at (tree s) p = Some f -> readable f = true ->
  Workspace.feed root (sha, latest) p s
  = (Ok (sha +:+ chunk root (tree s) p, Workspace.later (mtime f) latest), s).
Proof.
  intros Hv Hf Hr. unfold Workspace.feed, Py.encode_utf8, bind, chunk, raw.
  rewrite Hv, Hf. unfold ret at 1.
  unfold file_at in Hf. rewrite read_bytes_run, stat_mtime_run.
  destruct (lookup_node (tree s) (resolve p)) as [[g|]|]; try discriminate.
  injection Hf as ->. rewrite Hr. unfold ret, Sha256.update.
  now rewrite !append_assoc.
Qed.

Lemma feed_unencodable root acc p s :
  Py.valid_utf8 (Workspace.relative root p) = false ->
  Workspace.feed root acc p s = (Raise UnicodeEncodeError, s).
Proof.
  intros Hv. destruct acc as [sha latest].
  unfold Workspace.feed, Py.encode_utf8, bind. now rewrite Hv.
Qed.

Lemma feed_unreadable root acc p s f :
  Py.valid_utf8 (Workspace.relative root p) = true ->
  file_at (tree s) p = Some f -> readable f = false ->
  Workspace.feed root acc p s = (Raise PermissionError, s).
Proof.
  intros Hv Hf Hr. destruct acc as [sha latest].
  unfold Workspace.feed, Py.encode_utf8, bind. rewrite Hv. unfold ret at 1.
  unfold file_at in Hf. rewrite read_bytes_run.
  destruct (lookup_node (tree s) (resolve p)) as [[g|]|]; try discriminate.
  injection Hf as ->. now rewrite Hr.
Qed.







(** ** When the fingerprint can be taken *)

Lemma feed_outcome root acc x s f :
  file_at (tree s) x = Some f ->
  (feedable root (tree s) x
   /\ exists acc', Workspace.feed root acc x s = (Ok acc', s))
  \/ (exists e, Workspace.feed root acc x s = (Raise e, s)
                /\ refusal root (tree s) x e).
Proof.
  intros Hf. destruct (Py.valid_utf8 (Workspace.relative root x)) eqn:Hv.
  - destruct (readable f) eqn:Hr.
    + left. split; [split; [exact Hv|now exists f]|]. destruct acc as [sha latest].
      rewrite (feed_run root sha latest x s f Hv Hf Hr). eauto.
    + right. exists PermissionError. split; [now apply feed_unreadable with f|].
      right. split; [exact Hv|]. split; [|reflexivity].
      intros (g & Hg & Hgr). congruence.
  - right. exists UnicodeEncodeError. split; [now apply feed_unencodable|].
    left. now split.
Qed.


Lemma refusal_kind root t x e :
  refusal root t x e -> e = PermissionError \/ e = UnicodeEncodeError.
Proof. intros [[_ ->]|(_ & _ & ->)]; auto. Qed.

Lemma feed_all_outcome root l acc s :
  Forall (fun p => is_Some (file_at (tree s) p)) l ->
  (Forall (feedable root (tree s)) l
   /\ exists acc', foldM (Workspace.feed root) l acc s = (Ok acc', s))
  \/ (exists e x, foldM (Workspace.feed root) l acc s = (Raise e, s)
                  /\ x ∈ l /\ refusal root (tree s) x e).
Proof.
  revert acc; induction l as [|x l IH]; intros acc H.
  - left. split; [constructor|]. now exists acc.
  - inversion H as [|? ? [f Hf] Hl]; subst. cbn [foldM].
    destruct (feed_outcome root acc x s f Hf) as [[Hr [acc' E]]|(e & E & He)].
    + rewrite (bind_run _ _ _ _ E).
      destruct (IH acc' Hl) as [[Ha E']|(e & y & E' & Hy & He)].
      * left. split; [|eauto]. now constructor.
      * right. exists e, y. split; [exact E'|]. split; [now right|exact He].
    + right. exists e, x. split; [now apply bind_raise|]. split; [now left|exact He].
Qed.



(** ** Changing the bytes of one file *)



Section OneFile.
Variables (root : path) (t : gmap path node) (k : path) (f f' : file).
Hypothesis Hcanon : canonical_keys t.
Hypothesis Hnul : existsb Py.has_nul root = false.
Hypothesis Hk : t !! k = Some (Reg f).
Hypothesis Hbelow : below (resolve root) k = true.



End OneFile.



Lemma readable_atb_all t l :
  forallb (readable_atb t) l = true -> Forall (readable_at t) l.
Proof.
  rewrite forallb_forall. intros H. apply List.Forall_forall. intros p Hp.
  specialize (H p Hp). unfold readable_atb in H. unfold readable_at.
  destruct (file_at t p) as [f|]; [eauto|discriminate].
Qed.




(** ** [strip] keeps a text that starts with [#] non-empty *)

Lemma list_of_append a b :
  list_ascii_of_string (a +:+ b) = list_ascii_of_string a ++ list_ascii_of_string b.
Proof. induction a; simpl; congruence. Qed.

Lemma string_of_app a b :
  string_of_list_ascii (a ++ b) = string_of_list_ascii a +:+ string_of_list_ascii b.
Proof. induction a; simpl; congruence. Qed.

Lemma prefix_before_hash w u :
  occurs "#" w = false -> String.prefix w (u +:+ "#") = true ->
  Py.drop (String.length w) (u +:+ "#") = Py.drop (String.length w) u +:+ "#".
Proof.
  revert u; induction w as [|a w IH]; intros u Hw Hp; [reflexivity|].
  cbn [occurs] in Hw. apply orb_false_elim in Hw as [Ha Hw].
  rewrite prefix_cons, prefix_nil, andb_true_r in Ha.
  destruct u as [|b u]; cbn [String.append String.length Py.drop] in Hp |- *.
  - rewrite prefix_cons in Hp. apply andb_true_iff in Hp as [Hp _].
    rewrite Ascii.eqb_sym in Hp. congruence.
  - rewrite prefix_cons in Hp. apply andb_true_iff in Hp as [_ Hp]. now apply IH.
Qed.

Lemma lstrip_with_tail pats fuel u :
  forallb (fun w => negb (occurs "#" w)) pats = true ->
  exists v, Py.lstrip_with pats fuel (u +:+ "#") = v +:+ "#".
Proof.
  intros Hp. revert u; induction fuel as [|n IH]; intros u; simpl; [now exists u|].
  destruct (find _ pats) as [w|] eqn:E; [|now exists u].
  apply find_some in E as [Hin Hw].
  rewrite forallb_forall in Hp. specialize (Hp w Hin). apply negb_true_iff in Hp.
  rewrite (prefix_before_hash _ _ Hp Hw). apply IH.
Qed.

Lemma strip_hash t : Py.truthy (Py.strip (String "#" t)) = true.
Proof.
  unfold Py.strip.
  assert (L : Py.lstrip (String "#" t) = String "#" t).
  { unfold Py.lstrip. cbn [String.length Py.lstrip_with].
    assert (F : find (fun w => String.prefix w (String "#" t)) Py.whitespace = None)
      by reflexivity.
    now rewrite F. }
  rewrite L. unfold Py.rstrip.
  assert (R : Py.rev (String "#" t) = Py.rev t +:+ "#").
  { unfold Py.rev. simpl. now rewrite string_of_app. }
  rewrite R.
  destruct (lstrip_with_tail (List.map Py.rev Py.whitespace)
              (String.length (String "#" t)) (Py.rev t)) as [v Hv];
    [vm_compute; reflexivity|].
  rewrite Hv. unfold Py.rev. rewrite list_of_append, rev_app_distr. reflexivity.
Qed.

(** ** [initialize] and [tools/call] *)

Lemma header_text_hash snapshot :
  exists t, Mcp.header_text snapshot = String "#" t.
Proof. unfold Mcp.header_text. eexists. reflexivity. Qed.

Lemma combine_instructions_eq snapshot i :
  let h := Mcp.header_text snapshot in
  Mcp.combine_instructions h i
  = Py.strip (Mcp.runtime_directive +:+ Py.nl +:+ h
              +:+ (if Py.truthy i then Py.nl +:+ i else ""))
  /\ Py.truthy (Mcp.combine_instructions h i) = true.
Proof.
  intros h. destruct (header_text_hash snapshot) as [t Ht]. subst h.
  unfold Mcp.combine_instructions. rewrite Ht.
  cbn [List.filter Py.truthy Mcp.runtime_directive].
  change (Py.truthy Mcp.runtime_directive) with true. cbn iota.
  destruct i as [|c i]; cbn [Py.truthy List.filter Py.join]; split;
    try reflexivity; try (rewrite append_assoc; reflexivity).
  - rewrite String_append_nil. reflexivity.
  - apply strip_hash.
  - apply strip_hash.
Qed.

Lemma initialize_run root d s :
  Mcp.initialize root (JDict d) s
  = (match fst (Workspace.rules_fingerprint root s) with
     | Ok snapshot =>
         Ok (JDict
               (initialize_base (Mcp.or_else (Mcp.assoc d "protocolVersion") (JStr "unknown"))
                ++ [("instructions",
                     JStr (Mcp.combine_instructions (Mcp.header_text snapshot)
                             (instructions_of root (tree s))))]))
     | Raise e => Raise e
     end, s).
Proof.
  unfold Mcp.initialize, Mcp.get.
  rewrite (bind_run _ _ (Mcp.assoc d "protocolVersion") s) by reflexivity.
  rewrite (bind_run _ _ _ _ (build_instructions_run root s)).
  unfold bind. rewrite rules_header_run.
  destruct (fst (Workspace.rules_fingerprint root s)) as [snapshot|e]; [|reflexivity].
  unfold ret. now rewrite (proj2 (combine_instructions_eq snapshot _)).
Qed.

Lemma tools_call_run root d s :
  Mcp.tools_call root (JDict d) s
  = (if Mcp.is_str (Mcp.assoc d "name") "focal_rules" then
       match fst (Workspace.rules_fingerprint root s) with
       | Ok snapshot =>
           Ok (text_block (Mcp.tools_text (Mcp.header_text snapshot)
                             (instructions_of root (tree s))))
       | Raise e => Raise e
       end
     else Raise (JsonRpcError (-32602) "Unknown tool"), s).
Proof.
  unfold Mcp.tools_call, Mcp.get.
  rewrite (bind_run _ _ (Mcp.assoc d "name") s) by reflexivity.
  destruct (Mcp.is_str (Mcp.assoc d "name") "focal_rules"); [|reflexivity].
  cbn [negb]. rewrite (bind_run _ _ _ _ (build_instructions_run root s)).
  unfold bind. rewrite rules_header_run.
  destruct (fst (Workspace.rules_fingerprint root s)); reflexivity.
Qed.

(** C3, as the code has it.  [tools/call] with a name other than
    ["focal_rules"] raises [JsonRpcError(-32602, "Unknown tool")].  With
    that name, and when the fingerprint can be taken, it returns one text
    block holding the rules header followed, when the instructions are not
    empty, by a blank line and the instructions.  [initialize] builds its
    [instructions] field from the same header and instructions, but puts
    the runtime directive first and joins the parts with single newlines:
    the two texts share their parts and differ as strings. *)
Theorem tools_call_returns_header_and_instructions
    (root : path) (d : list (string * json)) (s : state) :
  (Mcp.is_str (Mcp.assoc d "name") "focal_rules" = false ->
   Mcp.tools_call root (JDict d) s
   = (Raise (JsonRpcError (-32602) "Unknown tool"), s))
  /\ (Mcp.is_str (Mcp.assoc d "name") "focal_rules" = true ->
      forall snapshot,
        fst (Workspace.rules_fingerprint root s) = Ok snapshot ->
        let header := Mcp.header_text snapshot in
        let instructions := instructions_of root (tree s) in
        Mcp._rules_header root s = (Ok header, s)
        /\ Mcp._build_instructions root s = (Ok instructions, s)
        /\ Mcp.tools_call root (JDict d) s
           = (Ok (text_block
                    (if Py.truthy instructions
                     then header +:+ Py.nl +:+ Py.nl +:+ instructions
                     else header)), s)
        /\ forall d',
             Mcp.initialize root (JDict d') s
             = (Ok (JDict
                      (initialize_base
                         (Mcp.or_else (Mcp.assoc d' "protocolVersion") (JStr "unknown"))
                       ++ [("instructions",
                            JStr (Py.strip
                                    (Mcp.runtime_directive +:+ Py.nl +:+ header
                                     +:+ (if Py.truthy instructions
                                          then Py.nl +:+ instructions else ""))))])),
                s)).
Proof.
  split; intros Hn.
  - now rewrite tools_call_run, Hn.
  - intros snapshot Hs header instructions. split; [|split; [|split]].
    + now rewrite rules_header_run, Hs.
    + apply build_instructions_run.
    + rewrite tools_call_run, Hn, Hs. unfold Mcp.tools_text.
      fold header instructions. now destruct (Py.truthy instructions).
    + intros d'. rewrite initialize_run, Hs.
      now rewrite (proj1 (combine_instructions_eq snapshot _)).
Qed.

Lemma tools_call_witness :
  let root := ["srv"; "ws"] in
  let s := snd (Workspace.ensure root (State ∅ 1700000000500000)) in
  (Mcp.is_str (Mcp.assoc [("name", JStr "bogus")] "name") "focal_rules" = false
   /\ Mcp.tools_call root (JDict [("name", JStr "bogus")]) s
      = (Raise (JsonRpcError (-32602) "Unknown tool"), s))
  /\ (Mcp.is_str (Mcp.assoc [("name", JStr "focal_rules")] "name") "focal_rules" = true
      /\ exists snapshot,
           fst (Workspace.rules_fingerprint root s) = Ok snapshot
           /\ Workspace.rulesHash snapshot = "61333b84ad34"
           /\ Mcp.tools_call root (JDict [("name", JStr "focal_rules")]) s
              = (Ok (text_block
                       (Mcp.header_text snapshot +:+ Py.nl +:+ Py.nl
                        +:+ instructions_of root (tree s))), s)).
Proof.
  intros root s. split.
  - split; [reflexivity|].
    exact (proj1 (tools_call_returns_header_and_instructions
                    root [("name", JStr "bogus")] s) eq_refl).
  - split; [reflexivity|].
    destruct (fst (Workspace.rules_fingerprint root s)) as [snapshot|e] eqn:E;
      [|vm_compute in E; discriminate].
    exists snapshot. split; [reflexivity|]. split.
    + assert (E' : Ok (Workspace.rulesHash snapshot)
                   = match fst (Workspace.rules_fingerprint root s) with
                     | Ok x => Ok (Workspace.rulesHash x) | Raise e => Raise e end)
        by now rewrite E.
      vm_compute in E'. now injection E'.
    + destruct (proj2 (tools_call_returns_header_and_instructions
                         root [("name", JStr "focal_rules")] s) eq_refl snapshot E)
        as (_ & _ & H & _).
      rewrite H. replace (Py.truthy (instructions_of root (tree s))) with true
        by (vm_compute; reflexivity).
      reflexivity.
Defined.

Lemma tools_call_text_is_not_the_instructions_field :
  let root := ["srv"; "ws"] in
  let s := snd (Workspace.ensure root (State ∅ 1700000000500000)) in
  exists text result instructions,
    fst (Mcp.tools_call root (JDict [("name", JStr "focal_rules")]) s)
    = Ok (text_block text)
    /\ fst (Mcp.initialize root (JDict []) s) = Ok (JDict result)
    /\ Mcp.assoc result "instructions" = JStr instructions
    /\ text <> instructions
    /\ Py.startswith instructions "# Runtime Directive" = true
    /\ Py.startswith text "# FOCAL MCP Rules (hash=61333b84ad34 " = true.
Proof.
  intros root s. do 3 eexists.
  split; [vm_compute; reflexivity|].
  split; [vm_compute; reflexivity|].
  split; [vm_compute; reflexivity|].
  split; [discriminate|]. split; vm_compute; reflexivity.
Qed.

(** ** Missing and unreadable core files *)





(** ** [prompts/get] *)

(** A part of [s.split(sep)] occurs in [s]. *)
Lemma split_head_prefix sep s h r :
  Py.split sep s = h :: r -> String.prefix h s = true.
Proof.
  revert h r; induction s as [|a s IH]; intros h r; cbn [Py.split].
  - now intros [= <- <-].
  - destruct (Ascii.eqb a sep).
    + intros [= <- <-]. reflexivity.
    + destruct (Py.split sep s) as [|h' r'] eqn:E.
      * intros [= <- <-]. rewrite prefix_cons, Ascii.eqb_refl. apply prefix_nil.
      * intros [= <- <-]. rewrite prefix_cons, Ascii.eqb_refl. simpl. eapply IH; eauto.
Qed.

Lemma occurs_nil s : occurs "" s = true.
Proof. destruct s; reflexivity. Qed.

Lemma split_part_occurs sep s p :
  In p (Py.split sep s) -> occurs p s = true.
Proof.
  revert p; induction s as [|a s IH]; intros p; cbn [Py.split occurs].
  - intros [<-|[]]. reflexivity.
  - destruct (Ascii.eqb a sep).
    + intros [<-|H]; [reflexivity|]. rewrite (IH _ H). apply orb_true_r.
    + destruct (Py.split sep s) as [|h r] eqn:E.
      * intros [<-|[]]. rewrite prefix_cons, Ascii.eqb_refl, prefix_nil. reflexivity.
      * intros [<-|H].
        -- rewrite prefix_cons, Ascii.eqb_refl, (split_head_prefix _ _ _ _ E). reflexivity.
        -- rewrite (IH p (or_intror H)). apply orb_true_r.
Qed.

Lemma occurs_lstrip_char c p s :
  occurs p (Py.lstrip_char c s) = true -> occurs p s = true.
Proof.
  induction s as [|a s IH]; simpl; [auto|].
  destruct (Ascii.eqb a c); [|auto]. intros H. rewrite (IH H). apply orb_true_r.
Qed.

Lemma translate_has_none a b s :
  a <> b -> occurs (String a "") (translate a b s) = false.
Proof.
  intros Hab. induction s as [|c s IH]; [reflexivity|].
  cbn [translate occurs]. rewrite IH, prefix_cons, prefix_nil, andb_true_r, orb_false_r.
  destruct (Ascii.eqb_spec c a) as [->|Hc]; apply Ascii.eqb_neq; congruence.
Qed.

Lemma no_dotdot_before_md u :
  occurs "." u = false -> occurs ".." (u +:+ ".md") = false.
Proof.
  induction u as [|c u IH]; [reflexivity|].
  cbn [occurs String.append]. intros H. apply orb_false_elim in H as [Hc Hu].
  rewrite prefix_cons, prefix_nil, andb_true_r in Hc.
  rewrite (IH Hu), prefix_cons, Hc. reflexivity.
Qed.

Lemma path_for_name_inv name rel_path :
  Mcp._path_for_prompt_name name = Some rel_path ->
  rel_path = Py.replace name "." "/" +:+ ".md"
  /\ (Py.startswith name "core." = true \/ Py.startswith name "agents." = true).
Proof.
  unfold Mcp._path_for_prompt_name.
  destruct (Py.startswith name "core."); [intros [= <-]; auto|].
  destruct (Py.startswith name "agents."); [intros [= <-]; auto|discriminate].
Qed.

Lemma has_nul_app u v : Py.has_nul (u +:+ v) = Py.has_nul u || Py.has_nul v.
Proof.
  induction u as [|c u IH]; [reflexivity|].
  cbn [String.append Py.has_nul]. now rewrite IH, orb_assoc.
Qed.

Lemma has_nul_translate s : Py.has_nul (translate "." "/" s) = Py.has_nul s.
Proof.
  induction s as [|c s IH]; [reflexivity|]. cbn [translate Py.has_nul]. rewrite IH.
  destruct (Ascii.eqb_spec c ".") as [->|Hc]; reflexivity.
Qed.

(** A NUL byte of a prompt name is a NUL byte of its path. *)
Lemma prompt_path_nul name rel_path :
  Mcp._path_for_prompt_name name = Some rel_path ->
  Py.has_nul rel_path = Py.has_nul name.
Proof.
  intros H. destruct (path_for_name_inv _ _ H) as [-> _].
  rewrite replace_char, has_nul_app, has_nul_translate. apply orb_false_r.
Qed.

(** The path of a prompt name never leaves the root: [resolve_safe]
    refuses it only for a NUL byte. *)
Lemma prompt_path_is_safe root name rel_path :
  Mcp._path_for_prompt_name name = Some rel_path ->
  Workspace.resolve_safe root rel_path
  = (if existsb Py.has_nul root || Py.has_nul name
     then Raise (ValueError "embedded null byte")
     else Ok (resolve root ++ parts_of rel_path))
  /\ resolve (resolve root ++ parts_of rel_path) = resolve root ++ parts_of rel_path
  /\ Py.lstrip_char "/" rel_path = rel_path.
Proof.
  intros H. pose proof (prompt_path_nul _ _ H) as Hnul.
  assert (E : rel_path = translate "." "/" name +:+ ".md"
              /\ exists c t, name = String c t /\ c <> "."%char /\ c <> "/"%char).
  { destruct (path_for_name_inv _ _ H) as [-> Hs]. split; [now rewrite replace_char|].
    unfold Py.startswith in Hs. destruct name as [|c t]; [now destruct Hs|].
    exists c, t. split; [reflexivity|]. rewrite !prefix_cons in Hs.
    destruct Hs as [Hs|Hs]; apply andb_true_iff in Hs as [Hs _];
      apply Ascii.eqb_eq in Hs; subst c; split; discriminate. }
  destruct E as (-> & c & t & -> & Hc & Hc').
  assert (L : Py.lstrip_char "/" (translate "." "/" (String c t) +:+ ".md")
              = translate "." "/" (String c t) +:+ ".md").
  { cbn [translate String.append Py.lstrip_char].
    apply Ascii.eqb_neq in Hc. rewrite Hc.
    apply Ascii.eqb_neq in Hc'. now rewrite Hc'. }
  set (rel := translate "." "/" (String c t) +:+ ".md") in *.
  assert (P : Forall (fun x => x <> "..") (parts_of rel)).
  { apply List.Forall_forall. intros p Hp -> .
    unfold parts_of in Hp. apply filter_In in Hp as [Hp _].
    apply split_part_occurs in Hp.
    unfold rel in Hp. rewrite no_dotdot_before_md in Hp; [discriminate|].
    apply translate_has_none. discriminate. }
  split; [|split; [|exact L]].
  - rewrite resolve_safe_eq, Hnul, target_eq, L, (resolve_app_plain _ _ P).
    rewrite bool_decide_eq_true_2; [reflexivity|]. now exists (parts_of rel).
  - rewrite resolve_app_plain by exact P. now rewrite resolve_idempotent.
Qed.

Lemma truthy_append_md u : Py.truthy (u +:+ ".md") = true.
Proof. now destruct u. Qed.

Lemma prompts_get_run root d s :
  Mcp.prompts_get root (JDict d) s
  = (if negb (Mcp.truthy (Mcp.assoc d "name")) then
       Raise (JsonRpcError (-32602) "Missing prompt name")
     else
       match Mcp.assoc d "name" with
       | JStr name =>
           match Mcp._path_for_prompt_name name with
           | Some rel_path =>
               if existsb Py.has_nul root || Py.has_nul name
               then Raise (ValueError "embedded null byte")
               else
                 match lookup_node (tree s) (resolve root ++ parts_of rel_path) with
                 | Some (Reg f) =>
                     match text_of f with
                     | Ok content => Ok (prompt_message content)
                     | Raise e => Raise e
                     end
                 | Some Dir => Raise IsADirectoryError
                 | None =>
                     if refused (tree s) [] (resolve root ++ parts_of rel_path)
                     then Raise (OSError "ENAMETOOLONG")
                     else Raise (JsonRpcError (-32602) "Prompt not found")
                 end
           | None => Raise (JsonRpcError (-32602) "Unknown prompt name")
           end
       | _ => Raise AttributeError
       end, s).
Proof.
  unfold Mcp.prompts_get, Mcp.get.
  rewrite (bind_run _ _ (Mcp.assoc d "name") s) by reflexivity.
  destruct (negb (Mcp.truthy (Mcp.assoc d "name"))); [reflexivity|].
  destruct (Mcp.assoc d "name") as [| | | |name| |]; try reflexivity.
  destruct (Mcp._path_for_prompt_name name) as [rel|] eqn:E; [|reflexivity].
  destruct (path_for_name_inv _ _ E) as [Hrel _].
  destruct (prompt_path_is_safe root _ _ E) as (Hsafe & Hres & _).
  replace (Py.truthy rel) with true by (rewrite Hrel; symmetry; apply truthy_append_md).
  cbn [negb]. unfold bind, lift. rewrite Hsafe.
  destruct (existsb Py.has_nul root || Py.has_nul name); [reflexivity|].
  rewrite exists_run, Hres.
  destruct (lookup_node (tree s) (resolve root ++ parts_of rel)) as [[f|]|] eqn:L;
    cbn [negb]; try reflexivity.
  - rewrite read_text_run, Hres, L. destruct (text_of f); reflexivity.
  - rewrite read_text_run, Hres, L. reflexivity.
  - now destruct (refused _ _ _).
Qed.




(** ** The notifier *)

Section Broadcast.
Import Notifications.
Variable failing : channel -> bool.

Lemma attempts_clients payload l n :
  _clients (fold_left (attempt failing payload) l n)
  = _clients n ∖ list_to_set (List.filter failing l).
Proof.
  revert n; induction l as [|c l IH]; intros n; simpl.
  - set_solver.
  - rewrite IH. unfold attempt, send_json, disconnect.
    destruct (failing c); simpl; set_solver.
Qed.

Lemma attempts_sent payload l n :
  sent (fold_left (attempt failing payload) l n)
  = sent n ++ List.map (fun c => (c, payload))
                (List.filter (fun c => negb (failing c)) l).
Proof.
  revert n; induction l as [|c l IH]; intros n; simpl.
  - now rewrite app_nil_r.
  - rewrite IH. unfold attempt, send_json, disconnect.
    destruct (failing c); simpl; [reflexivity|]. now rewrite <- app_assoc.
Qed.

Lemma broadcast_eq method n :
  _broadcast failing method n
  = fold_left (attempt failing (payload_of method)) (elements (_clients n)) n.
Proof. reflexivity. Qed.

Lemma inbox_app c s1 s2 k :
  inbox c (Notifier k (s1 ++ s2)) = inbox c (Notifier k s1) ++ inbox c (Notifier k s2).
Proof. unfold inbox; simpl. now rewrite List.filter_app, List.map_app. Qed.

Lemma inbox_of_round payload c l k :
  NoDup l ->
  inbox c (Notifier k (List.map (fun c => (c, payload))
                         (List.filter (fun c => negb (failing c)) l)))
  = if bool_decide (c ∈ l) && negb (failing c) then [payload] else [].
Proof.
  unfold inbox; simpl. induction 1 as [|x l Hx Hl IH]; [reflexivity|].
  simpl. destruct (decide (x = c)) as [->|Hne].
  - rewrite (bool_decide_eq_true_2 (c ∈ c :: l)) by constructor.
    rewrite (bool_decide_eq_false_2 (c ∈ l)) in IH by assumption.
    destruct (failing c); simpl; [exact IH|].
    rewrite Nat.eqb_refl. simpl. now rewrite IH.
  - assert (E : bool_decide (c ∈ x :: l) = bool_decide (c ∈ l)).
    { apply bool_decide_ext. rewrite elem_of_cons. naive_solver. }
    rewrite E. destruct (failing x); simpl; [exact IH|].
    apply Nat.eqb_neq in Hne. now rewrite Hne.
Qed.

Lemma inbox_after_broadcast method n c :
  inbox c (_broadcast failing method n)
  = inbox c n
    ++ (if bool_decide (c ∈ _clients n) && negb (failing c)
        then [payload_of method] else []).
Proof.
  rewrite broadcast_eq.
  destruct (fold_left _ _ n) as [k s] eqn:E.
  apply (f_equal sent) in E. rewrite attempts_sent in E. simpl in E. subst s.
  rewrite inbox_app. f_equal.
  rewrite inbox_of_round by apply NoDup_elements.
  assert (Hb : bool_decide (c ∈ elements (_clients n)) = bool_decide (c ∈ _clients n)).
  { apply bool_decide_ext. apply elem_of_elements. }
  now rewrite Hb.
Qed.

Lemma clients_after_broadcast method n c :
  c ∈ _clients (_broadcast failing method n)
  <-> (c ∈ _clients n) /\ failing c = false.
Proof.
  rewrite broadcast_eq, attempts_clients.
  rewrite elem_of_difference, elem_of_list_to_set, list_elem_of_In, filter_In.
  rewrite <- list_elem_of_In, elem_of_elements.
  destruct (failing c); naive_solver.
Qed.

(** C9.  [broadcast_list_changed], for every set of registered channels
    and every set of failing ones: a registered channel whose sends do not
    raise is sent both list-changed payloads, prompts first and resources
    second, once each, and stays registered; a channel whose sends raise is
    unregistered and sent nothing, and stops no delivery to the others. *)
Theorem broadcast_list_changed_reaches_the_living (n : notifier) :
  (forall c, c ∈ _clients n -> failing c = false ->
     inbox c (broadcast_list_changed failing n)
     = inbox c n ++ [ payload_of "notifications/prompts/list_changed";
                      payload_of "notifications/resources/list_changed" ]
     /\ (c ∈ _clients (broadcast_list_changed failing n)))
  /\ (forall c, failing c = true ->
        (c ∉ _clients (broadcast_list_changed failing n))
        /\ inbox c (broadcast_list_changed failing n) = inbox c n).
Proof.
  unfold broadcast_list_changed, broadcast_resources_list_changed,
    broadcast_prompts_list_changed.
  split; intros c.
  - intros Hc Hf. split.
    + rewrite !inbox_after_broadcast.
      rewrite (bool_decide_eq_true_2 (c ∈ _clients n)) by assumption.
      rewrite bool_decide_eq_true_2 by (apply clients_after_broadcast; auto).
      rewrite Hf. simpl. now rewrite <- app_assoc.
    + apply clients_after_broadcast. split; [|assumption].
      apply clients_after_broadcast. auto.
  - intros Hf. split.
    + rewrite clients_after_broadcast. intros [_ H]. congruence.
    + rewrite !inbox_after_broadcast, Hf, !andb_false_r. now rewrite !app_nil_r.
Qed.
End Broadcast.

Lemma broadcast_list_changed_witness :
  let failing := fun c => Nat.eqb c 2 in
  let n := Notifications.Notifier {[ 1%nat; 2%nat; 3%nat ]} [] in
  ((3%nat ∈ Notifications._clients n) /\ failing 3%nat = false /\ failing 2%nat = true)
  /\ (inbox 3 (Notifications.broadcast_list_changed failing n)
      = inbox 3 n
        ++ [ Notifications.payload_of "notifications/prompts/list_changed";
             Notifications.payload_of "notifications/resources/list_changed" ]
      /\ (3%nat ∈ Notifications._clients (Notifications.broadcast_list_changed failing n)))
  /\ ((2%nat ∉ Notifications._clients (Notifications.broadcast_list_changed failing n))
      /\ inbox 2 (Notifications.broadcast_list_changed failing n) = inbox 2 n).
Proof.
  intros failing n.
  assert (H3 : 3%nat ∈ Notifications._clients n) by (simpl; set_solver).
  split; [split; [exact H3|split; reflexivity]|].
  split.
  - exact (proj1 (broadcast_list_changed_reaches_the_living failing n) 3%nat H3 eq_refl).
  - exact (proj2 (broadcast_list_changed_reaches_the_living failing n) 2%nat eq_refl).
Defined.

(** ** The errors of [handle] *)

Lemma text_of_error f e :
  text_of f = Raise e -> e = PermissionError \/ e = UnicodeDecodeError.
Proof.
  unfold text_of. destruct (readable f); [|intros [= <-]; auto].
  destruct (Py.decode_utf8 (content f)); [discriminate|intros [= <-]; auto].
Qed.

Lemma handler_error_text_of f e : text_of f = Raise e -> handler_error e.
Proof. intros H. apply text_of_error in H as [-> | ->]; exact I. Qed.

(** In any tree, canonical or not, the enumeration ends with a list of
    regular files or with the [OSError] of [is_file]. *)
Lemma filter_files_step t c p l acc :
  foldM (fun acc path => f <- is_file path ;; ret (if f then acc ++ [path] else acc))
        (p :: l) acc (State t c)
  = match lookup_node t (resolve p) with
    | Some (Reg _) =>
        foldM (fun acc path => f <- is_file path ;; ret (if f then acc ++ [path] else acc))
              l (acc ++ [p]) (State t c)
    | Some Dir =>
        foldM (fun acc path => f <- is_file path ;; ret (if f then acc ++ [path] else acc))
              l acc (State t c)
    | None =>
        if refused t [] (resolve p) then (Raise (OSError "ENAMETOOLONG"), State t c)
        else
          foldM (fun acc path => f <- is_file path ;; ret (if f then acc ++ [path] else acc))
                l acc (State t c)
    end.
Proof.
  cbn [foldM]. unfold bind at 1. unfold bind at 1. rewrite is_file_run. cbn [tree].
  destruct (lookup_node t (resolve p)) as [[f|]|]; try reflexivity.
  now destruct (refused t [] (resolve p)).
Qed.

Lemma filter_files_outcome t c l acc :
  (exists l',
     foldM (fun acc path => f <- is_file path ;; ret (if f then acc ++ [path] else acc))
           l acc (State t c) = (Ok (acc ++ l'), State t c)
     /\ Forall (fun p => is_Some (file_at t p)) l')
  \/ foldM (fun acc path => f <- is_file path ;; ret (if f then acc ++ [path] else acc))
           l acc (State t c) = (Raise (OSError "ENAMETOOLONG"), State t c).
Proof.
  revert acc; induction l as [|p l IH]; intros acc.
  - left. exists []. split; [cbn [foldM]; now rewrite app_nil_r|constructor].
  - rewrite filter_files_step.
    destruct (lookup_node t (resolve p)) as [[f|]|] eqn:L.
    + destruct (IH (acc ++ [p])) as [(l' & E & Hl')|E]; [left|now right].
      exists (p :: l'). split; [rewrite E, <- app_assoc; reflexivity|].
      constructor; [|exact Hl']. unfold file_at. rewrite L. eauto.
    + exact (IH acc).
    + destruct (refused t [] (resolve p)); [now right|]. exact (IH acc).
Qed.

Lemma list_files_outcome root s :
  (exists l, Workspace.list_files root s = (Ok l, s)
             /\ Forall (fun p => is_Some (file_at (tree s) p)) l)
  \/ Workspace.list_files root s = (Raise (OSError "ENAMETOOLONG"), s).
Proof.
  destruct s as [t c]. unfold Workspace.list_files.
  rewrite (bind_run _ _ _ _ (rglob_run root (State t c))). cbn [tree].
  destruct (filter_files_outcome t c (rglob_paths root t) []) as [(l & E & Hl)|E].
  - left. exists l. split; [exact E|exact Hl].
  - right. exact E.
Qed.

Lemma rules_fingerprint_error root s e :
  fst (Workspace.rules_fingerprint root s) = Raise e -> handler_error e.
Proof.
  unfold Workspace.rules_fingerprint.
  destruct (list_files_outcome root s) as [(l & E & Hl)|E].
  - rewrite (bind_run _ _ _ _ E). unfold Workspace.fingerprint_of.
    assert (Hs : Forall (fun p => is_Some (file_at (tree s) p))
                   (Py.sorted (Workspace.relative root) l)).
    { rewrite Forall_forall in *. intros p Hp. rewrite sorted_perm in Hp. auto. }
    destruct (feed_all_outcome root _ (Sha256.new, None) s Hs)
      as [[_ [acc E']]|(e' & x & E' & _ & He)].
    + rewrite (bind_run _ _ _ _ E'). destruct acc. discriminate.
    + rewrite (bind_raise _ _ _ _ E'). intros [= <-].
      destruct (refusal_kind _ _ _ _ He) as [-> | ->]; exact I.
  - rewrite (bind_raise _ _ _ _ E). now intros [= <-].
Qed.

Lemma prompts_list_error root s e :
  fst (Mcp.prompts_list root s) = Raise e -> handler_error e.
Proof.
  unfold Mcp.prompts_list.
  destruct (list_files_outcome root s) as [(l & E & _)|E].
  - rewrite (bind_run _ _ _ _ E). discriminate.
  - rewrite (bind_raise _ _ _ _ E). now intros [= <-].
Qed.

Lemma resources_list_error root s e :
  fst (Mcp.resources_list root s) = Raise e -> handler_error e.
Proof.
  unfold Mcp.resources_list.
  destruct (list_files_outcome root s) as [(l & E & _)|E].
  - rewrite (bind_run _ _ _ _ E). discriminate.
  - rewrite (bind_raise _ _ _ _ E). now intros [= <-].
Qed.

Lemma get_not_dict {A} v k (c : json -> M A) s :
  (forall d, v <> JDict d) ->
  bind (Mcp.get v k) c s = (Raise AttributeError, s).
Proof. intros H. destruct v; try reflexivity. now destruct (H d). Qed.

Lemma raises_only_initialize root params :
  raises_only handler_error (Mcp.initialize root params).
Proof.
  intros s e. destruct params as [| | | | | |d];
    try (unfold Mcp.initialize; rewrite get_not_dict by discriminate;
         intros [= <-]; exact I).
  rewrite initialize_run. cbn [fst].
  destruct (fst (Workspace.rules_fingerprint root s)) eqn:E; [discriminate|].
  intros [= <-]. now apply rules_fingerprint_error in E.
Qed.

Lemma raises_only_tools_call root params :
  raises_only handler_error (Mcp.tools_call root params).
Proof.
  intros s e. destruct params as [| | | | | |d];
    try (unfold Mcp.tools_call; rewrite get_not_dict by discriminate;
         intros [= <-]; exact I).
  rewrite tools_call_run. cbn [fst].
  destruct (Mcp.is_str _ _).
  - destruct (fst (Workspace.rules_fingerprint root s)) eqn:E; [discriminate|].
    intros [= <-]. now apply rules_fingerprint_error in E.
  - intros [= <-]. split; [reflexivity|]. simpl. auto.
Qed.

Lemma raises_only_prompts_get root params :
  raises_only handler_error (Mcp.prompts_get root params).
Proof.
  intros s e. destruct params as [| | | | | |d];
    try (unfold Mcp.prompts_get; rewrite get_not_dict by discriminate;
         intros [= <-]; exact I).
  rewrite prompts_get_run. cbn [fst].
  destruct (negb _); [intros [= <-]; split; [reflexivity|simpl; auto]|].
  destruct (Mcp.assoc d "name") as [| | | |name| |]; try (intros [= <-]; exact I).
  destruct (Mcp._path_for_prompt_name name) as [rel|];
    [|intros [= <-]; split; [reflexivity|simpl; auto]].
  destruct (existsb Py.has_nul root || Py.has_nul name);
    [intros [= <-]; simpl; auto|].
  destruct (lookup_node _ _) as [[f|]|].
  - destruct (text_of f) eqn:T; [discriminate|]. intros [= <-].
    now apply handler_error_text_of with f.
  - intros [= <-]. exact I.
  - destruct (refused _ _ _); intros [= <-]; [reflexivity|].
    split; [reflexivity|simpl; auto 6].
Qed.

(** [s.replace(old, "", 1)] when [s] starts with [old] *)
Lemma replace_first_prefix s old new :
  old <> "" -> Py.startswith s old = true ->
  Py.replace_first s old new = new +:+ Py.drop (String.length old) s.
Proof.
  unfold Py.startswith. intros Ho H. destruct s as [|c s].
  - destruct old; [congruence|discriminate].
  - cbn [Py.replace_first]. now rewrite H.
Qed.

Lemma resolve_safe_canonical root rel p :
  Workspace.resolve_safe root rel = Ok p -> resolve p = p.
Proof.
  rewrite resolve_safe_eq. destruct (_ || _); [discriminate|].
  destruct (bool_decide _); [|discriminate].
  intros [= <-]. unfold target. apply resolve_idempotent.
Qed.

Lemma resolve_safe_error root rel e :
  Workspace.resolve_safe root rel = Raise e ->
  e = ValueError "Path traversal blocked" \/ e = ValueError "embedded null byte".
Proof.
  rewrite resolve_safe_eq. destruct (_ || _); [intros [= <-]; auto|].
  destruct (bool_decide _); [discriminate|]. intros [= <-]. auto.
Qed.

Lemma resources_read_run root d s :
  Mcp.resources_read root (JDict d) s
  = (if negb (Mcp.truthy (Mcp.assoc d "uri")) then
       Raise (JsonRpcError (-32602) "Invalid resource URI")
     else
       match Mcp.assoc d "uri" with
       | JStr u =>
           if negb (Py.startswith u "focal:///") then
             Raise (JsonRpcError (-32602) "Invalid resource URI")
           else
             match Workspace.resolve_safe root (Py.drop 9 u) with
             | Ok p =>
                 match lookup_node (tree s) p with
                 | Some (Reg f) =>
                     match text_of f with
                     | Ok content => Ok (resource_contents (JStr u) content)
                     | Raise e => Raise e
                     end
                 | Some Dir => Raise IsADirectoryError
                 | None =>
                     if refused (tree s) [] p then Raise (OSError "ENAMETOOLONG")
                     else Raise (JsonRpcError (-32602) "Resource not found")
                 end
             | Raise e => Raise e
             end
       | _ => Raise AttributeError
       end, s).
Proof.
  unfold Mcp.resources_read, Mcp.get.
  rewrite (bind_run _ _ (Mcp.assoc d "uri") s) by reflexivity.
  destruct (negb (Mcp.truthy (Mcp.assoc d "uri"))); [reflexivity|].
  destruct (Mcp.assoc d "uri") as [| | | |u| |]; try reflexivity.
  destruct (Py.startswith u "focal:///") eqn:Hu; [|reflexivity]. cbn [negb].
  rewrite (replace_first_prefix u "focal:///" "") by (discriminate || exact Hu).
  change ("" +:+ Py.drop (String.length "focal:///") u) with (Py.drop 9 u).
  unfold bind, lift.
  destruct (Workspace.resolve_safe root (Py.drop 9 u)) as [p|e] eqn:E; [|reflexivity].
  pose proof (resolve_safe_canonical _ _ _ E) as Hp.
  rewrite exists_run, Hp.
  destruct (lookup_node (tree s) p) as [[f|]|] eqn:L; cbn [negb]; try reflexivity.
  - rewrite read_text_run, Hp, L. destruct (text_of f); reflexivity.
  - rewrite read_text_run, Hp, L. reflexivity.
  - now destruct (refused _ _ _).
Qed.

Lemma raises_only_resources_read root params :
  raises_only handler_error (Mcp.resources_read root params).
Proof.
  intros s e. destruct params as [| | | | | |d];
    try (unfold Mcp.resources_read; rewrite get_not_dict by discriminate;
         intros [= <-]; exact I).
  rewrite resources_read_run. cbn [fst].
  destruct (negb _); [intros [= <-]; split; [reflexivity|simpl; auto 6]|].
  destruct (Mcp.assoc d "uri") as [| | | |u| |]; try (intros [= <-]; exact I).
  destruct (negb _); [intros [= <-]; split; [reflexivity|simpl; auto 6]|].
  destruct (Workspace.resolve_safe root (Py.drop 9 u)) as [p|e'] eqn:E.
  - destruct (lookup_node _ _) as [[f|]|].
    + destruct (text_of f) eqn:T; [discriminate|]. intros [= <-].
      now apply handler_error_text_of with f.
    + intros [= <-]. exact I.
    + destruct (refused _ _ _); intros [= <-]; [reflexivity|].
      split; [reflexivity|simpl; auto 7].
  - intros [= <-]. apply resolve_safe_error in E as [-> | ->]; simpl; auto.
Qed.

Lemma is_str_spec v m : Mcp.is_str v m = true <-> v = JStr m.
Proof.
  destruct v; simpl; try (split; [discriminate|congruence]).
  rewrite String.eqb_eq. split; congruence.
Qed.

Lemma handle_outcome root payload s e :
  fst (Mcp.handle root payload s) = Raise e ->
  handler_error e
  \/ (e = JsonRpcError (-32601) "Method not found"
      /\ forall m, In m known_methods -> Mcp.assoc payload "method" <> JStr m).
Proof.
  unfold Mcp.handle.
  repeat match goal with
         | |- context [if Mcp.is_str ?v ?m then _ else _] =>
             let E := fresh "E" in destruct (Mcp.is_str v m) eqn:E
         end;
    try (intros H; left; revert H;
         first [ apply raises_only_initialize | apply raises_only_tools_call
               | apply raises_only_prompts_get | apply raises_only_resources_read
               | apply prompts_list_error | apply resources_list_error
               | discriminate ]).
  intros [= <-]. right. split; [reflexivity|].
  intros m Hm Hv. apply is_str_spec in Hv.
  unfold known_methods in Hm. simpl in Hm.
  repeat (destruct Hm as [<-|Hm]; [congruence|]). exact Hm.
Qed.

(** [handle] answers "Method not found" (code -32601) exactly for the
    requests whose method is none of the fourteen it knows, a missing method
    and a method that is not a string included; no handler of a known method
    ever raises that error. *)
Theorem handle_method_not_found_iff (root : path) (payload : list (string * json))
    (s : state) :
  (forall m, In m known_methods -> Mcp.assoc payload "method" <> JStr m)
  <-> Mcp.handle root payload s
      = (Raise (JsonRpcError (-32601) "Method not found"), s).
Proof.
  split.
  - intros H. unfold Mcp.handle.
    repeat match goal with
           | |- context [if Mcp.is_str ?v ?m then _ else _] =>
               let E := fresh "E" in destruct (Mcp.is_str v m) eqn:E;
               [apply is_str_spec in E; exfalso; revert E; apply H;
                unfold known_methods; simpl; tauto|]
           end.
    reflexivity.
  - intros H. destruct (handle_outcome root payload s _ (f_equal fst H)) as [[C _]|[_ G]].
    + discriminate.
    + exact G.
Qed.

Lemma handle_method_not_found_iff_witness :
  let payload := [("id", JNum 1); ("method", JStr "tools/run")] in
  let s := State ∅ 0 in
  (forall m, In m known_methods -> Mcp.assoc payload "method" <> JStr m)
  /\ Mcp.handle ["srv"; "ws"] payload s
     = (Raise (JsonRpcError (-32601) "Method not found"), s).
Proof.
  intros payload s.
  assert (H : forall m, In m known_methods -> Mcp.assoc payload "method" <> JStr m).
  { intros m Hm E. injection E as <-. unfold known_methods in Hm. simpl in Hm.
    repeat (destruct Hm as [Hm|Hm]; [discriminate|]). exact Hm. }
  split; [exact H|].
  exact (proj1 (handle_method_not_found_iff ["srv"; "ws"] payload s) H).
Defined.



(** ** [resources/read] *)



(** ** The [/mcp] endpoint *)

Lemma JSONResponse_run content s : App.JSONResponse content s = (reply content, s).
Proof. unfold App.JSONResponse, reply. now destruct (App.render_error content). Qed.

Lemma keeps_JSONResponse content : keeps (App.JSONResponse content).
Proof. intros s. now rewrite JSONResponse_run. Qed.

Lemma keeps_handle root payload : keeps (Mcp.handle root payload).
Proof.
  unfold Mcp.handle, Mcp.notifications_initialized, Mcp.notifications_cancelled,
    Mcp.logging_set_level, Mcp.tools_list, Mcp.resources_subscribe,
    Mcp.resources_unsubscribe, Mcp.ping, Mcp.resources_templates_list.
  keeps.
Qed.

Lemma keeps_log_request payload : keeps (App.log_request payload).
Proof. unfold App.log_request. keeps. Qed.

Lemma keeps_mcp root payload : keeps (App.mcp root payload).
Proof.
  unfold App.mcp.
  apply keeps_bind; [apply keeps_log_request|intros _].
  destruct (App.is_none _).
  - apply keeps_bind; [|intros; apply keeps_ret].
    apply keeps_try; [|intros; apply keeps_ret].
    apply keeps_bind; [apply keeps_handle|intros; apply keeps_ret].
  - apply keeps_try.
    + apply keeps_bind; [apply keeps_handle|intros; apply keeps_JSONResponse].
    + intros []; apply keeps_JSONResponse.
Qed.


(** Rendering never ends with a [JsonRpcError]. *)
Lemma render_error_kind content e :
  App.render_error content = Some e ->
  e = ValueError "Out of range float values are not JSON compliant"
  \/ e = UnicodeEncodeError.
Proof.
  unfold App.render_error. destruct (App.out_of_range content); [intros [= <-]; auto|].
  destruct (negb _); [intros [= <-]; auto|discriminate].
Qed.

Lemma mcp_run root payload s :
  App.log_request payload s = (Ok tt, s) ->
  App.mcp root payload s
  = (if App.is_none (Mcp.assoc payload "id") then Ok (App.Response 204)
     else
       match fst (Mcp.handle root payload s) with
       | Ok result =>
           match App.render_error (App.envelope (Mcp.assoc payload "id") "result" result)
           with
           | None => Ok (App.Rendered
                           (App.envelope (Mcp.assoc payload "id") "result" result))
           | Some _ => reply (internal_error (Mcp.assoc payload "id"))
           end
       | Raise (JsonRpcError code message) =>
           reply (App.envelope (Mcp.assoc payload "id") "error"
                    (App.error_object code message))
       | Raise _ => reply (internal_error (Mcp.assoc payload "id"))
       end, s).
Proof.
  intros Hl. unfold App.mcp. rewrite (bind_run _ _ _ _ Hl).
  destruct (App.is_none _).
  - unfold bind, try_except. rewrite (keeps_run _ s (keeps_handle root payload)).
    destruct (fst (Mcp.handle root payload s)); reflexivity.
  - unfold bind, try_except. rewrite (keeps_run _ s (keeps_handle root payload)).
    destruct (fst (Mcp.handle root payload s)) as [r|e]; cbn [fst].
    + rewrite JSONResponse_run. unfold reply at 1.
      destruct (App.render_error (App.envelope _ "result" r)) as [e|] eqn:E;
        [|reflexivity].
      destruct (render_error_kind _ _ E) as [-> | ->]; apply JSONResponse_run.
    + destruct e; apply JSONResponse_run.
Qed.









(** A notification (a request with no [id], or a null one) is never
    answered: whatever its method and whatever [handle] does with it,
    unknown method and internal failure included, the endpoint returns
    status 204 with no body and leaves the workspace as it was.  (The one
    request that is not served at all is [prompts/get] with parameters that
    are not a dictionary.) *)
Theorem mcp_notification_gets_no_reply (root : path)
    (payload : list (string * json)) (s : state) :
  Mcp.assoc payload "id" = JNull ->
  App.log_request payload s = (Ok tt, s) ->
  App.mcp root payload s = (Ok (App.Response 204), s).
Proof. intros Hid Hl. rewrite (mcp_run _ _ _ Hl), Hid. reflexivity. Qed.

Lemma mcp_notification_gets_no_reply_witness :
  let root := ["srv"; "ws"] in
  let payload := [("jsonrpc", JStr "2.0"); ("method", JStr "no/such/method")] in
  let s := State ∅ 0 in
  (Mcp.assoc payload "id" = JNull /\ App.log_request payload s = (Ok tt, s))
  /\ fst (Mcp.handle root payload s) = Raise (JsonRpcError (-32601) "Method not found")
  /\ App.mcp root payload s = (Ok (App.Response 204), s).
Proof.
  intros root payload s. split; [split; reflexivity|]. split; [reflexivity|].
  apply (mcp_notification_gets_no_reply root payload s); reflexivity.
Defined.








(** The endpoint is read-only: no request to [/mcp], answered or not,
    changes the filesystem. *)
Theorem mcp_keeps_workspace (root : path) (payload : list (string * json))
    (s : state) :
  snd (App.mcp root payload s) = s.
Proof. apply keeps_mcp. Qed.

(** ** Relative paths lead back to the files *)

Lemma occurs_char_cons c a s :
  occurs (String c "") (String a s) = Ascii.eqb c a || occurs (String c "") s.
Proof. cbn [occurs]. now rewrite prefix_cons, prefix_nil, andb_true_r. Qed.

Lemma occurs_char_append c a b :
  occurs (String c "") (a +:+ b)
  = occurs (String c "") a || occurs (String c "") b.
Proof.
  induction a as [|x a IH]; [reflexivity|].
  cbn [String.append]. rewrite !occurs_char_cons, IH. now rewrite orb_assoc.
Qed.

Lemma split_no_sep sep x :
  occurs (String sep "") x = false -> Py.split sep x = [x].
Proof.
  induction x as [|a x IH]; [reflexivity|].
  rewrite occurs_char_cons. intros H. apply orb_false_elim in H as [Ha Hx].
  cbn [Py.split]. rewrite Ascii.eqb_sym, Ha, (IH Hx). reflexivity.
Qed.

Lemma split_append sep x rest :
  occurs (String sep "") x = false ->
  Py.split sep (x +:+ String sep rest) = x :: Py.split sep rest.
Proof.
  induction x as [|a x IH]; intros H.
  - cbn [String.append Py.split]. now rewrite Ascii.eqb_refl.
  - rewrite occurs_char_cons in H. apply orb_false_elim in H as [Ha Hx].
    cbn [String.append Py.split]. rewrite Ascii.eqb_sym, Ha, (IH Hx). reflexivity.
Qed.

Lemma join_cons sep x y r :
  Py.join sep (x :: y :: r) = x +:+ sep +:+ Py.join sep (y :: r).
Proof. reflexivity. Qed.

Lemma split_join l :
  l <> [] -> Forall (fun x => occurs "/" x = false) l ->
  Py.split "/" (Py.join "/" l) = l.
Proof.
  intros Hne H. induction H as [|x l Hx Hl IH]; [congruence|].
  destruct l as [|y r].
  - cbn [Py.join]. now apply split_no_sep.
  - rewrite join_cons.
    change (x +:+ "/" +:+ Py.join "/" (y :: r))
      with (x +:+ String "/" (Py.join "/" (y :: r))).
    rewrite split_append by exact Hx. f_equal. apply IH. discriminate.
Qed.

Lemma occurs_char_join c l :
  c <> "/"%char -> Forall (fun x => occurs (String c "") x = false) l ->
  occurs (String c "") (Py.join "/" l) = false.
Proof.
  intros Hc H. induction H as [|x l Hx Hl IH]; [reflexivity|].
  destruct l as [|y r]; [exact Hx|].
  rewrite join_cons, !occurs_char_append, Hx, IH.
  rewrite occurs_char_cons. apply Ascii.eqb_neq in Hc. now rewrite Hc.
Qed.

Lemma proper_name_spec x :
  proper_name x = true ->
  x <> "" /\ x <> "." /\ x <> ".." /\ occurs "/" x = false /\ occurs "\" x = false.
Proof.
  unfold proper_name. rewrite !andb_true_iff, !negb_true_iff, !String.eqb_neq. tauto.
Qed.

Lemma proper_name_no_nul x : proper_name x = true -> Py.has_nul x = false.
Proof. unfold proper_name. rewrite !andb_true_iff, !negb_true_iff. tauto. Qed.

Lemma has_nul_join l :
  Forall (fun x => proper_name x = true) l -> Py.has_nul (Py.join "/" l) = false.
Proof.
  intros H. destruct l as [|x l]; [reflexivity|].
  rewrite <- has_nul_split, split_join; [|discriminate|].
  - apply not_true_is_false. intros E. apply existsb_exists in E as (y & Hy & E).
    rewrite List.Forall_forall in H. rewrite (proper_name_no_nul _ (H y Hy)) in E.
    discriminate.
  - eapply Forall_impl; [exact H|]. intros y Hy.
    now apply proper_name_spec in Hy as (_ & _ & _ & Hy & _).
Qed.

Lemma parts_of_join l :
  l <> [] -> Forall (fun x => proper_name x = true) l ->
  parts_of (Py.join "/" l) = l.
Proof.
  intros Hne H. unfold parts_of. rewrite split_join; [|exact Hne|].
  - induction H as [|x l Hx Hl IH]; [reflexivity|]. cbn [List.filter].
    apply proper_name_spec in Hx as (H1 & H2 & _).
    apply String.eqb_neq in H1, H2. rewrite H1, H2. cbn [negb andb]. f_equal.
    destruct l; [reflexivity|]. apply IH. discriminate.
  - eapply Forall_impl; [exact H|]. intros x Hx.
    now apply proper_name_spec in Hx as (_ & _ & _ & Hx & _).
Qed.

Lemma lstrip_join l :
  l <> [] -> Forall (fun x => proper_name x = true) l ->
  Py.lstrip_char "/" (Py.join "/" l) = Py.join "/" l.
Proof.
  intros Hne H. destruct H as [|x l Hx Hl]; [congruence|].
  apply proper_name_spec in Hx as (H1 & _ & _ & H2 & _).
  destruct x as [|a x]; [congruence|].
  rewrite occurs_char_cons in H2. apply orb_false_elim in H2 as [H2 _].
  rewrite Ascii.eqb_sym in H2.
  destruct l as [|y r]; [|rewrite join_cons]; cbn [Py.join String.append Py.lstrip_char];
    now rewrite H2.
Qed.

Lemma relative_of_rest root rest :
  rest <> [] -> Forall (fun x => proper_name x = true) rest ->
  Workspace.relative root (root ++ rest) = Py.join "/" rest.
Proof.
  intros Hne H. unfold Workspace.relative.
  rewrite drop_app_length. unfold Workspace.str_of_parts.
  destruct rest as [|x r]; [congruence|].
  apply replace_absent. apply occurs_char_join; [discriminate|].
  eapply Forall_impl; [exact H|]. intros y Hy.
  now apply proper_name_spec in Hy as (_ & _ & _ & _ & Hy).
Qed.

(** [resolve_safe] takes the relative path of [root / rest] back to it. *)
Lemma relative_resolves root rest :
  existsb Py.has_nul root = false ->
  rest <> [] -> Forall (fun x => proper_name x = true) rest ->
  Workspace.resolve_safe root (Workspace.relative root (root ++ rest))
  = Ok (resolve root ++ rest).
Proof.
  intros Hnul Hne H. rewrite relative_of_rest by assumption.
  assert (T : target root (Py.join "/" rest) = resolve root ++ rest).
  { rewrite target_eq, lstrip_join, parts_of_join by assumption.
    apply resolve_app_plain. eapply Forall_impl; [exact H|]. intros y Hy.
    now apply proper_name_spec in Hy as (_ & _ & Hy & _). }
  rewrite resolve_safe_eq, Hnul, (has_nul_join _ H), T. cbn [orb].
  rewrite bool_decide_eq_true_2; [reflexivity|]. now exists rest.
Qed.

Lemma proper_canonical t : proper_names t -> canonical_keys t.
Proof.
  intros H k v Hk. eapply Forall_impl; [exact (H k v Hk)|]. intros y Hy.
  now apply proper_name_spec in Hy as (_ & _ & Hy & _).
Qed.

Lemma proper_namesb_true t : proper_namesb t = true -> proper_names t.
Proof.
  unfold proper_namesb. rewrite forallb_forall. intros H k v Hk.
  apply elem_of_map_to_list, list_elem_of_In in Hk.
  specialize (H k (in_map fst _ _ Hk)). rewrite forallb_forall in H.
  apply List.Forall_forall. exact H.
Qed.

(** A listed file, seen from its key. *)
Lemma listed_file root t p :
  proper_names t -> p ∈ files_in root t ->
  exists rest f,
    p = root ++ rest /\ rest <> [] /\ Forall (fun x => proper_name x = true) rest
    /\ t !! (resolve root ++ rest) = Some (Reg f)
    /\ file_at t p = Some f.
Proof.
  intros Hp Hin. pose proof (proper_canonical t Hp) as Hc.
  pose proof (files_in_no_nul _ _ _ Hin) as Hnul.
  apply elem_of_files_in in Hin as (k & f & Hk & Hb & ->); [|exact Hc|exact Hnul].
  pose proof Hb as Hb'. apply below_spec in Hb' as [[rest ->] Hne].
  exists rest, f. rewrite drop_app_length.
  assert (Hr : rest <> []) by (intros ->; rewrite app_nil_r in Hne; congruence).
  assert (Hpr : Forall (fun x => proper_name x = true) rest).
  { specialize (Hp _ _ Hk). now apply Forall_app in Hp as [_ Hp]. }
  repeat split; try assumption.
  unfold file_at.
  rewrite resolve_app_plain.
  - rewrite (below_lookup _ _ _ Hb), Hk. reflexivity.
  - eapply Forall_impl; [exact Hpr|]. intros y Hy.
    now apply proper_name_spec in Hy as (_ & _ & Hy & _).
Qed.

Lemma listed_file_resolves root t p :
  proper_names t -> p ∈ files_in root t ->
  exists f,
    Workspace.resolve_safe root (Workspace.relative root p) = Ok (resolve p)
    /\ lookup_node t (resolve p) = Some (Reg f)
    /\ p = root ++ skipn (List.length (resolve root)) (resolve p).
Proof.
  intros Hp Hin. pose proof (files_in_no_nul _ _ _ Hin) as Hnul.
  destruct (listed_file root t p Hp Hin) as (rest & f & -> & Hne & Hpr & Hk & Hf).
  assert (E : resolve (root ++ rest) = resolve root ++ rest).
  { apply resolve_app_plain. eapply Forall_impl; [exact Hpr|]. intros y Hy.
    now apply proper_name_spec in Hy as (_ & _ & Hy & _). }
  exists f. rewrite E, relative_resolves by assumption.
  split; [reflexivity|]. split.
  - unfold file_at in Hf. rewrite E in Hf.
    destruct (lookup_node t (resolve root ++ rest)) as [[g|]|]; congruence.
  - now rewrite drop_app_length.
Qed.

(** When the names in the tree are proper names without a backslash, the
    relative path of a listed file names that file: [resolve_safe] maps it
    back to the canonical path of the file, and two listed files never have
    the same relative path. *)
Theorem relative_paths_name_the_files (root : path) (t : gmap path node) :
  proper_names t ->
  (forall p, p ∈ files_in root t ->
     exists f,
       Workspace.resolve_safe root (Workspace.relative root p) = Ok (resolve p)
       /\ lookup_node t (resolve p) = Some (Reg f))
  /\ NoDup (List.map (Workspace.relative root) (files_in root t)).
Proof.
  intros Hp. split.
  - intros p Hin. destruct (listed_file_resolves root t p Hp Hin) as (f & H1 & H2 & _).
    eauto.
  - apply NoDup_fmap_2_strong; [|apply files_in_NoDup].
    intros p q Hp' Hq E.
    destruct (listed_file_resolves root t p Hp Hp') as (_ & H1 & _ & Hpe).
    destruct (listed_file_resolves root t q Hp Hq) as (_ & H2 & _ & Hqe).
    rewrite E, H2 in H1. injection H1 as H1. rewrite Hpe, Hqe. now rewrite H1.
Qed.

Lemma relative_paths_name_the_files_witness :
  let root := ["srv"; "ws"] in
  let t := tree (snd (Workspace.ensure root (State ∅ 0))) in
  proper_names t
  /\ NoDup (List.map (Workspace.relative root) (files_in root t)).
Proof.
  intros root t.
  assert (H : proper_names t) by (apply proper_namesb_true; vm_compute; reflexivity).
  split; [exact H|].
  exact (proj2 (relative_paths_name_the_files root t H)).
Defined.

(** A backslash in a file name breaks this: [relative] turns it into a
    slash, and the relative path then names another place. *)
Example backslash_name_is_not_found :
  let root := ["srv"; "ws"] in
  let k := ["srv"; "ws"; "a\b.md"] in
  let s := State {[ ["srv"] := Dir; ["srv"; "ws"] := Dir;
                    k := Reg (File "x" 0 true) ]} 0 in
  files_in root (tree s) = [k]
  /\ Workspace.relative root k = "a/b.md"
  /\ Mcp.resources_read root (JDict [("uri", JStr "focal:///a/b.md")]) s
     = (Raise (JsonRpcError (-32602) "Resource not found"), s).
Proof. vm_compute. repeat split; reflexivity. Qed.

(** ** The listings *)






(** ** What is listed can be fetched *)

Lemma starts_with_scheme rel : Py.startswith ("focal:///" +:+ rel) "focal:///" = true.
Proof.
  unfold Py.startswith. cbn [String.append].
  rewrite !prefix_cons. cbn [Ascii.eqb Bool.eqb andb]. apply prefix_nil.
Qed.

Lemma resources_read_listed root s rel p f :
  Workspace.resolve_safe root rel = Ok p ->
  lookup_node (tree s) p = Some (Reg f) ->
  Mcp.resources_read root (JDict [("uri", JStr ("focal:///" +:+ rel))]) s
  = (match text_of f with
     | Ok content => Ok (resource_contents (JStr ("focal:///" +:+ rel)) content)
     | Raise e => Raise e
     end, s).
Proof.
  intros Hs Hl. rewrite resources_read_run.
  change (Mcp.assoc [("uri", JStr ("focal:///" +:+ rel))] "uri")
    with (JStr ("focal:///" +:+ rel)).
  change (Mcp.truthy (JStr ("focal:///" +:+ rel))) with true. cbn [negb].
  rewrite starts_with_scheme. cbn [negb].
  change (Py.drop 9 ("focal:///" +:+ rel)) with rel. now rewrite Hs, Hl.
Qed.

(** Every resource that [resources/list] returns can be read back: with
    proper names in the tree, [resources/read] on the URI of a listed item
    finds the file the item was made for and returns its text under the
    same URI, or raises the error of reading that file; it never answers
    "Resource not found", "Invalid resource URI" or a blocked traversal. *)
Theorem listed_resources_can_be_read (root : path) (s : state) :
  proper_names (tree s) ->
  exists resources,
    Mcp.resources_list root s = (Ok (JDict [("resources", JList resources)]), s)
    /\ forall item, item ∈ resources ->
         exists p f,
           p ∈ files_in root (tree s)
           /\ item = Mcp.resource_item (Workspace.relative root p)
           /\ file_at (tree s) p = Some f
           /\ Mcp.resources_read root (JDict [("uri", JStr (Mcp.field "uri" item))]) s
              = (match text_of f with
                 | Ok content =>
                     Ok (resource_contents (JStr (Mcp.field "uri" item)) content)
                 | Raise e => Raise e
                 end, s).
Proof.
  intros Hp. eexists. split; [apply resources_list_run, proper_canonical, Hp|].
  intros item Hi. rewrite sorted_perm in Hi.
  apply list_elem_of_In, in_map_iff in Hi as (p & <- & Hin).
  apply list_elem_of_In in Hin.
  destruct (listed_file_resolves root (tree s) p Hp Hin) as (f & Hs & Hl & _).
  exists p, f. split; [exact Hin|]. split; [reflexivity|]. split.
  - unfold file_at. now rewrite Hl.
  - change (Mcp.field "uri" (Mcp.resource_item (Workspace.relative root p)))
      with ("focal:///" +:+ Workspace.relative root p).
    now apply resources_read_listed with (resolve p).
Qed.

Lemma listed_resources_can_be_read_witness :
  let root := ["srv"; "ws"] in
  let s := snd (Workspace.ensure root (State ∅ 0)) in
  proper_names (tree s)
  /\ exists resources,
       Mcp.resources_list root s = (Ok (JDict [("resources", JList resources)]), s)
       /\ forall item, item ∈ resources ->
            exists p f,
              p ∈ files_in root (tree s)
              /\ item = Mcp.resource_item (Workspace.relative root p)
              /\ file_at (tree s) p = Some f
              /\ Mcp.resources_read root (JDict [("uri", JStr (Mcp.field "uri" item))]) s
                 = (match text_of f with
                    | Ok content =>
                        Ok (resource_contents (JStr (Mcp.field "uri" item)) content)
                    | Raise e => Raise e
                    end, s).
Proof.
  intros root s.
  assert (H : proper_names (tree s)) by (apply proper_namesb_true; vm_compute; reflexivity).
  split; [exact H|]. exact (listed_resources_can_be_read root s H).
Defined.

Lemma plain_stem_roundtrip stem :
  plain_stem stem ->
  prompt_name (stem +:+ ".md") = translate "/" "." stem
  /\ in_prompt_dirs (stem +:+ ".md") = true
  /\ Mcp._path_for_prompt_name (translate "/" "." stem) = Some (stem +:+ ".md").
Proof.
  intros (Hdir & Hdot & Hmd). split; [|split].
  - unfold prompt_name. rewrite replace_char, translate_app.
    change (translate "/" "." ".md") with ".md".
    apply replace_md_suffix, occurs_md_translate; assumption.
  - unfold in_prompt_dirs, Py.startswith in *.
    apply orb_true_iff in Hdir as [H|H]; apply (prefix_app _ _ ".md") in H;
      rewrite H; auto using orb_true_r.
  - rewrite path_for_name_some.
    + now rewrite replace_char, translate_back.
    + unfold Py.startswith in *.
      apply orb_true_iff in Hdir as [H|H];
        apply (prefix_translate "/" ".") in H; cbn [translate] in H;
        simpl Ascii.eqb in H; rewrite H; auto using orb_true_r.
Qed.

(** A listed prompt can be fetched under the name it is listed with: with
    proper names in the tree, a file [stem.md] under [core/] or [agents/]
    whose stem has no dot (and no part that starts with [md]) is listed by
    [prompts/list] under the name made of its parts joined by dots, and
    [prompts/get] with that name returns the text of that very file, or
    raises the error of reading it. *)
Theorem listed_plain_prompts_can_be_fetched (root : path) (s : state)
    (p : path) (stem : string) :
  proper_names (tree s) ->
  p ∈ files_in root (tree s) ->
  Workspace.relative root p = stem +:+ ".md" ->
  plain_stem stem ->
  let name := translate "/" "." stem in
  exists f prompts,
    file_at (tree s) p = Some f
    /\ Mcp.prompts_list root s = (Ok (JDict [("prompts", JList prompts)]), s)
    /\ prompt_item name ∈ prompts
    /\ Mcp.prompts_get root (JDict [("name", JStr name)]) s
       = (match text_of f with
          | Ok content => Ok (prompt_message content)
          | Raise e => Raise e
          end, s).
Proof.
  intros Hp Hin Hrel Hplain name.
  destruct (plain_stem_roundtrip stem Hplain) as (Hname & Hdirs & Hpath).
  destruct (listed_file_resolves root (tree s) p Hp Hin) as (f & Hs & Hl & _).
  exists f. eexists. split; [unfold file_at; now rewrite Hl|].
  split; [apply prompts_list_run, proper_canonical, Hp|]. split.
  - rewrite sorted_perm. apply list_elem_of_In, in_map_iff. exists p.
    rewrite Hrel, Hname. split; [reflexivity|].
    apply filter_In. split; [now apply list_elem_of_In|]. now rewrite Hrel.
  - rewrite prompts_get_run.
    change (Mcp.assoc [("name", JStr name)] "name") with (JStr name).
    assert (Ht : Mcp.truthy (JStr name) = true).
    { cbn [Mcp.truthy]. unfold name. rewrite <- Hname.
      now apply prompt_name_truthy. }
    rewrite Ht. cbn [negb]. unfold name. rewrite Hpath.
    destruct (prompt_path_is_safe root _ _ Hpath) as (Hsafe & _ & _).
    rewrite <- Hrel, Hs in Hsafe.
    destruct (existsb Py.has_nul root || Py.has_nul (translate "/" "." stem));
      [discriminate|].
    injection Hsafe as Hsafe.
    rewrite <- Hrel, <- Hsafe, Hl. reflexivity.
Qed.

Lemma listed_plain_prompts_can_be_fetched_witness :
  let root := ["srv"; "ws"] in
  let s := snd (Workspace.ensure root (State ∅ 0)) in
  let p := ["srv"; "ws"; "core"; "tool_policy.md"] in
  (proper_names (tree s) /\ p ∈ files_in root (tree s)
   /\ Workspace.relative root p = "core/tool_policy" +:+ ".md"
   /\ plain_stem "core/tool_policy")
  /\ exists f prompts,
       file_at (tree s) p = Some f
       /\ Mcp.prompts_list root s = (Ok (JDict [("prompts", JList prompts)]), s)
       /\ prompt_item (translate "/" "." "core/tool_policy") ∈ prompts
       /\ Mcp.prompts_get root
            (JDict [("name", JStr (translate "/" "." "core/tool_policy"))]) s
          = (match text_of f with
             | Ok content => Ok (prompt_message content)
             | Raise e => Raise e
             end, s).
Proof.
  intros root s p.
  assert (H1 : proper_names (tree s)) by (apply proper_namesb_true; vm_compute; reflexivity).
  assert (H2 : p ∈ files_in root (tree s)).
  { apply list_elem_of_In. vm_compute. tauto. }
  assert (H3 : Workspace.relative root p = "core/tool_policy" +:+ ".md") by reflexivity.
  assert (H4 : plain_stem "core/tool_policy") by (repeat split; reflexivity).
  split; [repeat split; assumption|].
  exact (listed_plain_prompts_can_be_fetched root s p "core/tool_policy" H1 H2 H3 H4).
Defined.

(** ** The time of the fingerprint *)





(** The time is that of a file outside [core/] when that file is the
    latest. *)
Example rules_updated_at_example :
  let root := ["srv"; "ws"] in
  let s := State {[ ["srv"] := Dir; ["srv"; "ws"] := Dir;
                    ["srv"; "ws"; "notes.md"] := Reg (File "new" 1700000000500000 true);
                    ["srv"; "ws"; "core"] := Dir;
                    ["srv"; "ws"; "core"; "system.md"] := Reg (File "old" 1600000000000000 true) ]}
             0 in
  option_map Workspace.rulesUpdatedAt
    (match fst (Workspace.rules_fingerprint root s) with
     | Ok fp => Some fp
     | Raise _ => None
     end)
  = Some (Some "2023-11-14T22:13:20.500000+00:00").
Proof. vm_compute. reflexivity. Qed.

(** ** Connecting and disconnecting *)

Section Channels.
Import Notifications.
Variable failing : channel -> bool.

(** A channel that connects is served by the next broadcast and one that
    disconnects is not: after [connect], a channel whose sends do not raise
    receives both list-changed events of [broadcast_list_changed]; after
    [disconnect] it receives nothing; and disconnecting a channel that has
    just connected, or one that was never registered, gives back the
    notifier as it was. *)
Theorem connect_and_disconnect_take_effect (n : notifier) (c : channel) :
  (failing c = false ->
   inbox c (broadcast_list_changed failing (connect c n))
   = inbox c n ++ [ payload_of "notifications/prompts/list_changed";
                    payload_of "notifications/resources/list_changed" ])
  /\ inbox c (broadcast_list_changed failing (disconnect c n)) = inbox c n
  /\ (c ∉ _clients n -> disconnect c (connect c n) = n /\ disconnect c n = n)
  /\ connect c (connect c n) = connect c n.
Proof.
  unfold broadcast_list_changed, broadcast_resources_list_changed,
    broadcast_prompts_list_changed.
  split; [|split; [|split]].
  - intros Hf. rewrite !inbox_after_broadcast.
    assert (H1 : c ∈ _clients (connect c n)) by (simpl; set_solver).
    rewrite (bool_decide_eq_true_2 (c ∈ _clients (connect c n))) by exact H1.
    rewrite bool_decide_eq_true_2 by (apply clients_after_broadcast; auto).
    rewrite Hf. simpl. now rewrite <- app_assoc.
  - rewrite !inbox_after_broadcast.
    assert (H1 : c ∉ _clients (disconnect c n)) by (simpl; set_solver).
    rewrite (bool_decide_eq_false_2 (c ∈ _clients (disconnect c n))) by exact H1.
    rewrite bool_decide_eq_false_2.
    + simpl. now rewrite !app_nil_r.
    + rewrite clients_after_broadcast. tauto.
  - intros Hc. destruct n as [cl snt]. unfold disconnect, connect. simpl in *.
    split; f_equal; set_solver.
  - destruct n as [cl snt]. unfold connect. simpl. f_equal. set_solver.
Qed.

End Channels.

Lemma connect_and_disconnect_take_effect_witness :
  let failing := fun c => Nat.eqb c 2 in
  let n := Notifications.Notifier {[ 1%nat ]} [] in
  failing 5%nat = false
  /\ inbox 5 (Notifications.broadcast_list_changed failing (Notifications.connect 5 n))
     = inbox 5 n
       ++ [ Notifications.payload_of "notifications/prompts/list_changed";
            Notifications.payload_of "notifications/resources/list_changed" ].
Proof.
  intros failing n. split; [reflexivity|].
  exact (proj1 (connect_and_disconnect_take_effect failing n 5%nat) eq_refl).
Defined.

(** ** When [ensure] succeeds *)

Lemma snoc_app_ne {A} (l : list A) x m : m <> [] -> l ++ [x] <> (l ++ [x]) ++ m.
Proof.
  intros Hm E. apply (f_equal (@List.length A)) in E. rewrite !length_app in E.
  destruct m; [congruence|]. simpl in E. lia.
Qed.

(** [mkdir] succeeds exactly when no regular file is on its way. *)
Lemma mkdir_parts_fst (done todo : path) (t : gmap path node) :
  fst (mkdir_parts done todo t) = Ok tt
  <-> forall m f, m <> [] -> m `prefix_of` todo -> t !! (done ++ m) <> Some (Reg f).
Proof.
  revert done t; induction todo as [|x r IH]; intros done t; simpl.
  - split; [|reflexivity]. intros _ m f Hm Hp. apply prefix_nil_inv in Hp. congruence.
  - rewrite lookup_node_snoc. destruct (t !! (done ++ [x])) as [[f|]|] eqn:E; simpl.
    + split; [discriminate|]. intros H. exfalso. apply (H [x] f); [discriminate| |exact E].
      now exists r.
    + rewrite IH. split; intros H m f Hm Hp.
      * destruct m as [|y m]; [congruence|].
        pose proof (prefix_cons_inv_1 _ _ _ _ Hp) as ->.
        apply prefix_cons_inv_2 in Hp.
        destruct m as [|z m]; [rewrite E; discriminate|].
        specialize (H (z :: m) f). rewrite <- app_assoc in H. apply H; [discriminate|exact Hp].
      * rewrite <- app_assoc. apply (H (x :: m) f); [discriminate|].
        destruct Hp as [k ->]. now exists k.
    + rewrite IH. split; intros H m f Hm Hp.
      * destruct m as [|y m]; [congruence|].
        pose proof (prefix_cons_inv_1 _ _ _ _ Hp) as ->.
        apply prefix_cons_inv_2 in Hp.
        destruct m as [|z m]; [rewrite E; discriminate|].
        specialize (H (z :: m) f). rewrite <- app_assoc in H.
        rewrite lookup_insert_ne in H.
        -- apply H; [discriminate|exact Hp].
        -- change (done ++ x :: z :: m) with (done ++ [x] ++ z :: m).
           rewrite app_assoc. now apply snoc_app_ne.
      * rewrite lookup_insert_ne by now apply snoc_app_ne.
        rewrite <- app_assoc. apply (H (x :: m) f); [discriminate|].
        destruct Hp as [k ->]. now exists k.
Qed.

Lemma mkdir_parts_error (done todo : path) (t : gmap path node) e :
  fst (mkdir_parts done todo t) = Raise e ->
  e = FileExistsError \/ e = NotADirectoryError.
Proof.
  revert done t; induction todo as [|x r IH]; intros done t; simpl; [discriminate|].
  destruct (lookup_node t (done ++ [x])) as [[f|]|]; simpl; [|apply IH..].
  intros [= <-]. destruct r; auto.
Qed.

Lemma mkdir_parts_target (done todo : path) (t : gmap path node) :
  fst (mkdir_parts done todo t) = Ok tt -> todo <> [] ->
  snd (mkdir_parts done todo t) !! (done ++ todo) = Some Dir.
Proof.
  revert done t; induction todo as [|x r IH]; intros done t; simpl; [congruence|].
  rewrite lookup_node_snoc. intros H _.
  destruct (t !! (done ++ [x])) as [[f|]|] eqn:E; simpl in *; [discriminate| |].
  - destruct r as [|y r]; [exact E|].
    change (done ++ x :: y :: r) with (done ++ [x] ++ y :: r). rewrite app_assoc.
    apply IH; [exact H|discriminate].
  - destruct r as [|y r]; [simpl; apply lookup_insert_eq|].
    change (done ++ x :: y :: r) with (done ++ [x] ++ y :: r). rewrite app_assoc.
    apply IH; [exact H|discriminate].
Qed.

Lemma mkdir_parts_same_files (done todo : path) (t : gmap path node) k f :
  snd (mkdir_parts done todo t) !! k = Some (Reg f) <-> t !! k = Some (Reg f).
Proof.
  split; [apply mkdir_parts_reg|].
  intros H. eapply lookup_weaken; [exact H|apply mkdir_parts_incl].
Qed.

(** One default file is written, or found in place, once [core] is there. *)
Lemma seed_in_core root rel x content t c :
  Py.startswith rel "/" = false -> parts_of rel = ["core"; x] -> x <> ".." ->
  Nat.ltb NAME_MAX (String.length x) = false ->
  (forall m, m <> [] -> m `prefix_of` resolve root ++ ["core"] ->
     lookup_node t m = Some Dir) ->
  exists t',
    Workspace.seed (joinpath root rel) content (State t c) = (Ok tt, State t' c)
    /\ t ⊆ t' /\ is_Some (t' !! (resolve root ++ ["core"; x])).
Proof.
  intros Hs Hx Hxd Hshort Hdirs.
  assert (Hd : t !! (resolve root ++ ["core"]) = Some Dir).
  { specialize (Hdirs (resolve root ++ ["core"])).
    destruct (resolve root); apply Hdirs; (discriminate || reflexivity). }
  assert (J : resolve (joinpath root rel) = resolve root ++ ["core"; x]).
  { rewrite resolve_join, Hx; [reflexivity|assumption|].
    rewrite Hx. repeat constructor; [discriminate|assumption]. }
  assert (L : forall u, lookup_node u (resolve root ++ ["core"; x])
                        = u !! (resolve root ++ ["core"; x])).
  { intros u. now destruct (resolve root). }
  rewrite seed_run. cbn [tree clock]. rewrite J, L.
  destruct (t !! (resolve root ++ ["core"; x])) as [v|] eqn:E.
  - exists t. split; [reflexivity|]. split; [reflexivity|]. rewrite E. eauto.
  - change (resolve root ++ ["core"; x]) with (resolve root ++ ["core"] ++ [x]).
    rewrite app_assoc, (refused_short_last _ _ _ Hdirs Hshort).
    rewrite removelast_app by discriminate. cbn [removelast]. rewrite app_nil_r.
    replace (lookup_node t (resolve root ++ ["core"])) with (Some Dir)
      by (symmetry; destruct (resolve root); exact Hd).
    eexists. split; [reflexivity|]. split.
    + apply insert_subseteq. now rewrite <- app_assoc.
    + rewrite lookup_insert_eq. eauto.
Qed.

Lemma seeds_in_core root (l : list (string * string)) t c :
  Forall (fun d => Py.startswith (fst d) "/" = false
                   /\ exists x, parts_of (fst d) = ["core"; x] /\ x <> ".."
                                /\ Nat.ltb NAME_MAX (String.length x) = false) l ->
  (forall m, m <> [] -> m `prefix_of` resolve root ++ ["core"] ->
     lookup_node t m = Some Dir) ->
  exists t',
    foldM (fun _ d => Workspace.seed (joinpath root (fst d)) (snd d)) l tt (State t c)
    = (Ok tt, State t' c)
    /\ t ⊆ t'
    /\ forall d, In d l -> is_Some (t' !! (resolve root ++ parts_of (fst d))).
Proof.
  intros Hl. revert t.
  induction Hl as [|d l (Hs & x & Hx & Hxd & Hshort) Hl IH]; intros t D0.
  - exists t. split; [reflexivity|]. split; [reflexivity|]. intros d [].
  - destruct (seed_in_core root (fst d) x (snd d) t c Hs Hx Hxd Hshort D0)
      as (t1 & E1 & S1 & I1).
    cbn [foldM]. unfold bind at 1. rewrite E1.
    destruct (IH t1) as (t2 & E2 & S2 & I2).
    { intros m Hm Hp. eapply lookup_node_weaken; [now apply D0|exact S1]. }
    exists t2. split; [exact E2|]. split; [etransitivity; eassumption|].
    intros d' [<-|Hd]; [|now apply I2].
    rewrite Hx. eapply lookup_weaken_is_Some; eassumption.
Qed.

Lemma default_files_in_core :
  Forall (fun d => Py.startswith (fst d) "/" = false
                   /\ exists x, parts_of (fst d) = ["core"; x] /\ x <> ".."
                                /\ Nat.ltb NAME_MAX (String.length x) = false)
    Workspace.DEFAULT_CORE_FILES.
Proof.
  repeat constructor; cbn [fst]; eexists;
    (split; [reflexivity|split; [discriminate|reflexivity]]).
Qed.

Lemma ensure_run root s :
  let r := resolve root in
  let t1 := snd (mkdir_parts [] r (tree s)) in
  let t2 := snd (mkdir_parts [] (r ++ ["core"]) t1) in
  let t3 := snd (mkdir_parts [] (r ++ ["agents"]) t2) in
  Workspace.ensure root s
  = match fst (mkdir_parts [] r (tree s)) with
    | Raise e => (Raise e, State t1 (clock s))
    | Ok _ =>
        match fst (mkdir_parts [] (r ++ ["core"]) t1) with
        | Raise e => (Raise e, State t2 (clock s))
        | Ok _ =>
            match fst (mkdir_parts [] (r ++ ["agents"]) t2) with
            | Raise e => (Raise e, State t3 (clock s))
            | Ok _ =>
                foldM (fun _ d => Workspace.seed (joinpath root (fst d)) (snd d))
                      Workspace.DEFAULT_CORE_FILES tt (State t3 (clock s))
            end
        end
    end.
Proof.
  intros r t1 t2 t3.
  assert (J1 : resolve (joinpath root Workspace.CORE_DIR) = r ++ ["core"]).
  { apply resolve_join; [reflexivity|]. repeat constructor; discriminate. }
  assert (J2 : resolve (joinpath root Workspace.AGENTS_DIR) = r ++ ["agents"]).
  { apply resolve_join; [reflexivity|]. repeat constructor; discriminate. }
  rewrite ensure_eq. unfold bind at 1. rewrite mkdir_run. fold r t1.
  destruct (fst (mkdir_parts [] r (tree s))) as [[]|e]; [|reflexivity].
  unfold bind at 1. rewrite mkdir_run. cbn [tree clock]. rewrite J1. fold t2.
  destruct (fst (mkdir_parts [] (r ++ ["core"]) t1)) as [[]|e]; [|reflexivity].
  unfold bind at 1. rewrite mkdir_run. cbn [tree clock]. rewrite J2. fold t3.
  destruct (fst (mkdir_parts [] (r ++ ["agents"]) t2)) as [[]|e]; reflexivity.
Qed.

(** [ensure] succeeds exactly when no regular file stands where it needs a
    directory: at the root, at a directory above the root, at [core] or at
    [agents].  When one does, the call raises [FileExistsError] or
    [NotADirectoryError].  When it succeeds, the root, [core] and [agents]
    are directories and something exists at each of the four default paths
    (what was there before, whatever it is, or the default file). *)
Theorem ensure_succeeds_iff_room (root : path) (s : state) :
  let after := tree (snd (Workspace.ensure root s)) in
  (room_for_directories root (tree s) <-> fst (Workspace.ensure root s) = Ok tt)
  /\ (forall e, fst (Workspace.ensure root s) = Raise e ->
        e = FileExistsError \/ e = NotADirectoryError)
  /\ (fst (Workspace.ensure root s) = Ok tt ->
      lookup_node after (resolve root) = Some Dir
      /\ after !! (resolve root ++ [Workspace.CORE_DIR]) = Some Dir
      /\ after !! (resolve root ++ [Workspace.AGENTS_DIR]) = Some Dir
      /\ forall d, In d Workspace.DEFAULT_CORE_FILES ->
           is_Some (after !! (resolve root ++ parts_of (fst d)))).
Proof.
  intros after. subst after. rewrite ensure_run.
  set (r := resolve root).
  set (t1 := snd (mkdir_parts [] r (tree s))).
  set (t2 := snd (mkdir_parts [] (r ++ ["core"]) t1)).
  set (t3 := snd (mkdir_parts [] (r ++ ["agents"]) t2)).
  change Workspace.CORE_DIR with "core". change Workspace.AGENTS_DIR with "agents".
  pose proof (mkdir_parts_fst [] r (tree s)) as F1.
  pose proof (mkdir_parts_fst [] (r ++ ["core"]) t1) as F2.
  pose proof (mkdir_parts_fst [] (r ++ ["agents"]) t2) as F3.
  cbn [app] in F1, F2, F3.
  assert (R1 : forall k f, t1 !! k = Some (Reg f) <-> tree s !! k = Some (Reg f))
    by (intros; apply mkdir_parts_same_files).
  assert (R2 : forall k f, t2 !! k = Some (Reg f) <-> tree s !! k = Some (Reg f)).
  { intros. unfold t2. now rewrite mkdir_parts_same_files. }
  destruct (fst (mkdir_parts [] r (tree s))) as [[]|e1] eqn:O1.
  2:{ split; [|split].
      - split; [|discriminate]. intros Hroom. exfalso.
        assert (G : Raise e1 = Ok tt); [|discriminate].
        apply F1. intros m f Hm Hp. apply Hroom. left. now split.
      - intros e [= <-]. now apply mkdir_parts_error in O1.
      - discriminate. }
  destruct (fst (mkdir_parts [] (r ++ ["core"]) t1)) as [[]|e2] eqn:O2.
  2:{ split; [|split].
      - split; [|discriminate]. intros Hroom. exfalso.
        assert (G : Raise e2 = Ok tt); [|discriminate].
        apply F2. intros m f Hm Hp. rewrite R1. apply Hroom.
        apply prefix_snoc_cases in Hp as [Hp| ->]; [left; now split|right; now left].
      - intros e [= <-]. now apply mkdir_parts_error in O2.
      - discriminate. }
  destruct (fst (mkdir_parts [] (r ++ ["agents"]) t2)) as [[]|e3] eqn:O3.
  2:{ split; [|split].
      - split; [|discriminate]. intros Hroom. exfalso.
        assert (G : Raise e3 = Ok tt); [|discriminate].
        apply F3. intros m f Hm Hp. rewrite R2. apply Hroom.
        apply prefix_snoc_cases in Hp as [Hp| ->]; [left; now split|right; now right].
      - intros e [= <-]. now apply mkdir_parts_error in O3.
      - discriminate. }
  assert (S12 : t1 ⊆ t2) by apply mkdir_parts_incl.
  assert (S23 : t2 ⊆ t3) by apply mkdir_parts_incl.
  assert (D2 : t2 !! (r ++ ["core"]) = Some Dir).
  { apply (mkdir_parts_target [] (r ++ ["core"]) t1 O2). now destruct r. }
  assert (D3 : t3 !! (r ++ ["agents"]) = Some Dir).
  { apply (mkdir_parts_target [] (r ++ ["agents"]) t2 O3). now destruct r. }
  assert (D1 : lookup_node t1 r = Some Dir).
  { destruct r as [|x r'] eqn:Er; [reflexivity|].
    apply (mkdir_parts_target [] (x :: r') (tree s) O1). discriminate. }
  destruct (seeds_in_core root _ t3 (clock s) default_files_in_core)
    as (t4 & E4 & S34 & I4).
  { intros m Hm Hp. eapply lookup_node_weaken; [|exact S23].
    pose proof (mkdir_parts_dirs [] (r ++ ["core"]) t1 O2 m Hm Hp) as G.
    cbn [app] in G. fold t2 in G. now destruct m. }
  fold r in E4, I4. rewrite E4. cbn [fst snd tree].
  split; [|split].
  - split; [reflexivity|]. intros _ k f Hk Hreg.
    destruct Hk as [[Hne Hp]|[->| ->]].
    + exact (proj1 F1 eq_refl k f Hne Hp Hreg).
    + apply (proj1 F2 eq_refl (r ++ ["core"]) f); [now destruct r|reflexivity|].
      now apply R1.
    + apply (proj1 F3 eq_refl (r ++ ["agents"]) f); [now destruct r|reflexivity|].
      now apply R2.
  - discriminate.
  - intros _. split; [|split; [|split]].
    + eapply lookup_node_weaken; [exact D1|].
      do 2 (etransitivity; [eassumption|]). assumption.
    + eapply lookup_weaken; [exact D2|]. etransitivity; eassumption.
    + eapply lookup_weaken; [exact D3|]. assumption.
    + exact I4.
Qed.

Lemma ensure_succeeds_iff_room_witness :
  let root := ["srv"; "ws"] in
  let s := State {[ ["srv"] := Dir; ["srv"; "ws"] := Dir;
                    ["srv"; "ws"; "core"] := Reg (File "not a directory" 0 true) ]} 0 in
  fst (Workspace.ensure root s) = Raise FileExistsError
  /\ ~ room_for_directories root (tree s).
Proof.
  intros root s.
  assert (H : fst (Workspace.ensure root s) = Raise FileExistsError)
    by (vm_compute; reflexivity).
  split; [exact H|]. intros Hroom.
  apply (proj1 (ensure_succeeds_iff_room root s)) in Hroom. congruence.
Defined.

(** ** The routes of [web.py] *)

Lemma world_eta w : Web.World (Web.files w) (Web.notifier w) = w.
Proof. now destruct w. Qed.

Lemma state_eta s : State (tree s) (clock s) = s.
Proof. now destruct s. Qed.

(** A read-only computation, run in the world. *)
Lemma web_fs_keeps {A} (m : M A) w :
  keeps m ->
  Web.fs m w
  = (match fst (m (Web.files w)) with
     | Ok a => Web.Returned a
     | Raise e => Web.Failed (Web.Uncaught e)
     end, w).
Proof.
  intros H. unfold Web.fs. rewrite (keeps_run m (Web.files w) H).
  destruct (fst (m (Web.files w))); cbn [fst snd]; now rewrite world_eta.
Qed.

Lemma web_bind_returned {A B} (m : Web.R A) (k : A -> Web.R B) a w w' :
  m w = (Web.Returned a, w') -> Web.bind m k w = k a w'.
Proof. intros H. unfold Web.bind. now rewrite H. Qed.

Lemma web_bind_failed {A B} (m : Web.R A) (k : A -> Web.R B) f w w' :
  m w = (Web.Failed f, w') -> Web.bind m k w = (Web.Failed f, w').
Proof. intros H. unfold Web.bind. now rewrite H. Qed.

Lemma web_resolve_safe_run root rel w :
  Web.resolve_safe root rel w
  = (match Workspace.resolve_safe root rel with
     | Ok p => Web.Returned p
     | Raise e => Web.Failed (Web.Uncaught e)
     end, w).
Proof. unfold Web.resolve_safe. now rewrite web_fs_keeps by apply keeps_lift. Qed.

Lemma web_exists_run p w :
  Web.fs (exists_ p) w
  = (match lookup_node (tree (Web.files w)) (resolve p) with
     | Some _ => Web.Returned true
     | None =>
         if refused (tree (Web.files w)) [] (resolve p)
         then Web.Failed (Web.Uncaught (OSError "ENAMETOOLONG"))
         else Web.Returned false
     end, w).
Proof.
  rewrite web_fs_keeps by apply keeps_exists. rewrite exists_run. cbn [fst].
  destruct (lookup_node _ _); [reflexivity|]. now destruct (refused _ _ _).
Qed.

Lemma web_is_file_run p w :
  Web.fs (is_file p) w
  = (match lookup_node (tree (Web.files w)) (resolve p) with
     | Some (Reg _) => Web.Returned true
     | Some Dir => Web.Returned false
     | None =>
         if refused (tree (Web.files w)) [] (resolve p)
         then Web.Failed (Web.Uncaught (OSError "ENAMETOOLONG"))
         else Web.Returned false
     end, w).
Proof.
  rewrite web_fs_keeps by apply keeps_is_file. rewrite is_file_run. cbn [fst].
  destruct (lookup_node _ _) as [[f|]|]; try reflexivity. now destruct (refused _ _ _).
Qed.

(** What [resolve_safe] does with a path, in three cases. *)
Lemma resolve_safe_cases root rel :
  (existsb Py.has_nul root || Py.has_nul rel = true
   /\ Workspace.resolve_safe root rel = Raise (ValueError "embedded null byte"))
  \/ (existsb Py.has_nul root || Py.has_nul rel = false
      /\ ~ inside root (target root rel)
      /\ Workspace.resolve_safe root rel = Raise (ValueError "Path traversal blocked"))
  \/ (existsb Py.has_nul root || Py.has_nul rel = false
      /\ inside root (target root rel)
      /\ Workspace.resolve_safe root rel = Ok (target root rel)).
Proof.
  rewrite resolve_safe_eq. unfold inside.
  destruct (existsb Py.has_nul root || Py.has_nul rel); [now left|right].
  destruct (bool_decide_reflect (resolve root `prefix_of` target root rel)); auto.
Qed.





Lemma web_read_text_run p w :
  Web.fs (read_text p) w
  = (match lookup_node (tree (Web.files w)) (resolve p) with
     | Some (Reg f) =>
         match text_of f with
         | Ok text => Web.Returned text
         | Raise e => Web.Failed (Web.Uncaught e)
         end
     | Some Dir => Web.Failed (Web.Uncaught IsADirectoryError)
     | None => Web.Failed (Web.Uncaught FileNotFoundError)
     end, w).
Proof.
  rewrite web_fs_keeps by apply keeps_read_text. rewrite read_text_run. cbn [fst].
  destruct (lookup_node _ _) as [[f|]|]; try reflexivity.
Qed.

Lemma resolve_safe_ok root rel p :
  Workspace.resolve_safe root rel = Ok p ->
  resolve p = p /\ inside root p.
Proof.
  destruct (resolve_safe_cases root rel) as [[_ E]|[(_ & _ & E)|(_ & Hin & E)]];
    rewrite E; try discriminate.
  intros [= <-]. split; [unfold target; apply resolve_idempotent|assumption].
Qed.

Lemma read_file_run root path w :
  Web.read_file root path w
  = (match Workspace.resolve_safe root path with
     | Raise e => Web.Failed (Web.Uncaught e)
     | Ok full =>
         match lookup_node (tree (Web.files w)) full with
         | Some (Reg f) =>
             match text_of f with
             | Ok text => Web.Returned (content_of text)
             | Raise e => Web.Failed (Web.Uncaught e)
             end
         | Some Dir => Web.Failed (Web.HTTPException 404 "File not found")
         | None =>
             if refused (tree (Web.files w)) [] full
             then Web.Failed (Web.Uncaught (OSError "ENAMETOOLONG"))
             else Web.Failed (Web.HTTPException 404 "File not found")
         end
     end, w).
Proof.
  unfold Web.read_file.
  destruct (Workspace.resolve_safe root path) as [full|e] eqn:E.
  - rewrite (web_bind_returned _ _ full w w) by (now rewrite web_resolve_safe_run, E).
    destruct (resolve_safe_ok _ _ _ E) as [Hc _].
    destruct (lookup_node (tree (Web.files w)) full) as [[f|]|] eqn:L.
    + rewrite (web_bind_returned _ _ true w w) by (now rewrite web_exists_run, Hc, L).
      rewrite (web_bind_returned _ _ true w w) by (now rewrite web_is_file_run, Hc, L).
      cbn [negb orb].
      unfold Web.bind. rewrite web_read_text_run, Hc, L.
      destruct (text_of f); reflexivity.
    + rewrite (web_bind_returned _ _ true w w) by (now rewrite web_exists_run, Hc, L).
      rewrite (web_bind_returned _ _ false w w) by (now rewrite web_is_file_run, Hc, L).
      reflexivity.
    + destruct (refused (tree (Web.files w)) [] full) eqn:R.
      * apply web_bind_failed. now rewrite web_exists_run, Hc, L, R.
      * rewrite (web_bind_returned _ _ false w w) by (now rewrite web_exists_run, Hc, L, R).
        rewrite (web_bind_returned _ _ false w w) by reflexivity. reflexivity.
  - apply web_bind_failed. now rewrite web_resolve_safe_run, E.
Qed.



Lemma resolve_plain p : Forall (fun x => x <> "..") p -> resolve p = p.
Proof. intros H. unfold resolve. now rewrite fold_resolve_plain. Qed.

Lemma removelast_clean (p : path) :
  Forall (fun x => x <> "..") p -> Forall (fun x => x <> "..") (removelast p).
Proof.
  intros H. destruct (decide (p = [])) as [->|Hne]; [constructor|].
  rewrite (app_removelast_last "" Hne) in H. now apply Forall_app in H as [H _].
Qed.

Lemma resolve_parent p : resolve p = p -> resolve (removelast p) = removelast p.
Proof.
  intros H. apply resolve_plain, removelast_clean. rewrite <- H. apply resolve_clean.
Qed.

Lemma web_mkdir_run p w :
  Web.fs (mkdir p) w
  = (match fst (mkdir_parts [] (resolve p) (tree (Web.files w))) with
     | Ok a => Web.Returned a
     | Raise e => Web.Failed (Web.Uncaught e)
     end,
     Web.World (State (snd (mkdir_parts [] (resolve p) (tree (Web.files w))))
                  (clock (Web.files w)))
       (Web.notifier w)).
Proof.
  unfold Web.fs. rewrite mkdir_run.
  destruct (fst (mkdir_parts _ _ _)); reflexivity.
Qed.

(** After [mkdir], the directory is there. *)
Lemma mkdir_parts_made (p : path) (t : gmap path node) :
  fst (mkdir_parts [] p t) = Ok tt ->
  lookup_node (snd (mkdir_parts [] p t)) p = Some Dir.
Proof.
  intros H. destruct p as [|x p]; [reflexivity|].
  apply (mkdir_parts_target [] (x :: p) t H). discriminate.
Qed.

Lemma write_file_run root failing payload w :
  Web.write_file root failing payload w
  = match Workspace.resolve_safe root (Web.file_path payload) with
    | Raise e => (Web.Failed (Web.Uncaught e), w)
    | Ok full =>
        let t := tree (Web.files w) in
        let c := clock (Web.files w) in
        let t1 := snd (mkdir_parts [] (removelast full) t) in
        let written f :=
          (Web.Returned Web.status_ok,
           Web.World (State (<[full := Reg f]> t1) c)
             (Notifications.broadcast_list_changed failing (Web.notifier w))) in
        match fst (mkdir_parts [] (removelast full) t) with
        | Raise e => (Web.Failed (Web.Uncaught e), Web.World (State t1 c) (Web.notifier w))
        | Ok _ =>
            match lookup_node t1 full with
            | Some Dir =>
                (Web.Failed (Web.Uncaught IsADirectoryError),
                 Web.World (State t1 c) (Web.notifier w))
            | Some (Reg f) => written (File (Web.file_content payload) c (readable f))
            | None => written (File (Web.file_content payload) c true)
            end
        end
    end.
Proof.
  unfold Web.write_file.
  destruct (Workspace.resolve_safe root (Web.file_path payload)) as [full|e] eqn:E.
  2:{ apply web_bind_failed. now rewrite web_resolve_safe_run, E. }
  rewrite (web_bind_returned _ _ full w w) by (now rewrite web_resolve_safe_run, E).
  destruct (resolve_safe_ok _ _ _ E) as [Hc _].
  cbv zeta. unfold Web.bind at 1. rewrite web_mkdir_run, (resolve_parent _ Hc).
  destruct (fst (mkdir_parts [] (removelast full) (tree (Web.files w)))) as [[]|e] eqn:O;
    [|reflexivity].
  pose proof (mkdir_parts_made _ _ O) as Hd.
  set (t1 := snd (mkdir_parts [] (removelast full) (tree (Web.files w)))) in *.
  unfold Web.bind at 1. unfold Web.fs at 1. unfold write_text.
  cbn [Web.files Web.notifier tree clock]. rewrite Hc.
  destruct (lookup_node t1 full) as [[f|]|]; try reflexivity.
  rewrite Hd. reflexivity.
Qed.

Lemma universal_newlines_plain s :
  occurs (String Py.CR "") s = false -> Py.universal_newlines s = s.
Proof.
  induction s as [|c s IH]; [reflexivity|].
  cbn [occurs]. rewrite prefix_cons, prefix_nil, andb_true_r. intros H.
  apply orb_false_elim in H as [Hc Hs]. cbn [Py.universal_newlines].
  rewrite Ascii.eqb_sym, Hc. now rewrite (IH Hs).
Qed.

(** What is written can be read back.  When [write_file] returns, the
    file at the path holds the bytes of the content and the time of the
    write, both list-changed events have been broadcast, and, the file being
    readable and the content valid UTF-8, [read_file] on the same path
    returns the content with every ["\r\n"] and ["\r"] turned into ["\n"]:
    the content itself when it holds no carriage return. *)
Theorem write_file_then_read_file (root : path)
    (failing : Notifications.channel -> bool) (payload : Web.FilePayload)
    (w w' : Web.world) (r : json) :
  Web.write_file root failing payload w = (Web.Returned r, w') ->
  exists f,
    r = JDict [("status", JStr "ok")]
    /\ inside root (target root (Web.file_path payload))
    /\ lookup_node (tree (Web.files w')) (target root (Web.file_path payload))
       = Some (Reg f)
    /\ content f = Web.file_content payload
    /\ mtime f = clock (Web.files w)
    /\ Web.notifier w'
       = Notifications.broadcast_list_changed failing (Web.notifier w)
    /\ (readable f = true ->
        Py.valid_utf8 (Web.file_content payload) = true ->
        Web.read_file root (Web.file_path payload) w'
        = (Web.Returned
             (JDict [("content",
                      JStr (Py.universal_newlines (Web.file_content payload)))]), w')
        /\ (occurs (String Py.CR "") (Web.file_content payload) = false ->
            Web.read_file root (Web.file_path payload) w'
            = (Web.Returned (JDict [("content", JStr (Web.file_content payload))]),
               w'))).
Proof.
  rewrite write_file_run, read_file_run.
  destruct (Workspace.resolve_safe root (Web.file_path payload)) as [full|e] eqn:E;
    [|discriminate].
  pose proof E as E'.
  destruct (resolve_safe_cases root (Web.file_path payload))
    as [[_ E0]|[(_ & _ & E0)|(_ & Hin & E0)]]; rewrite E0 in E'; try discriminate.
  unfold inside in Hin.
  injection E' as E'. rewrite E'. cbv zeta.
  destruct (fst (mkdir_parts [] (removelast full) (tree (Web.files w)))) as [[]|e];
    [|discriminate].
  set (t1 := snd (mkdir_parts [] (removelast full) (tree (Web.files w)))).
  assert (G : forall f0,
             full <> [] ->
             (Web.Returned Web.status_ok,
              Web.World (State (<[full := Reg f0]> t1) (clock (Web.files w)))
                (Notifications.broadcast_list_changed failing (Web.notifier w)))
             = (Web.Returned r, w') ->
             content f0 = Web.file_content payload -> mtime f0 = clock (Web.files w) ->
             exists f,
               r = JDict [("status", JStr "ok")] /\ inside root full
               /\ lookup_node (tree (Web.files w')) full = Some (Reg f)
               /\ content f = Web.file_content payload
               /\ mtime f = clock (Web.files w)
               /\ Web.notifier w'
                  = Notifications.broadcast_list_changed failing (Web.notifier w)
               /\ (readable f = true ->
                   Py.valid_utf8 (Web.file_content payload) = true ->
                   (match lookup_node (tree (Web.files w')) full with
                    | Some (Reg f) =>
                        match text_of f with
                        | Ok text => Web.Returned (content_of text)
                        | Raise e => Web.Failed (Web.Uncaught e)
                        end
                    | Some Dir => Web.Failed (Web.HTTPException 404 "File not found")
                    | None =>
                        if refused (tree (Web.files w')) [] full
                        then Web.Failed (Web.Uncaught (OSError "ENAMETOOLONG"))
                        else Web.Failed (Web.HTTPException 404 "File not found")
                    end, w')
                   = (Web.Returned
                        (JDict [("content",
                                 JStr (Py.universal_newlines (Web.file_content payload)))]),
                      w')
                   /\ (occurs (String Py.CR "") (Web.file_content payload) = false ->
                       (match lookup_node (tree (Web.files w')) full with
                        | Some (Reg f) =>
                            match text_of f with
                            | Ok text => Web.Returned (content_of text)
                            | Raise e => Web.Failed (Web.Uncaught e)
                            end
                        | Some Dir =>
                            Web.Failed (Web.HTTPException 404 "File not found")
                        | None =>
                            if refused (tree (Web.files w')) [] full
                            then Web.Failed (Web.Uncaught (OSError "ENAMETOOLONG"))
                            else Web.Failed (Web.HTTPException 404 "File not found")
                        end, w')
                       = (Web.Returned
                            (JDict [("content", JStr (Web.file_content payload))]), w')))).
  { intros f0 Hne [= <- <-] Hcont Hmt. exists f0. cbn [Web.files Web.notifier tree].
    assert (L : lookup_node (<[full := Reg f0]> t1) full = Some (Reg f0)).
    { destruct full; [congruence|]. apply lookup_insert_eq. }
    rewrite L. split; [reflexivity|]. split; [rewrite <- E'; exact Hin|].
    split; [reflexivity|]. split; [exact Hcont|]. split; [exact Hmt|].
    split; [reflexivity|]. intros Hr Hv.
    assert (T : text_of f0 = Ok (Py.universal_newlines (Web.file_content payload))).
    { unfold text_of, Py.decode_utf8. now rewrite Hr, Hcont, Hv. }
    rewrite T. split; [reflexivity|]. intros Hcr.
    now rewrite (universal_newlines_plain _ Hcr). }
  destruct (lookup_node t1 full) as [[f|]|] eqn:L; [| discriminate |].
  - intros H. apply (G _ (ltac:(intros ->; discriminate L)) H); reflexivity.
  - intros H. apply (G _ (ltac:(intros ->; discriminate L)) H); reflexivity.
Qed.

Lemma write_file_then_read_file_witness :
  let root := ["srv"; "ws"] in
  let failing := fun c => Nat.eqb c 2 in
  let payload := {| Web.file_path := "agents/review/python.md";
                    Web.file_content := "# Review" +:+ Py.nl |} in
  let w := Web.World (snd (Workspace.ensure root (State ∅ 5)))
             (Notifications.Notifier {[ 1%nat ]} []) in
  exists w',
    Web.write_file root failing payload w = (Web.Returned Web.status_ok, w')
    /\ Web.read_file root "agents/review/python.md" w'
       = (Web.Returned (JDict [("content", JStr ("# Review" +:+ Py.nl))]), w').
Proof.
  intros root failing payload w.
  destruct (Web.write_file root failing payload w) as [r w'] eqn:E.
  assert (Hr : r = Web.Returned Web.status_ok).
  { apply (f_equal fst) in E. cbn [fst] in E. rewrite <- E. vm_compute. reflexivity. }
  subst r. exists w'. split; [reflexivity|].
  destruct (write_file_then_read_file root failing payload w w' _ E)
    as (f & _ & _ & Hl & Hc & _ & _ & Hread).
  assert (Hf : readable f = true).
  { assert (G : match lookup_node (tree (Web.files w'))
                        (target root (Web.file_path payload)) with
                | Some (Reg g) => readable g
                | _ => false
                end = true).
    { apply (f_equal snd) in E. cbn [snd] in E. rewrite <- E. vm_compute. reflexivity. }
    now rewrite Hl in G. }
  exact (proj2 (Hread Hf eq_refl) eq_refl).
Defined.

Lemma delete_file_run root failing path w :
  Web.delete_file root failing path w
  = match Workspace.resolve_safe root path with
    | Raise e => (Web.Failed (Web.Uncaught e), w)
    | Ok full =>
        match lookup_node (tree (Web.files w)) full with
        | Some (Reg _) =>
            (Web.Returned Web.status_ok,
             Web.World (State (delete full (tree (Web.files w))) (clock (Web.files w)))
               (Notifications.broadcast_list_changed failing (Web.notifier w)))
        | Some Dir => (Web.Returned Web.status_ok, w)
        | None =>
            if refused (tree (Web.files w)) [] full
            then (Web.Failed (Web.Uncaught (OSError "ENAMETOOLONG")), w)
            else (Web.Returned Web.status_ok, w)
        end
    end.
Proof.
  unfold Web.delete_file.
  destruct (Workspace.resolve_safe root path) as [full|e] eqn:E.
  2:{ apply web_bind_failed. now rewrite web_resolve_safe_run, E. }
  rewrite (web_bind_returned _ _ full w w) by (now rewrite web_resolve_safe_run, E).
  destruct (resolve_safe_ok _ _ _ E) as [Hc _].
  destruct (lookup_node (tree (Web.files w)) full) as [[f|]|] eqn:L.
  - rewrite (web_bind_returned _ _ true w w) by (now rewrite web_exists_run, Hc, L).
    rewrite (web_bind_returned _ _ true w w) by (now rewrite web_is_file_run, Hc, L).
    cbn [andb]. unfold Web.bind, Web.os, Web.unlink. rewrite Hc, L. reflexivity.
  - rewrite (web_bind_returned _ _ true w w) by (now rewrite web_exists_run, Hc, L).
    rewrite (web_bind_returned _ _ false w w) by (now rewrite web_is_file_run, Hc, L).
    reflexivity.
  - destruct (refused (tree (Web.files w)) [] full) eqn:R.
    + apply web_bind_failed. now rewrite web_exists_run, Hc, L, R.
    + rewrite (web_bind_returned _ _ false w w) by (now rewrite web_exists_run, Hc, L, R).
      rewrite (web_bind_returned _ _ false w w) by reflexivity. reflexivity.
Qed.



Lemma create_folder_run root failing payload w :
  Web.create_folder root failing payload w
  = match Workspace.resolve_safe root (Web.folder_path payload) with
    | Raise e => (Web.Failed (Web.Uncaught e), w)
    | Ok full =>
        let made := mkdir_parts [] full (tree (Web.files w)) in
        match fst made with
        | Raise e =>
            (Web.Failed (Web.Uncaught e),
             Web.World (State (snd made) (clock (Web.files w))) (Web.notifier w))
        | Ok _ =>
            (Web.Returned Web.status_ok,
             Web.World (State (snd made) (clock (Web.files w)))
               (Notifications.broadcast_list_changed failing (Web.notifier w)))
        end
    end.
Proof.
  unfold Web.create_folder.
  destruct (Workspace.resolve_safe root (Web.folder_path payload)) as [full|e] eqn:E.
  2:{ apply web_bind_failed. now rewrite web_resolve_safe_run, E. }
  rewrite (web_bind_returned _ _ full w w) by (now rewrite web_resolve_safe_run, E).
  destruct (resolve_safe_ok _ _ _ E) as [Hc _].
  cbv zeta. unfold Web.bind at 1. rewrite web_mkdir_run, Hc.
  destruct (fst (mkdir_parts [] full (tree (Web.files w)))) as [[]|e]; reflexivity.
Qed.



(** ** The order of paths and [sorted(..., reverse=True)] *)

Lemma path_leb_refl p : Web.path_leb p p = true.
Proof. induction p as [|x p IH]; simpl; [reflexivity|]. now rewrite String.eqb_refl. Qed.

Lemma path_leb_prefix (p q : path) : p `prefix_of` q -> Web.path_leb p q = true.
Proof.
  intros [m ->]. induction p as [|x p IH]; simpl; [reflexivity|].
  now rewrite String.eqb_refl.
Qed.

Lemma path_leb_antisym (p q : path) :
  Web.path_leb p q = true -> Web.path_leb q p = true -> p = q.
Proof.
  revert q; induction p as [|x p IH]; intros [|y q]; simpl; try easy.
  destruct (String.eqb_spec x y) as [->|Hne].
  - rewrite String.eqb_refl. intros H1 H2. f_equal. now apply IH.
  - destruct (String.eqb_spec y x) as [->|_]; [congruence|].
    intros H1 H2. destruct Hne. now apply String.leb_antisym.
Qed.

Lemma path_leb_total (p q : path) :
  Web.path_leb p q = true \/ Web.path_leb q p = true.
Proof.
  revert q; induction p as [|x p IH]; intros [|y q]; simpl; auto.
  destruct (String.eqb_spec x y) as [->|Hne].
  - rewrite String.eqb_refl. apply IH.
  - destruct (String.eqb_spec y x) as [->|_]; [congruence|]. apply String.leb_total.
Qed.

Lemma path_leb_trans (p q r : path) :
  Web.path_leb p q = true -> Web.path_leb q r = true -> Web.path_leb p r = true.
Proof.
  revert q r; induction p as [|x p IH]; intros [|y q] [|z r]; simpl; try easy.
  destruct (String.eqb_spec x y) as [->|Hxy].
  - destruct (String.eqb_spec y z) as [->|Hyz]; [apply IH|auto].
  - destruct (String.eqb_spec y z) as [->|Hyz].
    + intros H _. destruct (String.eqb_spec x z); [congruence|assumption].
    + intros H1 H2. destruct (String.eqb_spec x z) as [->|Hxz].
      * destruct Hxy. now apply String.leb_antisym.
      * exact (leb_trans _ _ _ H1 H2).
Qed.

Lemma insert_reverse_perm x l : Web.insert_reverse x l ≡ₚ x :: l.
Proof.
  induction l as [|y l IH]; simpl; [reflexivity|].
  destruct (Web.path_leb y x); [reflexivity|]. rewrite IH. apply perm_swap.
Qed.

Lemma sorted_reverse_perm l : Web.sorted_reverse l ≡ₚ l.
Proof.
  induction l as [|x l IH]; simpl; [reflexivity|]. now rewrite insert_reverse_perm, IH.
Qed.

Lemma insert_reverse_sorted x l :
  StronglySorted descending l -> StronglySorted descending (Web.insert_reverse x l).
Proof.
  induction 1 as [|y l Hl IH Hy]; simpl.
  - repeat constructor.
  - destruct (Web.path_leb y x) eqn:E.
    + constructor; [now constructor|]. constructor; [exact E|].
      eapply Forall_impl; [exact Hy|]. intros z Hz.
      exact (path_leb_trans _ _ _ Hz E).
    + constructor; [exact IH|]. rewrite insert_reverse_perm.
      constructor; [|exact Hy]. unfold descending.
      destruct (path_leb_total x y); congruence.
Qed.

Lemma sorted_reverse_sorted l : StronglySorted descending (Web.sorted_reverse l).
Proof.
  induction l as [|x l IH]; simpl; [constructor|]. now apply insert_reverse_sorted.
Qed.

(** ** [delete_folder] *)

Lemma has_below_false (t : gmap path node) (q : path) :
  (forall k, is_Some (t !! k) -> below q k = false) -> Web.has_below t q = false.
Proof.
  intros H. unfold Web.has_below.
  destruct (existsb _ _) eqn:E; [|reflexivity].
  apply existsb_exists in E as (k & Hk & Hb).
  apply in_map_iff in Hk as ([k' v] & <- & Hk).
  apply list_elem_of_In, elem_of_map_to_list in Hk. simpl in *.
  rewrite H in Hb by eauto. discriminate.
Qed.

Lemma lookup_node_key (t : gmap path node) (k : path) :
  k <> [] -> lookup_node t k = t !! k.
Proof. now destruct k. Qed.

Lemma remove_child_run child t c n v :
  resolve child = child -> child <> [] -> t !! child = Some v ->
  Web.remove_child child (Web.World (State t c) n)
  = match v with
    | Reg _ => (Web.Returned tt, Web.World (State (delete child t) c) n)
    | Dir =>
        if Web.has_below t child
        then (Web.Failed (Web.Uncaught (OSError "ENOTEMPTY")), Web.World (State t c) n)
        else (Web.Returned tt, Web.World (State (delete child t) c) n)
    end.
Proof.
  intros Hc Hne L. unfold Web.remove_child.
  assert (L' : lookup_node t child = Some v) by now rewrite lookup_node_key.
  destruct v as [f|].
  - rewrite (web_bind_returned _ _ true _ (Web.World (State t c) n))
      by (rewrite web_is_file_run; cbn [Web.files tree]; now rewrite Hc, L').
    unfold Web.os, Web.unlink. cbn [Web.files Web.notifier tree clock].
    now rewrite Hc, L'.
  - rewrite (web_bind_returned _ _ false _ (Web.World (State t c) n))
      by (rewrite web_is_file_run; cbn [Web.files tree]; now rewrite Hc, L').
    unfold Web.os, Web.rmdir. cbn [Web.files Web.notifier tree clock].
    rewrite Hc, L'. rewrite bool_decide_eq_false_2 by assumption.
    now destruct (Web.has_below t child).
Qed.

Lemma lookup_fold_delete (l : list path) (t : gmap path node) k :
  fold_left (fun t k => delete k t) l t !! k
  = if decide (k ∈ l) then None else t !! k.
Proof.
  revert t; induction l as [|x l IH]; intros t; cbn [fold_left].
  - destruct (decide (k ∈ [])) as [H|_]; [now apply elem_of_nil in H|reflexivity].
  - rewrite IH.
    destruct (decide (k ∈ l)) as [Hin|Hout];
      destruct (decide (k ∈ x :: l)) as [Hin'|Hout']; try reflexivity.
    + destruct Hout'. now right.
    + apply elem_of_cons in Hin' as [->|Hin']; [apply lookup_delete_eq|contradiction].
    + apply lookup_delete_ne. intros ->. apply Hout'. now left.
Qed.

(** The loop of [delete_folder]: taken deepest first, every entry goes. *)
Lemma remove_children_run (l : list path) t c n :
  StronglySorted descending l -> NoDup l ->
  (forall k, k ∈ l -> resolve k = k /\ k <> [] /\ is_Some (t !! k)) ->
  (forall x k, x ∈ l -> is_Some (t !! k) -> below x k = true -> k ∈ l) ->
  Web.for_each Web.remove_child l (Web.World (State t c) n)
  = (Web.Returned tt, Web.World (State (fold_left (fun t k => delete k t) l t) c) n).
Proof.
  intros Hs. revert t. induction Hs as [|x l Hl IH Hx]; intros t Hn Hin Hcl.
  - reflexivity.
  - apply NoDup_cons in Hn as [Hxl Hn].
    destruct (Hin x ltac:(now left)) as (Hc & Hne & [v Hv]).
    assert (Hempty : Web.has_below t x = false).
    { apply has_below_false. intros k Hk.
      destruct (below x k) eqn:Hb; [|reflexivity]. exfalso.
      pose proof (Hcl x k ltac:(now left) Hk Hb) as Hkl.
      apply below_spec in Hb as [Hp Hd].
      apply elem_of_cons in Hkl as [->|Hkl]; [congruence|].
      rewrite Forall_forall in Hx. specialize (Hx k Hkl).
      apply Hd. apply path_leb_antisym; [now apply path_leb_prefix|exact Hx]. }
    cbn [Web.for_each].
    assert (E : Web.remove_child x (Web.World (State t c) n)
                = (Web.Returned tt, Web.World (State (delete x t) c) n)).
    { rewrite (remove_child_run _ _ _ _ v) by assumption. rewrite Hempty.
      now destruct v. }
    rewrite (web_bind_returned _ _ _ _ _ E). cbn [fold_left]. apply IH.
    + exact Hn.
    + intros k Hk. destruct (Hin k ltac:(now right)) as (H1 & H2 & H3).
      split; [exact H1|]. split; [exact H2|].
      rewrite lookup_delete_ne; [exact H3|]. intros ->. contradiction.
    + intros y k Hy Hk Hb.
      assert (Hk' : is_Some (t !! k)).
      { destruct (decide (x = k)) as [->|Hd];
          [rewrite lookup_delete_eq in Hk; now destruct Hk|].
        now rewrite lookup_delete_ne in Hk. }
      pose proof (Hcl y k ltac:(now right) Hk' Hb) as Hkl.
      apply elem_of_cons in Hkl as [->|Hkl]; [|exact Hkl].
      rewrite lookup_delete_eq in Hk. now destruct Hk.
Qed.

(** The parts of a canonical path are parts of the path. *)
Lemma In_removelast {A} (x : A) l : In x (removelast l) -> In x l.
Proof.
  induction l as [|a l IH]; [easy|]. destruct l as [|b l]; [easy|].
  cbn [removelast]. intros [->|H]; [now left|right; now apply IH].
Qed.

Lemma fold_resolve_sub p acc x :
  In x (fold_left resolve_step p acc) -> In x acc \/ In x p.
Proof.
  revert acc; induction p as [|y p IH]; intros acc; cbn [fold_left]; [auto|].
  intros H. apply IH in H as [H|H]; [|right; now right].
  unfold resolve_step in H. destruct (String.eqb y "..").
  - left. now apply In_removelast.
  - apply in_app_iff in H as [H|[->|[]]]; [now left|right; now left].
Qed.

Lemma resolve_sub p x : In x (resolve p) -> In x p.
Proof. intros H. now apply fold_resolve_sub in H as [[]|H]. Qed.

Lemma rglob_canonical (full : path) s :
  resolve full = full -> existsb Py.has_nul full = false ->
  rglob full s
  = (Ok (List.filter (below full) (List.map fst (map_to_list (tree s)))), s).
Proof.
  intros Hc Hnul. unfold rglob. rewrite Hc, Hnul. f_equal. f_equal.
  rewrite <- (map_id (List.filter _ _)) at 2. apply map_ext_in.
  intros k Hk. apply filter_In in Hk as [_ Hb].
  apply below_spec in Hb as [[m ->] _]. now rewrite drop_app_length.
Qed.

Lemma below_trans (a b c : path) :
  below a b = true -> below b c = true -> below a c = true.
Proof.
  rewrite !below_spec. intros [Hab Hne] [Hbc Hne']. split.
  - now transitivity b.
  - intros ->. apply Hne. now apply (anti_symm prefix).
Qed.

Lemma elem_of_below_keys (t : gmap path node) (full k : path) :
  k ∈ List.filter (below full) (List.map fst (map_to_list t))
  <-> is_Some (t !! k) /\ below full k = true.
Proof.
  rewrite list_elem_of_In, filter_In, in_map_iff. split.
  - intros [([k' v] & <- & Hk) Hb]. split; [|exact Hb].
    apply list_elem_of_In, elem_of_map_to_list in Hk. eauto.
  - intros [[v Hv] Hb]. split; [|exact Hb]. exists (k, v).
    split; [reflexivity|]. now apply list_elem_of_In, elem_of_map_to_list.
Qed.

Lemma web_is_dir_run p w :
  Web.fs (is_dir p) w
  = (match lookup_node (tree (Web.files w)) (resolve p) with
     | Some Dir => Web.Returned true
     | Some (Reg _) => Web.Returned false
     | None =>
         if refused (tree (Web.files w)) [] (resolve p)
         then Web.Failed (Web.Uncaught (OSError "ENAMETOOLONG"))
         else Web.Returned false
     end, w).
Proof.
  rewrite web_fs_keeps by apply keeps_is_dir. rewrite is_dir_run. cbn [fst].
  destruct (lookup_node _ _) as [[f|]|]; try reflexivity. now destruct (refused _ _ _).
Qed.

Lemma delete_folder_run root failing path w :
  canonical_keys (tree (Web.files w)) -> resolve root <> [] ->
  Web.delete_folder root failing path w
  = match Workspace.resolve_safe root path with
    | Raise e => (Web.Failed (Web.Uncaught e), w)
    | Ok full =>
        match lookup_node (tree (Web.files w)) full with
        | Some Dir =>
            (Web.Returned Web.status_ok,
             Web.World (State (Web.without full (tree (Web.files w)))
                          (clock (Web.files w)))
               (Notifications.broadcast_list_changed failing (Web.notifier w)))
        | Some (Reg _) => (Web.Returned Web.status_ok, w)
        | None =>
            if refused (tree (Web.files w)) [] full
            then (Web.Failed (Web.Uncaught (OSError "ENAMETOOLONG")), w)
            else (Web.Returned Web.status_ok, w)
        end
    end.
Proof.
  intros Hcan Hroot. destruct w as [[t c] n]. cbn [Web.files Web.notifier tree clock] in *.
  destruct (Workspace.resolve_safe root path) as [full|e] eqn:E.
  2:{ unfold Web.delete_folder. apply web_bind_failed.
      now rewrite web_resolve_safe_run, E. }
  destruct (resolve_safe_ok _ _ _ E) as [Hc Hins].
  assert (Hnul : existsb Py.has_nul full = false).
  { pose proof E as E'. rewrite resolve_safe_eq in E'.
    destruct (existsb Py.has_nul root || Py.has_nul path) eqn:Hn; [discriminate|].
    destruct (bool_decide _); [|discriminate]. injection E' as <-.
    apply not_true_is_false. intros G. apply existsb_exists in G as (x & Hx & G).
    unfold target in Hx. apply resolve_sub in Hx.
    assert (G' : existsb Py.has_nul (joinpath root (Py.lstrip_char "/" path)) = true)
      by (apply existsb_exists; eauto).
    rewrite candidate_nul, Hn in G'. discriminate. }
  destruct (lookup_node t full) as [[f|]|] eqn:L.
  - unfold Web.delete_folder.
    rewrite (web_bind_returned _ _ full _ _) by (now rewrite web_resolve_safe_run, E).
    rewrite (web_bind_returned _ _ true _ (Web.World (State t c) n))
      by (rewrite web_exists_run; cbn [Web.files tree]; now rewrite Hc, L).
    rewrite (web_bind_returned _ _ false _ (Web.World (State t c) n))
      by (rewrite web_is_dir_run; cbn [Web.files tree]; now rewrite Hc, L).
    reflexivity.
  - assert (Hne : full <> []).
    { intros ->. apply prefix_nil_inv in Hins. contradiction. }
    unfold Web.delete_folder.
    rewrite (web_bind_returned _ _ full _ _) by (now rewrite web_resolve_safe_run, E).
    rewrite (web_bind_returned _ _ true _ (Web.World (State t c) n))
      by (rewrite web_exists_run; cbn [Web.files tree]; now rewrite Hc, L).
    rewrite (web_bind_returned _ _ true _ (Web.World (State t c) n))
      by (rewrite web_is_dir_run; cbn [Web.files tree]; now rewrite Hc, L).
    cbn [andb].
    set (ks := List.filter (below full) (List.map fst (map_to_list t))).
    assert (Hrg : Web.fs (rglob full) (Web.World (State t c) n)
                  = (Web.Returned ks, Web.World (State t c) n)).
    { rewrite web_fs_keeps by apply keeps_rglob. now rewrite rglob_canonical. }
    unfold Web.bind at 1. unfold Web.bind at 1. rewrite Hrg.
    set (l := Web.sorted_reverse ks).
    assert (Hl : forall k, k ∈ l <-> is_Some (t !! k) /\ below full k = true).
    { intros k. unfold l. rewrite sorted_reverse_perm. apply elem_of_below_keys. }
    assert (Hloop : Web.for_each Web.remove_child l (Web.World (State t c) n)
                    = (Web.Returned tt,
                       Web.World (State (fold_left (fun t k => delete k t) l t) c) n)).
    { apply remove_children_run.
      - apply sorted_reverse_sorted.
      - unfold l. rewrite sorted_reverse_perm. unfold ks.
        apply NoDup_ListNoDup, List.NoDup_filter, NoDup_ListNoDup, NoDup_fst_map_to_list.
      - intros k Hk. apply Hl in Hk as [[v Hv] Hb].
        split; [apply resolve_plain; eapply Hcan; eauto|].
        split; [|eauto]. intros ->. apply below_spec in Hb as [Hp _].
        apply prefix_nil_inv in Hp. contradiction.
      - intros x k Hx Hk Hb. apply Hl. split; [exact Hk|].
        apply Hl in Hx as [_ Hx]. exact (below_trans _ _ _ Hx Hb). }
    unfold Web.bind at 1. rewrite Hloop.
    set (t2 := fold_left (fun t k => delete k t) l t).
    assert (Hfull : t2 !! full = Some Dir).
    { unfold t2. rewrite lookup_fold_delete, decide_False.
      - now rewrite <- (lookup_node_key _ _ Hne).
      - intros Hin. apply Hl in Hin as [_ Hb]. apply below_spec in Hb as [_ Hb].
        congruence. }
    assert (Hempty : Web.has_below t2 full = false).
    { apply has_below_false. intros k Hk.
      destruct (below full k) eqn:Hb; [|reflexivity]. exfalso.
      unfold t2 in Hk. rewrite lookup_fold_delete in Hk.
      destruct (decide (k ∈ l)) as [Hin|Hout]; [now destruct Hk|].
      apply Hout, Hl. now split. }
    unfold Web.bind at 1. unfold Web.os at 1. unfold Web.rmdir.
    cbn [Web.files Web.notifier tree clock].
    rewrite Hc, (lookup_node_key _ _ Hne), Hfull, Hempty.
    rewrite bool_decide_eq_false_2 by assumption.
    unfold Web.bind, Web.broadcast_list_changed, Web.ret.
    cbn [Web.files Web.notifier tree clock]. f_equal. f_equal. f_equal.
    apply map_eq. intros k. unfold Web.without.
    destruct (decide (full `prefix_of` k)) as [Hp|Hp].
    + transitivity (@None node).
      * destruct (decide (k = full)) as [->|Hd]; [apply lookup_delete_eq|].
        rewrite lookup_delete_ne by congruence. unfold t2.
        rewrite lookup_fold_delete. destruct (decide (k ∈ l)) as [|Hout]; [reflexivity|].
        destruct (t !! k) as [v|] eqn:Hv; [|reflexivity]. destruct Hout.
        apply Hl. split; [eauto|]. apply below_spec. split; congruence.
      * symmetry. apply map_lookup_filter_None. right. intros v _ Hn. now apply Hn.
    + assert (Hkf : k <> full) by (intros ->; now apply Hp).
      rewrite lookup_delete_ne by congruence. unfold t2.
      rewrite lookup_fold_delete, decide_False.
      2:{ intros Hin. apply Hl in Hin as [_ Hb]. apply below_spec in Hb as [Hb _].
          contradiction. }
      destruct (t !! k) as [v|] eqn:Hv.
      * symmetry. apply map_lookup_filter_Some. split; [exact Hv|exact Hp].
      * symmetry. apply map_lookup_filter_None. now left.
  - unfold Web.delete_folder.
    rewrite (web_bind_returned _ _ full _ _) by (now rewrite web_resolve_safe_run, E).
    destruct (refused t [] full) eqn:R.
    + apply web_bind_failed. rewrite web_exists_run. cbn [Web.files tree].
      now rewrite Hc, L, R.
    + rewrite (web_bind_returned _ _ false _ (Web.World (State t c) n))
        by (rewrite web_exists_run; cbn [Web.files tree]; now rewrite Hc, L, R).
      rewrite (web_bind_returned _ _ false _ (Web.World (State t c) n)) by reflexivity.
      reflexivity.
Qed.



(** ** [move_entry] *)

Lemma move_entry_run root failing payload w :
  Web.move_entry root failing payload w
  = match Workspace.resolve_safe root (Web.src payload) with
    | Raise e => (Web.Failed (Web.Uncaught e), w)
    | Ok a =>
        match Workspace.resolve_safe root (Web.dst payload) with
        | Raise e => (Web.Failed (Web.Uncaught e), w)
        | Ok b =>
            match lookup_node (tree (Web.files w)) a with
            | None =>
                if refused (tree (Web.files w)) [] a
                then (Web.Failed (Web.Uncaught (OSError "ENAMETOOLONG")), w)
                else (Web.Failed (Web.HTTPException 404 "Source not found"), w)
            | Some _ =>
                let made := mkdir_parts [] (removelast b) (tree (Web.files w)) in
                let c := clock (Web.files w) in
                match fst made with
                | Raise e =>
                    (Web.Failed (Web.Uncaught e),
                     Web.World (State (snd made) c) (Web.notifier w))
                | Ok _ =>
                    match Web.rename a b (State (snd made) c) with
                    | (Web.Returned _, s2) =>
                        (Web.Returned Web.status_ok,
                         Web.World s2
                           (Notifications.broadcast_list_changed failing
                              (Web.notifier w)))
                    | (Web.Failed f, s2) =>
                        (Web.Failed f, Web.World s2 (Web.notifier w))
                    end
                end
            end
        end
    end.
Proof.
  unfold Web.move_entry.
  destruct (Workspace.resolve_safe root (Web.src payload)) as [a|e] eqn:Ea.
  2:{ apply web_bind_failed. now rewrite web_resolve_safe_run, Ea. }
  rewrite (web_bind_returned _ _ a w w) by (now rewrite web_resolve_safe_run, Ea).
  destruct (Workspace.resolve_safe root (Web.dst payload)) as [b|e] eqn:Eb.
  2:{ apply web_bind_failed. now rewrite web_resolve_safe_run, Eb. }
  rewrite (web_bind_returned _ _ b w w) by (now rewrite web_resolve_safe_run, Eb).
  destruct (resolve_safe_ok _ _ _ Ea) as [Hca _].
  destruct (resolve_safe_ok _ _ _ Eb) as [Hcb _].
  destruct (lookup_node (tree (Web.files w)) a) as [na|] eqn:La.
  2:{ destruct (refused (tree (Web.files w)) [] a) eqn:R.
      - apply web_bind_failed. now rewrite web_exists_run, Hca, La, R.
      - rewrite (web_bind_returned _ _ false w w)
          by (now rewrite web_exists_run, Hca, La, R).
        reflexivity. }
  rewrite (web_bind_returned _ _ true w w) by (now rewrite web_exists_run, Hca, La).
  cbn [negb]. cbv zeta. unfold Web.bind at 1.
  rewrite web_mkdir_run, (resolve_parent _ Hcb).
  destruct (fst (mkdir_parts [] (removelast b) (tree (Web.files w)))) as [[]|e];
    [|reflexivity].
  unfold Web.bind at 1. unfold Web.os at 1. cbn [Web.files Web.notifier].
  destruct (Web.rename a b _) as [[[]|f] s2]; reflexivity.
Qed.



(** ** The routes stay inside the root *)

(** What [mkdir] changes is entries it adds on the way to its target. *)
Lemma mkdir_parts_changes (done todo : path) (t : gmap path node) (k : path) :
  snd (mkdir_parts done todo t) !! k = t !! k
  \/ (t !! k = None /\ exists m, m <> [] /\ m `prefix_of` todo /\ k = done ++ m).
Proof.
  revert done t; induction todo as [|x r IH]; intros done t; simpl; [now left|].
  rewrite lookup_node_snoc. destruct (t !! (done ++ [x])) as [[f|]|] eqn:E; simpl.
  - now left.
  - destruct (IH (done ++ [x]) t) as [H|(Hn & m & Hm & Hp & ->)]; [now left|right].
    split; [exact Hn|].
    exists (x :: m). split; [discriminate|]. split; [|now rewrite <- app_assoc].
    destruct Hp as [j ->]. now exists j.
  - destruct (decide (k = done ++ [x])) as [->|Hne].
    + right. split; [exact E|]. exists [x].
      split; [discriminate|]. split; [now exists r|reflexivity].
    + destruct (IH (done ++ [x]) (<[done ++ [x] := Dir]> t))
        as [H|(Hn & m & Hm & Hp & ->)].
      * left. now rewrite lookup_insert_ne in H by congruence.
      * right. rewrite lookup_insert_ne in Hn by congruence. split; [exact Hn|].
        exists (x :: m). split; [discriminate|]. split; [|now rewrite <- app_assoc].
        destruct Hp as [j ->]. now exists j.
Qed.

Lemma inside_refl (root : path) : inside root (resolve root).
Proof. unfold inside. reflexivity. Qed.

Lemma mkdir_parts_outside (root p : path) (t : gmap path node) (k : path) :
  ancestors_in_place root t ->
  inside root p \/ p `prefix_of` resolve root ->
  ~ inside root k ->
  snd (mkdir_parts [] p t) !! k = t !! k.
Proof.
  intros Hanc Hp Hk.
  destruct (mkdir_parts_changes [] p t k) as [H|(Hn & m & Hm & Hmp & ->)];
    [exact H|exfalso].
  cbn [app] in *.
  assert (Hmr : m `prefix_of` resolve root).
  { destruct Hp as [Hp|Hp].
    - destruct (prefix_weak_total _ _ _ Hmp Hp) as [H|H]; [exact H|contradiction].
    - now transitivity p. }
  rewrite Hanc in Hn; [discriminate|exact Hm|exact Hmr|].
  intros ->. apply Hk, inside_refl.
Qed.

Lemma parent_position (root full : path) :
  inside root full ->
  inside root (removelast full) \/ removelast full `prefix_of` resolve root.
Proof.
  intros [m ->]. destruct (decide (m = [])) as [->|Hne].
  - right. rewrite app_nil_r. destruct (decide (resolve root = [])) as [->|Hr]; [reflexivity|].
    exists [List.last (resolve root) ""]. now apply app_removelast_last.
  - left. rewrite removelast_app by assumption. now exists (removelast m).
Qed.

Lemma carried_outside (a b : path) (t : gmap path node) (k : path) :
  ~ b `prefix_of` k -> Web.carried a b t !! k = None.
Proof.
  intros Hk. unfold Web.carried. apply not_elem_of_list_to_map_1.
  intros Hin. apply list_elem_of_fmap in Hin as ([k' v] & -> & Hin).
  apply list_elem_of_In, in_map_iff in Hin as ([k0 v0] & [= <- <-] & _).
  apply Hk. cbn [fst]. now eexists.
Qed.

Lemma rename_outside (a b : path) (s : state) (k : path) :
  resolve a = a -> resolve b = b ->
  ~ a `prefix_of` k -> ~ b `prefix_of` k ->
  tree (snd (Web.rename a b s)) !! k = tree s !! k.
Proof.
  intros Ha Hb Hak Hbk.
  assert (Hka : a <> k) by (intros ->; now apply Hak).
  assert (Hkb : b <> k) by (intros ->; now apply Hbk).
  unfold Web.rename. rewrite Ha, Hb. cbv zeta.
  destruct (lookup_node (tree s) a) as [[f|]|]; [| |reflexivity];
    (destruct (lookup_node (tree s) (removelast b)) as [[g|]|]; try reflexivity);
    (destruct (bool_decide (a = b)); try reflexivity);
    (destruct (lookup_node (tree s) b) as [[h|]|]; try reflexivity);
    cbn [snd tree];
    try (rewrite lookup_insert_ne, lookup_delete_ne by assumption; reflexivity);
    (destruct (bool_decide (a = [])); try reflexivity);
    (destruct (bool_decide (a `prefix_of` b)); try reflexivity);
    (destruct (Web.has_below (tree s) b); try reflexivity);
    cbn [snd tree];
    rewrite lookup_union_r by (now apply carried_outside);
    unfold Web.without;
    (destruct (tree s !! k) as [v|] eqn:Hv;
     [apply map_lookup_filter_Some; split; [exact Hv|exact Hak]
     |apply map_lookup_filter_None; now left]).
Qed.

Lemma outside_not_below (root full k : path) :
  inside root full -> ~ inside root k -> ~ full `prefix_of` k.
Proof. unfold inside. intros Hf Hk Hp. apply Hk. now transitivity full. Qed.

(** No route writes outside the root.  In a tree with canonical keys
    where the directories above the root exist, every entry that is neither
    the root nor below it is after [write_file], [delete_file],
    [create_folder], [delete_folder] and [move_entry] exactly what it was
    before, whatever the arguments and whether the route returns or fails. *)
Theorem web_writes_stay_inside_root (root : path)
    (failing : Notifications.channel -> bool) (w : Web.world) (k : path) :
  canonical_keys (tree (Web.files w)) ->
  ancestors_in_place root (tree (Web.files w)) ->
  ~ inside root k ->
  let before := tree (Web.files w) !! k in
  (forall payload,
     tree (Web.files (snd (Web.write_file root failing payload w))) !! k = before)
  /\ (forall path,
        tree (Web.files (snd (Web.delete_file root failing path w))) !! k = before)
  /\ (forall payload,
        tree (Web.files (snd (Web.create_folder root failing payload w))) !! k = before)
  /\ (forall path,
        tree (Web.files (snd (Web.delete_folder root failing path w))) !! k = before)
  /\ (forall payload,
        tree (Web.files (snd (Web.move_entry root failing payload w))) !! k = before).
Proof.
  intros Hcan Hanc Hk before. subst before.
  assert (Hroot : resolve root <> []).
  { intros E. apply Hk. unfold inside. rewrite E. now exists k. }
  split; [|split; [|split; [|split]]].
  - intros payload. rewrite write_file_run.
    destruct (Workspace.resolve_safe root (Web.file_path payload)) as [full|e] eqn:E;
      [|reflexivity].
    destruct (resolve_safe_ok _ _ _ E) as [_ Hin]. cbv zeta.
    assert (Hm : snd (mkdir_parts [] (removelast full) (tree (Web.files w))) !! k
                 = tree (Web.files w) !! k).
    { apply (mkdir_parts_outside root); auto using parent_position. }
    assert (Hkf : full <> k) by (intros ->; contradiction).
    destruct (fst (mkdir_parts _ _ _)) as [[]|e]; [|exact Hm].
    destruct (lookup_node _ full) as [[f|]|]; cbn [snd Web.files tree];
      rewrite ?lookup_insert_ne by assumption; exact Hm.
  - intros path. rewrite delete_file_run.
    destruct (Workspace.resolve_safe root path) as [full|e] eqn:E; [|reflexivity].
    destruct (resolve_safe_ok _ _ _ E) as [_ Hin].
    assert (Hkf : full <> k) by (intros ->; contradiction).
    destruct (lookup_node _ full) as [[f|]|]; try destruct (refused _ _ _);
      cbn [snd Web.files tree];
      rewrite ?lookup_delete_ne by assumption; reflexivity.
  - intros payload. rewrite create_folder_run.
    destruct (Workspace.resolve_safe root (Web.folder_path payload)) as [full|e] eqn:E;
      [|reflexivity].
    destruct (resolve_safe_ok _ _ _ E) as [_ Hin]. cbv zeta.
    assert (Hm : snd (mkdir_parts [] full (tree (Web.files w))) !! k
                 = tree (Web.files w) !! k).
    { apply (mkdir_parts_outside root); auto. }
    destruct (fst (mkdir_parts _ _ _)) as [[]|e]; exact Hm.
  - intros path. rewrite (delete_folder_run _ _ _ _ Hcan Hroot).
    destruct (Workspace.resolve_safe root path) as [full|e] eqn:E; [|reflexivity].
    destruct (resolve_safe_ok _ _ _ E) as [_ Hin].
    destruct (lookup_node _ full) as [[f|]|]; try destruct (refused _ _ _);
      cbn [snd Web.files tree]; try reflexivity.
    unfold Web.without. destruct (tree (Web.files w) !! k) as [v|] eqn:Hv.
    + apply map_lookup_filter_Some. split; [exact Hv|].
      now apply (outside_not_below root).
    + apply map_lookup_filter_None. now left.
  - intros payload. rewrite move_entry_run.
    destruct (Workspace.resolve_safe root (Web.src payload)) as [a|e] eqn:Ea;
      [|reflexivity].
    destruct (Workspace.resolve_safe root (Web.dst payload)) as [b|e] eqn:Eb;
      [|reflexivity].
    destruct (resolve_safe_ok _ _ _ Ea) as [Hca Hina].
    destruct (resolve_safe_ok _ _ _ Eb) as [Hcb Hinb].
    destruct (lookup_node _ a) as [na|]; [|now destruct (refused _ _ _)]. cbv zeta.
    assert (Hm : snd (mkdir_parts [] (removelast b) (tree (Web.files w))) !! k
                 = tree (Web.files w) !! k).
    { apply (mkdir_parts_outside root); auto using parent_position. }
    destruct (fst (mkdir_parts _ _ _)) as [[]|e]; [|exact Hm].
    pose proof (rename_outside a b
                  (State (snd (mkdir_parts [] (removelast b) (tree (Web.files w))))
                     (clock (Web.files w))) k Hca Hcb
                  (outside_not_below root a k Hina Hk)
                  (outside_not_below root b k Hinb Hk)) as Hr.
    destruct (Web.rename a b _) as [[[]|f] s2]; cbn [snd Web.files tree] in *;
      now rewrite Hr.
Qed.

Lemma web_writes_stay_inside_root_witness :
  let root := ["srv"; "ws"] in
  let failing := fun c => Nat.eqb c 2 in
  let k := ["etc"; "passwd"] in
  let w := Web.World (State {[ ["srv"] := Dir; ["srv"; "ws"] := Dir;
                               ["srv"; "ws"; "notes.md"] := Reg (File "n" 0 true);
                               ["etc"] := Dir;
                               k := Reg (File "root:x:0:0" 0 true) ]} 7)
             (Notifications.Notifier ∅ []) in
  (canonical_keys (tree (Web.files w)) /\ ancestors_in_place root (tree (Web.files w))
   /\ ~ inside root k)
  /\ tree (Web.files (snd (Web.move_entry root failing
                             {| Web.src := "notes.md"; Web.dst := "../../etc/passwd" |} w)))
       !! k
     = Some (Reg (File "root:x:0:0" 0 true)).
Proof.
  intros root failing k w.
  assert (H1 : canonical_keys (tree (Web.files w)))
    by (apply canonical_keysb_true; vm_compute; reflexivity).
  assert (H2 : ancestors_in_place root (tree (Web.files w))).
  { intros m Hm [j Hj] Hne. destruct m as [|x [|y [|z m]]]; try congruence.
    - injection Hj as <- _. vm_compute. reflexivity.
    - injection Hj as <- <- _. exfalso. apply Hne. reflexivity.
    - discriminate. }
  assert (H3 : ~ inside root k) by (intros [j Hj]; discriminate).
  split; [repeat split; assumption|].
  rewrite (proj2 (proj2 (proj2 (proj2
            (web_writes_stay_inside_root root failing w k H1 H2 H3)))) _).
  vm_compute. reflexivity.
Defined.

(** ** The routes and the notifier *)

Lemma quiet_ret {A} (a : A) : quiet (Web.ret a).
Proof. easy. Qed.

Lemma quiet_fail {A} f : quiet (@Web.fail A f).
Proof. easy. Qed.

Lemma quiet_fs {A} (m : M A) : quiet (Web.fs m).
Proof. intros w. unfold Web.fs. destruct (m (Web.files w)) as [[a|e] s]; reflexivity. Qed.

Lemma quiet_os {A} (m : state -> Web.result A * state) : quiet (Web.os m).
Proof. intros w. unfold Web.os. destruct (m (Web.files w)) as [r s]; reflexivity. Qed.

Lemma quiet_bind {A B} (m : Web.R A) (k : A -> Web.R B) :
  quiet m -> (forall a, quiet (k a)) -> quiet (Web.bind m k).
Proof.
  intros Hm Hk w. unfold Web.bind. specialize (Hm w).
  destruct (m w) as [[a|f] w1]; cbn [snd] in *; [|exact Hm].
  now rewrite Hk.
Qed.

Lemma quiet_for_each {A} (body : A -> Web.R unit) l :
  (forall x, quiet (body x)) -> quiet (Web.for_each body l).
Proof.
  intros Hb. induction l as [|x l IH]; simpl; [apply quiet_ret|].
  apply quiet_bind; auto.
Qed.

Lemma quiet_announcing {A} failing (m : Web.R A) : quiet m -> announcing failing m.
Proof. intros H w. destruct (fst (m w)); auto. Qed.

Lemma announcing_bind {A B} failing (m : Web.R A) (k : A -> Web.R B) :
  quiet m -> (forall a, announcing failing (k a)) ->
  announcing failing (Web.bind m k).
Proof.
  intros Hm Hk w. unfold Web.bind. specialize (Hm w).
  destruct (m w) as [[a|f] w1]; cbn [fst snd] in *; [|exact Hm].
  specialize (Hk a w1). rewrite Hm in Hk. exact Hk.
Qed.

Lemma announcing_then_ret {A B} failing (m : Web.R A) (b : B) :
  announcing failing m -> announcing failing (Web.bind m (fun _ => Web.ret b)).
Proof.
  intros Hm w. unfold Web.bind, Web.ret. specialize (Hm w).
  destruct (m w) as [[a|f] w1]; exact Hm.
Qed.

Lemma announcing_broadcast failing :
  announcing failing (Web.broadcast_list_changed failing).
Proof. intros w. right. reflexivity. Qed.

Lemma quiet_resolve_safe root rel : quiet (Web.resolve_safe root rel).
Proof. apply quiet_fs. Qed.

Lemma quiet_remove_child child : quiet (Web.remove_child child).
Proof.
  apply quiet_bind; [apply quiet_fs|]. intros []; apply quiet_os.
Qed.

(** A route that fails notifies nobody, and a route that returns has
    broadcast the two list-changed events once or not at all: the only step
    of [write_file], [delete_file], [create_folder], [delete_folder] and
    [move_entry] that touches the notifier is the broadcast that comes after
    the last change, and [read_file] never touches it. *)
Theorem routes_notify_after_the_change (root : path)
    (failing : Notifications.channel -> bool) :
  (forall path, quiet (Web.read_file root path))
  /\ (forall payload, announcing failing (Web.write_file root failing payload))
  /\ (forall path, announcing failing (Web.delete_file root failing path))
  /\ (forall payload, announcing failing (Web.create_folder root failing payload))
  /\ (forall path, announcing failing (Web.delete_folder root failing path))
  /\ (forall payload, announcing failing (Web.move_entry root failing payload)).
Proof.
  split; [|split; [|split; [|split; [|split]]]].
  - intros path. unfold Web.read_file.
    apply quiet_bind; [apply quiet_resolve_safe|intros full].
    apply quiet_bind; [apply quiet_fs|intros e].
    apply quiet_bind; [destruct e; [apply quiet_fs|apply quiet_ret]|intros f].
    destruct (negb e || negb f); [apply quiet_fail|].
    apply quiet_bind; [apply quiet_fs|intros; apply quiet_ret].
  - intros payload. unfold Web.write_file.
    apply announcing_bind; [apply quiet_resolve_safe|intros full].
    apply announcing_bind; [apply quiet_fs|intros _].
    apply announcing_bind; [apply quiet_fs|intros _].
    apply announcing_then_ret, announcing_broadcast.
  - intros path. unfold Web.delete_file.
    apply announcing_bind; [apply quiet_resolve_safe|intros full].
    apply announcing_bind; [apply quiet_fs|intros e].
    apply announcing_bind; [destruct e; [apply quiet_fs|apply quiet_ret]|intros f].
    apply announcing_then_ret. destruct (e && f).
    + apply announcing_bind; [apply quiet_os|intros _; apply announcing_broadcast].
    + apply quiet_announcing, quiet_ret.
  - intros payload. unfold Web.create_folder.
    apply announcing_bind; [apply quiet_resolve_safe|intros full].
    apply announcing_bind; [apply quiet_fs|intros _].
    apply announcing_then_ret, announcing_broadcast.
  - intros path. unfold Web.delete_folder.
    apply announcing_bind; [apply quiet_resolve_safe|intros full].
    apply announcing_bind; [apply quiet_fs|intros e].
    apply announcing_bind; [destruct e; [apply quiet_fs|apply quiet_ret]|intros d].
    apply announcing_then_ret. destruct (e && d).
    + apply announcing_bind; [apply quiet_fs|intros children].
      apply announcing_bind;
        [apply quiet_for_each; intros; apply quiet_remove_child|intros _].
      apply announcing_bind; [apply quiet_os|intros _; apply announcing_broadcast].
    + apply quiet_announcing, quiet_ret.
  - intros payload. unfold Web.move_entry.
    apply announcing_bind; [apply quiet_resolve_safe|intros a].
    apply announcing_bind; [apply quiet_resolve_safe|intros b].
    apply announcing_bind; [apply quiet_fs|intros e].
    destruct (negb e); [apply quiet_announcing, quiet_fail|].
    apply announcing_bind; [apply quiet_fs|intros _].
    apply announcing_bind; [apply quiet_os|intros _].
    apply announcing_then_ret, announcing_broadcast.
Qed.

Lemma routes_notify_after_the_change_witness :
  let root := ["srv"; "ws"] in
  let failing := fun c => Nat.eqb c 2 in
  let w := Web.World (State ∅ 0) (Notifications.Notifier {[ 1%nat ]} []) in
  let run := Web.write_file root failing
               {| Web.file_path := "../x"; Web.file_content := "" |} w in
  fst run = Web.Failed (Web.Uncaught (ValueError "Path traversal blocked"))
  /\ Web.notifier (snd run) = Web.notifier w.
Proof.
  intros root failing w run.
  assert (H : fst run = Web.Failed (Web.Uncaught (ValueError "Path traversal blocked")))
    by (vm_compute; reflexivity).
  split; [exact H|].
  pose proof (proj1 (proj2 (routes_notify_after_the_change root failing))
                {| Web.file_path := "../x"; Web.file_content := "" |} w) as G.
  fold run in G. rewrite H in G. exact G.
Defined.
